(** * STP bridge core and mOSPF router core: a shallow embedding

    The two control-plane cores of the repository are embedded as pure
    functions over explicit state:

    - [06/06-stp-new/stp.c]: the BPDU priority comparison
      [get_port_priority], the config emitters and the BPDU handler
      [stp_handle_config_packet];
    - [12/12-mospf/mospf_daemon.c]: the Hello and LSU handlers, the body of
      the LSU emitter thread and the SPF pass [generate_rt].

    Conventions.  A C integer of width w is a [Z]; every operation whose
    result the C code stores in a narrower or signed type has its
    wrap-around written out ([to_u16], [to_u32], [to_u64], [to_int]).
    Arrays and intrusive lists are Coq lists, a pointer into one of them is
    an index.  Packets sent by the code are collected in an output list, in
    the order of the calls.  Writes to stdout and to the log are left out. *)

From Stdlib Require Import ZArith List Lia Bool.
From stdpp Require Import base list.
Import ListNotations.
Open Scope Z_scope.

(** ** Machine integers *)

Definition to_u8 (z : Z) : Z := z mod 2 ^ 8.
Definition to_u16 (z : Z) : Z := z mod 2 ^ 16.
Definition to_u32 (z : Z) : Z := z mod 2 ^ 32.
Definition to_u64 (z : Z) : Z := z mod 2 ^ 64.

(** Conversion to [int] (32 bits, two's complement), as gcc defines it for
    values out of range, and as the machine computes signed overflow. *)
Definition to_int (z : Z) : Z := (z + 2 ^ 31) mod 2 ^ 32 - 2 ^ 31.

(** [abs] of <stdlib.h> on an [int]. *)
Definition c_abs (t : Z) : Z := to_int (Z.abs t).

(** Byte order.  The host is little-endian (the labs run on x86), so the
    conversions between host and network order reverse the bytes. *)
Definition bswap16 (x : Z) : Z := (x mod 256) * 256 + (x / 256) mod 256.
Definition bswap32 (x : Z) : Z :=
  bswap16 (x mod 65536) * 65536 + bswap16 ((x / 65536) mod 65536).
Definition bswap64 (x : Z) : Z :=
  bswap32 (x mod 2 ^ 32) * 2 ^ 32 + bswap32 ((x / 2 ^ 32) mod 2 ^ 32).

Definition htons : Z -> Z := bswap16.
Definition ntohs : Z -> Z := bswap16.
Definition htonl : Z -> Z := bswap32.
Definition ntohl : Z -> Z := bswap32.
Definition htonll : Z -> Z := bswap64.
Definition ntohll : Z -> Z := bswap64.

(** A MAC address: six bytes. *)
Definition mac_t : Type := list Z.

(** * Part I: the STP bridge (06/06-stp-new/stp.c) *)

(** stp.h, stp_proto.h, stp_timer.c, ether.h and packet.h are not part of
    the sources at hand.  Their constants are parameters of the
    development; the widths of the fields of [struct stp_config], [stp_t]
    and [stp_port_t] are those of the data model of the specification. *)
Class EtherEnv : Type := {
  ETHER_HDR_SIZE : Z  (* sizeof(struct ether_header) *)
}.

Class StpEnv : Type := {
  STP_PROTOCOL_ID : Z;
  STP_PROTOCOL_VERSION : Z;
  STP_TYPE_CONFIG : Z;
  STP_MAX_AGE : Z;
  STP_HELLO_TIME : Z;
  STP_FWD_DELAY : Z;
  STP_BRIDGE_PRIORITY : Z;
  STP_PORT_PRIORITY : Z;
  LLC_HDR_SIZE : Z;
  LLC_DSAP_SNAP : Z;
  LLC_SSAP_SNAP : Z;
  LLC_CNTL_SNAP : Z;
  STP_CONFIG_SIZE : Z  (* sizeof(struct stp_config) *)
}.

(** [struct stp_config]: header (proto_id, version, msg_type) and body;
    root_id and switch_id are u64, root_path_cost is u32, port_id u16. *)
Record stp_config : Type := mk_config {
  config_proto_id : Z;
  config_version : Z;
  config_msg_type : Z;
  config_flags : Z;
  config_root_id : Z;
  config_root_path_cost : Z;
  config_switch_id : Z;
  config_port_id : Z;
  config_msg_age : Z;
  config_max_age : Z;
  config_hello_time : Z;
  config_fwd_delay : Z
}.

(** [stp_port_t].  The back pointer [p->stp] is implicit (there is one
    bridge); of [p->iface] the MAC address is kept. *)
Record stp_port : Type := mk_port {
  port_id : Z;                 (* u16 *)
  port_mac : mac_t;            (* p->iface->mac *)
  path_cost : Z;               (* u32 *)
  designated_root : Z;         (* u64 *)
  designated_switch : Z;       (* u64 *)
  designated_port : Z;         (* u16 *)
  designated_cost : Z          (* u32 *)
}.

(** [stp_t].  [root_port] points into [ports]: an index, or [None] for
    NULL.  [nports] is the length of [ports]. *)
Record stp_t : Type := mk_stp {
  stp_switch_id : Z;
  stp_designated_root : Z;
  stp_root_path_cost : Z;
  stp_root_port : option nat;
  stp_ports : list stp_port
}.

(** The frame that [stp_port_send_packet] hands to [iface_send_packet]. *)
Record stp_frame : Type := mk_frame {
  frame_dhost : mac_t;
  frame_shost : mac_t;
  frame_type : Z;
  llc_dsap : Z;
  llc_ssap : Z;
  llc_cntl : Z;
  frame_msg : stp_config
}.

(** What the handler does to the outside: a frame sent on the interface of
    port number [port], or the hello timer stopped. *)
Inductive stp_event : Type :=
| EvSend (port : nat) (frame : stp_frame)
| EvStopTimer.

(** The bridge together with the function-local [static int root] of
    [stp_handle_config_packet] and the state of [stp->hello_timer]
    (running or not). *)
Record stp_world : Type := mk_world {
  w_stp : stp_t;
  w_root : Z;
  w_hello_active : bool
}.

(** Modelled from the spec: [stp_stop_timer] of stp_timer.c, which is not
    among the sources; the spec says that it stops the hello timer.  The
    timer is marked as not running and the call is recorded. *)
Definition stp_stop_timer (w : stp_world) : stp_world * list stp_event :=
  (mk_world (w_stp w) (w_root w) false, [EvStopTimer]).

Definition eth_stp_addr : mac_t := [0x01; 0x80; 0xC2; 0x00; 0x00; 0x01].

Definition stp_is_root_switch (stp : stp_t) : bool :=
  stp_designated_root stp =? stp_switch_id stp.

Definition stp_port_is_designated (stp : stp_t) (p : stp_port) : bool :=
  (designated_switch p =? stp_switch_id stp) && (designated_port p =? port_id p).

Section StpDefs.
Context `{EtherEnv} `{StpEnv}.

Definition stp_port_send_packet (i : nat) (p : stp_port) (stp_msg : stp_config)
    (msg_len : Z) : stp_event :=
  let pkt_len := ETHER_HDR_SIZE + LLC_HDR_SIZE + msg_len in
  EvSend i {| frame_dhost := eth_stp_addr;
              frame_shost := port_mac p;
              frame_type := htons (to_u16 (pkt_len - ETHER_HDR_SIZE));
              llc_dsap := LLC_DSAP_SNAP;
              llc_ssap := LLC_SSAP_SNAP;
              llc_cntl := LLC_CNTL_SNAP;
              frame_msg := stp_msg |}.

(** The config BPDU a port advertises: the bridge's view and its own id. *)
Definition build_config (stp : stp_t) (p : stp_port) : stp_config :=
  {| config_proto_id := htons STP_PROTOCOL_ID;
     config_version := STP_PROTOCOL_VERSION;
     config_msg_type := STP_TYPE_CONFIG;
     config_flags := 0;
     config_root_id := htonll (stp_designated_root stp);
     config_root_path_cost := htonl (stp_root_path_cost stp);
     config_switch_id := htonll (stp_switch_id stp);
     config_port_id := htons (port_id p);
     config_msg_age := htons 0;
     config_max_age := htons STP_MAX_AGE;
     config_hello_time := htons STP_HELLO_TIME;
     config_fwd_delay := htons STP_FWD_DELAY |}.

Definition stp_port_send_config (stp : stp_t) (i : nat) (p : stp_port)
    : list stp_event :=
  let is_root := stp_is_root_switch stp in
  if negb is_root && negb (bool_decide (is_Some (stp_root_port stp))) then []
  else [stp_port_send_packet i p (build_config stp p) STP_CONFIG_SIZE].

(** The loop of [stp_send_config], from port number [i] on. *)
Fixpoint stp_send_config_from (stp : stp_t) (i : nat) (ps : list stp_port)
    : list stp_event :=
  match ps with
  | [] => []
  | p :: ps' =>
      (if stp_port_is_designated stp p then stp_port_send_config stp i p else [])
      ++ stp_send_config_from stp (S i) ps'
  end.

Definition stp_send_config (stp : stp_t) : list stp_event :=
  stp_send_config_from stp 0%nat (stp_ports stp).

End StpDefs.

(** One weighted term of the comparison: [w * tmp / abs(tmp)], the product
    computed in [int] first, then the truncating division. *)
Definition signum_term (w tmp : Z) : Z := Z.quot (to_int (w * tmp)) (c_abs tmp).

Definition priority_step (w tmp priority : Z) : Z :=
  if tmp =? 0 then priority else to_int (priority + signum_term w tmp).

(** [get_port_priority].  Each difference is computed in the type of its
    operands (u64, u32, u64, and [int] for the promoted u16 port ids) and
    then stored in [int tmp]. *)
Definition get_port_priority (config : stp_config) (p : stp_port) : Z :=
  let priority := 0 in
  let tmp := to_int (to_u64 (config_root_id config - designated_root p)) in
  let priority := priority_step 8 tmp priority in
  let tmp := to_int (to_u32 (config_root_path_cost config - designated_cost p)) in
  let priority := priority_step 4 tmp priority in
  let tmp := to_int (to_u64 (config_switch_id config - designated_switch p)) in
  let priority := priority_step 2 tmp priority in
  let tmp := to_int (config_port_id config - designated_port p) in
  let priority := priority_step 1 tmp priority in
  priority.

(** The first four statements of the handler: the compared fields are
    converted to host order in place. *)
Definition config_to_host (config : stp_config) : stp_config :=
  {| config_proto_id := config_proto_id config;
     config_version := config_version config;
     config_msg_type := config_msg_type config;
     config_flags := config_flags config;
     config_root_id := ntohll (config_root_id config);
     config_root_path_cost := ntohl (config_root_path_cost config);
     config_switch_id := ntohll (config_switch_id config);
     config_port_id := ntohs (config_port_id config);
     config_msg_age := config_msg_age config;
     config_max_age := config_max_age config;
     config_hello_time := config_hello_time config;
     config_fwd_delay := config_fwd_delay config |}.

Definition set_ports (stp : stp_t) (ps : list stp_port) : stp_t :=
  {| stp_switch_id := stp_switch_id stp;
     stp_designated_root := stp_designated_root stp;
     stp_root_path_cost := stp_root_path_cost stp;
     stp_root_port := stp_root_port stp;
     stp_ports := ps |}.

(** Lines 186-187: the port reasserts itself. *)
Definition port_reassert (stp : stp_t) (p : stp_port) : stp_port :=
  {| port_id := port_id p;
     port_mac := port_mac p;
     path_cost := path_cost p;
     designated_root := designated_root p;
     designated_switch := stp_switch_id stp;
     designated_port := port_id p;
     designated_cost := designated_cost p |}.

(** Lines 208-211: the port takes the quadruple of the BPDU. *)
Definition port_adopt (config : stp_config) (p : stp_port) : stp_port :=
  {| port_id := port_id p;
     port_mac := port_mac p;
     path_cost := path_cost p;
     designated_root := config_root_id config;
     designated_switch := config_switch_id config;
     designated_port := config_port_id config;
     designated_cost := config_root_path_cost config |}.

(** The body of the loop at lines 225-232, for one port [q]; [pid] is
    [p->port_id]. *)
Definition port_inherit (stp : stp_t) (pid : Z) (q : stp_port) : stp_port :=
  if negb (port_id q =? pid) then
    {| port_id := port_id q;
       port_mac := port_mac q;
       path_cost := path_cost q;
       designated_root := stp_designated_root stp;
       designated_switch := designated_switch q;
       designated_port := designated_port q;
       designated_cost := stp_root_path_cost stp |}
  else q.

(** Lines 214-216: there is a root port and the BPDU is not better than
    what that port stores.  The port is read after the update of [p], which
    it may alias. *)
Definition root_port_holds (config : stp_config) (stp : stp_t) : bool :=
  match stp_root_port stp with
  | Some r =>
      match stp_ports stp !! r with
      | Some rp => 0 <=? get_port_priority config rp
      | None => false
      end
  | None => false
  end.

(** Lines 220-222: port number [i], whose record is [p], becomes root port. *)
Definition elect_root_port (stp : stp_t) (i : nat) (config : stp_config)
    (p : stp_port) : stp_t :=
  {| stp_switch_id := stp_switch_id stp;
     stp_designated_root := config_root_id config;
     stp_root_path_cost := to_u32 (designated_cost p + path_cost p);
     stp_root_port := Some i;
     stp_ports := stp_ports stp |}.

Section StpHandler.
Context `{EtherEnv} `{StpEnv}.

(** [stp_handle_config_packet stp p config], with [p = &stp->ports[i]].
    The result is the new state and what was sent or stopped, in order. *)
Definition stp_handle_config_packet (w : stp_world) (i : nat)
    (config : stp_config) : stp_world * list stp_event :=
  let stp := w_stp w in
  match stp_ports stp !! i with
  | None => (w, [])
  | Some p =>
      let config := config_to_host config in
      let priority := get_port_priority config p in
      if 0 <? priority then
        (mk_world (set_ports stp (<[i := port_reassert stp p]> (stp_ports stp)))
                  (w_root w) (w_hello_active w), [])
      else if priority =? 0 then
        (w, stp_send_config stp)
      else
        let '(w0, stopped) :=
          if w_root w =? 1
          then stp_stop_timer (mk_world stp 0 (w_hello_active w))
          else (w, []) in
        let p1 := port_adopt config p in
        let stp1 := set_ports stp (<[i := p1]> (stp_ports stp)) in
        if root_port_holds config stp1 then
          (mk_world stp1 (w_root w0) (w_hello_active w0), stopped)
        else
          let stp2 := elect_root_port stp1 i config p1 in
          let stp3 :=
            set_ports stp2 (map (port_inherit stp2 (port_id p1)) (stp_ports stp2)) in
          (mk_world stp3 (w_root w0) (w_hello_active w0),
           stopped ++ stp_send_config stp3)
  end.

(** A sequence of BPDUs, each with the port it arrives on, handled one after
    the other (the bridge lock serialises the calls). *)
Fixpoint stp_run (w : stp_world) (bpdus : list (nat * stp_config))
    : stp_world * list stp_event :=
  match bpdus with
  | [] => (w, [])
  | (i, config) :: rest =>
      let '(w1, out1) := stp_handle_config_packet w i config in
      let '(w2, out2) := stp_run w1 rest in
      (w2, out1 ++ out2)
  end.

End StpHandler.

Section StpInit.
Context `{EtherEnv} `{StpEnv}.

(** The loop of [stp_init] that packs the six bytes of the first MAC into a
    u64: [mac_addr <<= 8; mac_addr += mac[i]]. *)
Definition mac_to_u64 (mac : mac_t) : Z :=
  fold_left (fun mac_addr b => to_u64 (to_u64 (mac_addr * 2 ^ 8) + b)) mac 0.

Definition init_port_id (nports : nat) : Z :=
  to_u16 (Z.lor (Z.shiftl STP_PORT_PRIORITY 8) (Z.of_nat nports + 1)).

(** One round of the port loop of [stp_init], [stp_port_init] included. *)
Definition init_port (switch_id : Z) (nports : nat) (mac : mac_t) : stp_port :=
  {| port_id := init_port_id nports;
     port_mac := mac;
     path_cost := 1;
     designated_root := switch_id;
     designated_switch := switch_id;
     designated_port := init_port_id nports;
     designated_cost := 0 |}.

(** [stp_init] on a non-empty interface list: the bridge believes itself
    root, the hello timer runs, and [static int root = 1]. *)
Definition stp_init (first : mac_t) (others : list mac_t) : stp_world :=
  let switch_id :=
    Z.lor (mac_to_u64 first) (to_u64 (Z.shiftl STP_BRIDGE_PRIORITY 48)) in
  {| w_stp := {| stp_switch_id := switch_id;
                 stp_designated_root := switch_id;
                 stp_root_path_cost := 0;
                 stp_root_port := None;
                 stp_ports := imap (init_port switch_id) (first :: others) |};
     w_root := 1;
     w_hello_active := true |}.

End StpInit.

(** ** Reference notions for the STP claims *)

(** The ordered comparison the handler is meant to perform: the
    lexicographic order on (root_id, root_path_cost, switch_id, port_id),
    each field compared as the unsigned number it is. *)
Definition lex4 (c1 c2 c3 c4 : comparison) : comparison :=
  match c1 with
  | Eq => match c2 with
          | Eq => match c3 with Eq => c4 | c => c end
          | c => c
          end
  | c => c
  end.

Definition quadruple_compare (config : stp_config) (p : stp_port) : comparison :=
  lex4 (config_root_id config ?= designated_root p)
       (config_root_path_cost config ?= designated_cost p)
       (config_switch_id config ?= designated_switch p)
       (config_port_id config ?= designated_port p).

(** Every field of the BPDU is within 2^28 of the field of the port it is
    compared with: no difference is cut by the conversion to [int], no
    product leaves [int]. *)
Definition close_fields (config : stp_config) (p : stp_port) : Prop :=
  Z.abs (config_root_id config - designated_root p) < 2 ^ 28 /\
  Z.abs (config_root_path_cost config - designated_cost p) < 2 ^ 28 /\
  Z.abs (config_switch_id config - designated_switch p) < 2 ^ 28 /\
  Z.abs (config_port_id config - designated_port p) < 2 ^ 28.

(** No emission is suppressed: a bridge that is not root has a root port. *)
Definition stp_inv (stp : stp_t) : Prop :=
  stp_is_root_switch stp = true \/ is_Some (stp_root_port stp).

(** What holds of every state the bridge reaches from [stp_init]: no
    emission is suppressed, [root] is 0 or it is still 1 and there is no
    root port yet, and no two ports have the same id. *)
Definition stp_world_inv (w : stp_world) : Prop :=
  stp_inv (w_stp w) /\
  (w_root w = 0 \/ (w_root w = 1 /\ stp_root_port (w_stp w) = None)) /\
  NoDup (map port_id (stp_ports (w_stp w))).

Definition is_stop (e : stp_event) : bool :=
  match e with EvStopTimer => true | EvSend _ _ => false end.

(** How often [stp_stop_timer] was called. *)
Definition timer_stops (out : list stp_event) : nat :=
  length (List.filter is_stop out).

Section StpSpec.
Context `{EtherEnv} `{StpEnv}.

(** The frame port number [j] sends when it advertises the bridge's view. *)
Definition config_bpdu (stp : stp_t) (j : nat) (q : stp_port) : stp_frame :=
  {| frame_dhost := eth_stp_addr;
     frame_shost := port_mac q;
     frame_type := htons (to_u16 (LLC_HDR_SIZE + STP_CONFIG_SIZE));
     llc_dsap := LLC_DSAP_SNAP;
     llc_ssap := LLC_SSAP_SNAP;
     llc_cntl := LLC_CNTL_SNAP;
     frame_msg := build_config stp q |}.

(** [get_port_priority] rates the BPDU negative against what the port it
    arrives on stores: the handler takes its third branch. *)
Definition bpdu_better (w : stp_world) (i : nat) (config : stp_config) : bool :=
  match stp_ports (w_stp w) !! i with
  | Some p => get_port_priority (config_to_host config) p <? 0
  | None => false
  end.

(** Some BPDU of the sequence was rated negative when it was handled. *)
Fixpoint any_better (w : stp_world) (bpdus : list (nat * stp_config)) : bool :=
  match bpdus with
  | [] => false
  | (i, config) :: rest =>
      bpdu_better w i config
      || any_better (fst (stp_handle_config_packet w i config)) rest
  end.

End StpSpec.

(** Sample data: a bridge with two ports and a few BPDUs. *)
Definition lab_ether_env : EtherEnv := {| ETHER_HDR_SIZE := 14 |}.

Definition lab_stp_env : StpEnv :=
  {| STP_PROTOCOL_ID := 0; STP_PROTOCOL_VERSION := 0; STP_TYPE_CONFIG := 0;
     STP_MAX_AGE := 20; STP_HELLO_TIME := 2; STP_FWD_DELAY := 15;
     STP_BRIDGE_PRIORITY := 32768; STP_PORT_PRIORITY := 128;
     LLC_HDR_SIZE := 3;
     LLC_DSAP_SNAP := 0x42; LLC_SSAP_SNAP := 0x42; LLC_CNTL_SNAP := 0x03;
     STP_CONFIG_SIZE := 35 |}.

Definition sample_world : stp_world :=
  @stp_init lab_stp_env [0; 0; 0; 0; 0; 2] [[0; 0; 0; 0; 0; 3]].

Definition sample_port : stp_port :=
  {| port_id := 0x8001; port_mac := [0; 0; 0; 0; 0; 2]; path_cost := 1;
     designated_root := 0x8000000000000002;
     designated_switch := 0x8000000000000002;
     designated_port := 0x8001; designated_cost := 0 |}.

(** A BPDU in host order with the given quadruple. *)
Definition host_bpdu (root cost switch port : Z) : stp_config :=
  {| config_proto_id := 0; config_version := 0; config_msg_type := 0;
     config_flags := 0; config_root_id := root; config_root_path_cost := cost;
     config_switch_id := switch; config_port_id := port;
     config_msg_age := 0; config_max_age := 20; config_hello_time := 2;
     config_fwd_delay := 15 |}.

(** The same BPDU as it arrives, in network order. *)
Definition wire_bpdu (root cost switch port : Z) : stp_config :=
  host_bpdu (htonll root) (htonl cost) (htonll switch) (htons port).

(** The frames among the events, each with the number of its port. *)
Definition sends (out : list stp_event) : list (nat * stp_frame) :=
  flat_map (fun e => match e with EvSend j f => [(j, f)] | EvStopTimer => [] end) out.

Section StpFlood.
Context `{EtherEnv} `{StpEnv}.

(** [l] is a flood of the bridge's view: one config BPDU from every
    designated port and nothing from any other port. *)
Definition floods (stp : stp_t) (l : list (nat * stp_frame)) : Prop :=
  (forall j f, In (j, f) l <->
     exists q, stp_ports stp !! j = Some q /\
               stp_port_is_designated stp q = true /\
               f = config_bpdu stp j q) /\
  length l = length (List.filter (stp_port_is_designated stp) (stp_ports stp)).

End StpFlood.

(** Two BPDUs for [sample_port], whose stored root is 0x8000000000000002:
    the first names a root that is larger by 2^32, the second one that is
    larger by 2^32 - 2.  All other fields are those of the port. *)
Definition far_root_bpdu : stp_config :=
  host_bpdu 0x8000000100000002 0 0x8000000000000002 0x8001.

Definition wrapped_root_bpdu : stp_config :=
  host_bpdu 0x8000000100000000 0 0x8000000000000002 0x8001.

(** BPDUs as they arrive at port 0 of [sample_world]: one that is worse
    than what the port stores, one that is equal, one that is better. *)
Definition worse_bpdu : stp_config :=
  wire_bpdu 0x8000000000000003 0 0x8000000000000003 0x8001.

Definition equal_bpdu : stp_config :=
  wire_bpdu 0x8000000000000002 0 0x8000000000000002 0x8001.

Definition better_bpdu : stp_config :=
  wire_bpdu 0x8000000000000001 0 0x8000000000000001 0x8001.

Definition best_bpdu : stp_config :=
  wire_bpdu 0x8000000000000000 4 0x8000000000000001 0x8001.

(** [sample_world] after [best_bpdu] has arrived on port 0, which is then
    the root port; and a BPDU that is better than what port 1 stores in
    that state, but not better than what the root port stores. *)
Definition rooted_world : stp_world :=
  fst (@stp_handle_config_packet lab_ether_env lab_stp_env sample_world 0 best_bpdu).

Definition rooted_port1 : stp_port :=
  {| port_id := 0x8002; port_mac := [0; 0; 0; 0; 0; 3]; path_cost := 1;
     designated_root := 0x8000000000000000;
     designated_switch := 0x8000000000000002;
     designated_port := 0x8002; designated_cost := 5 |}.

Definition second_bpdu : stp_config :=
  wire_bpdu 0x8000000000000000 4 0x8000000000000001 0x8002.

(** BPDUs as they arrive whose ids are far from the stored ones, so that
    the differences of [get_port_priority] do not fit [int].  For port 0 of
    [sample_world], whose stored root is 0x8000000000000002: a root that is
    larger by 2^32 and one that is larger by 2^32 - 2 (worse BPDUs), a root
    that is smaller by 2^32 and one that is smaller by 2^32 - 2 (better
    BPDUs); all other fields are those of the port. *)
Definition far_wire : stp_config :=
  wire_bpdu 0x8000000100000002 0 0x8000000000000002 0x8001.

Definition wrapped_wire : stp_config :=
  wire_bpdu 0x8000000100000000 0 0x8000000000000002 0x8001.

Definition near_better : stp_config :=
  wire_bpdu 0x7FFFFFFF00000002 0 0x8000000000000002 0x8001.

Definition far_better : stp_config :=
  wire_bpdu 0x7FFFFFFF00000004 0 0x8000000000000002 0x8001.

(** [sample_world] after [better_bpdu] has arrived on port 0: the root is
    0x8000000000000001 and port 0 is the root port.  The two records are
    what its ports store then. *)
Definition bettered_world : stp_world :=
  fst (@stp_handle_config_packet lab_ether_env lab_stp_env sample_world 0 better_bpdu).

Definition bettered_port0 : stp_port :=
  {| port_id := 0x8001; port_mac := [0; 0; 0; 0; 0; 2]; path_cost := 1;
     designated_root := 0x8000000000000001;
     designated_switch := 0x8000000000000001;
     designated_port := 0x8001; designated_cost := 0 |}.

Definition bettered_port1 : stp_port :=
  {| port_id := 0x8002; port_mac := [0; 0; 0; 0; 0; 3]; path_cost := 1;
     designated_root := 0x8000000000000001;
     designated_switch := 0x8000000000000002;
     designated_port := 0x8002; designated_cost := 1 |}.

(** Two BPDUs for port 1 of [bettered_world].  The first names a root that
    is larger than the bridge's by 2^32 - 2: it is worse than what port 1
    and the root port store.  The second names the same root at a smaller
    cost, sent by a bridge whose id is larger than the one the root port
    stores by 2^32 - 2: it is better than what port 1 stores and worse than
    what the root port stores. *)
Definition bad_bpdu : stp_config :=
  wire_bpdu 0x80000000FFFFFFFF 0 0x8000000000000000 0x8001.

Definition rival_bpdu : stp_config :=
  wire_bpdu 0x8000000000000001 0 0x80000000FFFFFFFF 0x8001.

(** * Part II: the mOSPF router (12/12-mospf/mospf_daemon.c) *)

(** ** Data

    The headers of the daemon (mospf_proto.h, mospf_nbr.h,
    mospf_database.h, rtable.h, base.h) are not part of the sources at
    hand.  The records below have the fields the daemon reads and writes;
    their widths are those of the data model and of the wire formats of the
    specification. *)

(** [mospf_nbr_t]. *)
Record mospf_nbr_t : Type := mk_nbr {
  nbr_id : Z;      (* u32 *)
  nbr_ip : Z;      (* u32 *)
  nbr_mask : Z;    (* u32 *)
  alive : Z
}.

(** [iface_info_t], the fields the daemon uses. *)
Record iface_info_t : Type := mk_iface {
  iface_ip : Z;
  iface_mask : Z;
  iface_mac : mac_t;
  num_nbr : Z;     (* int *)
  nbr_list : list mospf_nbr_t
}.

(** [struct mospf_lsa]: three u32. *)
Record mospf_lsa : Type := mk_lsa {
  lsa_subnet : Z;
  lsa_mask : Z;
  lsa_rid : Z
}.

(** [mospf_db_entry_t]: rid u32, seq u16, nadv int, and the array. *)
Record mospf_db_entry_t : Type := mk_db_entry {
  db_rid : Z;
  db_seq : Z;
  db_nadv : Z;
  db_array : list mospf_lsa
}.

(** [ustack_t], the mOSPF part of the global [instance]. *)
Record ustack_t : Type := mk_ustack {
  iface_list : list iface_info_t;
  area_id : Z;        (* u32 *)
  router_id : Z;      (* u32 *)
  sequence_num : Z;   (* u16 *)
  lsuint : Z
}.

(** [rt_entry_t]; [rt_iface] points into the interface list. *)
Record rt_entry_t : Type := mk_rt {
  rt_dest : Z;
  rt_mask : Z;
  rt_gw : Z;
  rt_iface : option nat;
  rt_dist : Z
}.

(** The globals of the daemon: [instance], [nbr_changed], [mospf_db] and
    [rtable]. *)
Record mospf_state : Type := mk_mospf {
  mospf_instance : ustack_t;
  mospf_nbr_changed : Z;
  mospf_db : list mospf_db_entry_t;
  mospf_rtable : list rt_entry_t
}.

(** ** Packets.  A field holds the value the host reads from memory, that
    is, the wire value as a little-endian number. *)

Record ether_header : Type := mk_eth {
  ether_dhost : mac_t;
  ether_shost : mac_t;
  ether_type : Z
}.

Record iphdr : Type := mk_ip {
  ip_version : Z;
  ip_ihl : Z;
  ip_tos : Z;
  ip_tot_len : Z;
  ip_id : Z;
  ip_frag_off : Z;
  ip_ttl : Z;        (* u8 *)
  ip_protocol : Z;
  ip_check : Z;      (* the field [checksum] *)
  ip_saddr : Z;
  ip_daddr : Z
}.

Record mospf_hdr : Type := mk_mospf_hdr {
  mospf_version : Z;
  mospf_type : Z;
  mospf_len : Z;
  mospf_rid : Z;
  mospf_aid : Z;
  mospf_check : Z;   (* the field [checksum] *)
  mospf_padding : Z
}.

Record mospf_hello : Type := mk_hello {
  hello_mask : Z;
  hello_helloint : Z;
  hello_padding : Z
}.

Record mospf_lsu : Type := mk_lsu {
  lsu_seq : Z;       (* u16 *)
  lsu_ttl : Z;
  lsu_unused : Z;
  lsu_nadv : Z       (* u32 *)
}.

Record hello_packet : Type := mk_hello_packet {
  hello_eth : ether_header;
  hello_ip : iphdr;
  hello_hdr : mospf_hdr;
  hello_body : mospf_hello
}.

Record lsu_packet : Type := mk_lsu_packet {
  lsu_eth : ether_header;
  lsu_ip : iphdr;
  lsu_hdr : mospf_hdr;
  lsu_body : mospf_lsu;
  lsu_lsas : list mospf_lsa
}.

(** One call of [iface_send_packet_by_arp (iface, dst_ip, packet, len)]. *)
Record lsu_sent : Type := mk_sent {
  sent_iface : nat;
  sent_dst_ip : Z;
  sent_packet : lsu_packet;
  sent_len : Z
}.

(** [struct dist_entry] of the SPF pass. *)
Record dist_entry : Type := mk_dist {
  dist_rid : Z;
  dist_visited : Z;
  dist_dist : Z;     (* int *)
  dist_gw : Z
}.

(** Constants of the mOSPF headers and the functions of other files that
    the daemon calls; none of them is in the sources at hand.  The last
    field is the memory around the buffers of LSAs: [lsa_behind cells i] is
    what a read finds [i] cells behind the end of a buffer that holds
    [cells]. *)
Class MospfEnv : Type := {
  MOSPF_NEIGHBOR_TIMEOUT : Z;
  MOSPF_DEFAULT_LSUINT : Z;
  MOSPF_MAX_LSU_TTL : Z;
  MOSPF_VERSION : Z;
  MOSPF_TYPE_LSU : Z;
  DEFAULT_TTL : Z;
  ETH_P_IP : Z;
  IP_DF : Z;
  IP_BASE_HDR_SIZE : Z;
  MOSPF_HDR_SIZE : Z;
  MOSPF_LSU_SIZE : Z;
  MOSPF_LSA_SIZE : Z;
  LSU_TTL_WIDTH : Z;   (* width in bits of the field [ttl] of struct mospf_lsu *)
  MAX_DIST : Z;
  BAD_GW : Z;
  ip_checksum : iphdr -> Z;
  mospf_checksum : mospf_hdr -> mospf_lsu -> list mospf_lsa -> Z;
  new_rt_entry : Z -> Z -> Z -> option nat -> rt_entry_t;
  lsa_behind : list mospf_lsa -> nat -> mospf_lsa
}.

(** ** Field updates *)

Definition set_iface_list (inst : ustack_t) (l : list iface_info_t) : ustack_t :=
  {| iface_list := l; area_id := area_id inst; router_id := router_id inst;
     sequence_num := sequence_num inst; lsuint := lsuint inst |}.

Definition set_sequence_num (inst : ustack_t) (n : Z) : ustack_t :=
  {| iface_list := iface_list inst; area_id := area_id inst;
     router_id := router_id inst; sequence_num := n; lsuint := lsuint inst |}.

Definition set_instance (s : mospf_state) (inst : ustack_t) : mospf_state :=
  {| mospf_instance := inst; mospf_nbr_changed := mospf_nbr_changed s;
     mospf_db := mospf_db s; mospf_rtable := mospf_rtable s |}.

Definition set_nbr_changed (s : mospf_state) (v : Z) : mospf_state :=
  {| mospf_instance := mospf_instance s; mospf_nbr_changed := v;
     mospf_db := mospf_db s; mospf_rtable := mospf_rtable s |}.

Definition set_db (s : mospf_state) (db : list mospf_db_entry_t) : mospf_state :=
  {| mospf_instance := mospf_instance s; mospf_nbr_changed := mospf_nbr_changed s;
     mospf_db := db; mospf_rtable := mospf_rtable s |}.

Definition set_rtable (s : mospf_state) (rt : list rt_entry_t) : mospf_state :=
  {| mospf_instance := mospf_instance s; mospf_nbr_changed := mospf_nbr_changed s;
     mospf_db := mospf_db s; mospf_rtable := rt |}.

Definition set_alive (nbr : mospf_nbr_t) (v : Z) : mospf_nbr_t :=
  {| nbr_id := nbr_id nbr; nbr_ip := nbr_ip nbr; nbr_mask := nbr_mask nbr;
     alive := v |}.

Definition set_nbrs (iface : iface_info_t) (n : Z) (l : list mospf_nbr_t)
    : iface_info_t :=
  {| iface_ip := iface_ip iface; iface_mask := iface_mask iface;
     iface_mac := iface_mac iface; num_nbr := n; nbr_list := l |}.

Definition set_shost (eth : ether_header) (mac : mac_t) : ether_header :=
  {| ether_dhost := ether_dhost eth; ether_shost := mac;
     ether_type := ether_type eth |}.

Definition set_ip_ttl (ip : iphdr) (v : Z) : iphdr :=
  {| ip_version := ip_version ip; ip_ihl := ip_ihl ip; ip_tos := ip_tos ip;
     ip_tot_len := ip_tot_len ip; ip_id := ip_id ip;
     ip_frag_off := ip_frag_off ip; ip_ttl := v;
     ip_protocol := ip_protocol ip; ip_check := ip_check ip;
     ip_saddr := ip_saddr ip; ip_daddr := ip_daddr ip |}.

Definition set_ip_addrs (ip : iphdr) (saddr daddr : Z) : iphdr :=
  {| ip_version := ip_version ip; ip_ihl := ip_ihl ip; ip_tos := ip_tos ip;
     ip_tot_len := ip_tot_len ip; ip_id := ip_id ip;
     ip_frag_off := ip_frag_off ip; ip_ttl := ip_ttl ip;
     ip_protocol := ip_protocol ip; ip_check := ip_check ip;
     ip_saddr := saddr; ip_daddr := daddr |}.

Definition set_ip_check (ip : iphdr) (v : Z) : iphdr :=
  {| ip_version := ip_version ip; ip_ihl := ip_ihl ip; ip_tos := ip_tos ip;
     ip_tot_len := ip_tot_len ip; ip_id := ip_id ip;
     ip_frag_off := ip_frag_off ip; ip_ttl := ip_ttl ip;
     ip_protocol := ip_protocol ip; ip_check := v;
     ip_saddr := ip_saddr ip; ip_daddr := ip_daddr ip |}.

Definition set_mospf_check (hdr : mospf_hdr) (v : Z) : mospf_hdr :=
  {| mospf_version := mospf_version hdr; mospf_type := mospf_type hdr;
     mospf_len := mospf_len hdr; mospf_rid := mospf_rid hdr;
     mospf_aid := mospf_aid hdr; mospf_check := v;
     mospf_padding := mospf_padding hdr |}.

Definition set_lsu_ttl (lsu : mospf_lsu) (v : Z) : mospf_lsu :=
  {| lsu_seq := lsu_seq lsu; lsu_ttl := v; lsu_unused := lsu_unused lsu;
     lsu_nadv := lsu_nadv lsu |}.

Definition set_rt_dist (rt : rt_entry_t) (v : Z) : rt_entry_t :=
  {| rt_dest := rt_dest rt; rt_mask := rt_mask rt; rt_gw := rt_gw rt;
     rt_iface := rt_iface rt; rt_dist := v |}.

(** The LSAs in wire order and back. *)
Definition lsa_to_host (lsa : mospf_lsa) : mospf_lsa :=
  {| lsa_subnet := ntohl (lsa_subnet lsa); lsa_mask := ntohl (lsa_mask lsa);
     lsa_rid := ntohl (lsa_rid lsa) |}.

Definition lsa_to_net (lsa : mospf_lsa) : mospf_lsa :=
  {| lsa_subnet := htonl (lsa_subnet lsa); lsa_mask := htonl (lsa_mask lsa);
     lsa_rid := htonl (lsa_rid lsa) |}.

(** The loops over LSAs take their bound from a count, the field [nadv] of
    the packet or of the LSDB entry, and never from the size of the buffer
    they walk: no line of the daemon compares [nadv] with [len] or with the
    size of an array.  [lsa_cells n cells] is what such a loop reads in [n]
    rounds from a buffer that holds [cells]: cell number [i] of the buffer
    while there is one, and past the end the memory that lies behind the
    buffer. *)
Definition lsa_cells `{MospfEnv} (n : nat) (cells : list mospf_lsa)
    : list mospf_lsa :=
  map (fun i => default (lsa_behind cells (i - length cells)) (cells !! i))
      (seq 0 n).

(** The cells [array[0] .. array[nadv - 1]] of an entry, which the loops
    over an entry read (lines 507-508, 523-527 and 572-575), whatever the
    array holds. *)
Definition entry_lsas `{MospfEnv} (e : mospf_db_entry_t) : list mospf_lsa :=
  lsa_cells (Z.to_nat (db_nadv e)) (db_array e).

(** The array of the entry holds the [nadv] cells the loops read. *)
Definition array_holds (e : mospf_db_entry_t) : Prop :=
  db_nadv e <= Z.of_nat (length (db_array e)).


(** ** Faults: what the C code leaves undefined *)

Inductive fault : Type :=
| OutOfBounds    (* a store outside the object *)
| NullPointer.   (* a NULL pointer dereferenced *)

Inductive outcome (A : Type) : Type :=
| Done (a : A)
| Fault (f : fault).
Arguments Done {A} a.
Arguments Fault {A} f.

Definition obind {A B : Type} (m : outcome A) (k : A -> outcome B) : outcome B :=
  match m with
  | Done a => k a
  | Fault f => Fault f
  end.

Notation "'let*' x ':=' m 'in' k" := (obind m (fun x => k))
  (at level 10, x name, m at level 100, k at level 200).

Section MospfDefs.
Context `{EtherEnv} `{MospfEnv}.

(** ** [handle_mospf_hello] *)

(** The search loop: the first neighbour whose id is [rid] gets its
    [alive] reset; [None] when the loop runs to the end. *)
Fixpoint refresh_nbr (rid : Z) (nbrs : list mospf_nbr_t)
    : option (list mospf_nbr_t) :=
  match nbrs with
  | [] => None
  | nbr :: rest =>
      if nbr_id nbr =? rid then
        Some (set_alive nbr MOSPF_NEIGHBOR_TIMEOUT :: rest)
      else
        match refresh_nbr rid rest with
        | Some rest' => Some (nbr :: rest')
        | None => None
        end
  end.

(** [handle_mospf_hello (iface, packet, len)], [iface] being interface
    number [k] of the instance. *)
Definition handle_mospf_hello (s : mospf_state) (k : nat)
    (packet : hello_packet) : mospf_state :=
  let inst := mospf_instance s in
  match iface_list inst !! k with
  | None => s
  | Some iface =>
      let rid := ntohl (mospf_rid (hello_hdr packet)) in
      match refresh_nbr rid (nbr_list iface) with
      | Some nbrs =>
          set_instance s
            (set_iface_list inst
               (<[k := set_nbrs iface (num_nbr iface) nbrs]> (iface_list inst)))
      | None =>
          let nbr := {| nbr_id := rid;
                        nbr_ip := ntohl (ip_saddr (hello_ip packet));
                        nbr_mask := ntohl (hello_mask (hello_body packet));
                        alive := MOSPF_NEIGHBOR_TIMEOUT |} in
          let iface' := set_nbrs iface (to_int (num_nbr iface + 1))
                                 (nbr_list iface ++ [nbr]) in
          set_nbr_changed
            (set_instance s
               (set_iface_list inst (<[k := iface']> (iface_list inst))))
            1
      end
  end.

(** ** [handle_mospf_lsu] *)

(** The search loop over [mospf_db]: the position of the first entry whose
    rid is [rid]. *)
Fixpoint find_db (rid : Z) (db : list mospf_db_entry_t) : option nat :=
  match db with
  | [] => None
  | e :: rest =>
      if db_rid e =? rid then Some 0%nat
      else match find_db rid rest with
           | Some n => Some (S n)
           | None => None
           end
  end.

(** The size in bytes of an LSU packet with [nadv] LSAs, as the code
    computes it (in [int]). *)
Definition lsu_packet_len (nadv : Z) : Z :=
  to_int (ETHER_HDR_SIZE + IP_BASE_HDR_SIZE + MOSPF_HDR_SIZE + MOSPF_LSU_SIZE
          + MOSPF_LSA_SIZE * nadv).

(** [memcpy (iface_packet, packet, len)] for that size: the headers and
    [nadv] cells of 12 bytes behind them, which are the first [nadv] LSAs
    of the packet when it holds that many, and otherwise its LSAs and what
    lies behind the received frame. *)
Definition copy_packet (nadv : Z) (packet : lsu_packet) : lsu_packet :=
  {| lsu_eth := lsu_eth packet; lsu_ip := lsu_ip packet;
     lsu_hdr := lsu_hdr packet; lsu_body := lsu_body packet;
     lsu_lsas := lsa_cells (Z.to_nat nadv) (lsu_lsas packet) |}.

(** The body of the inner flooding loop (lines 387-394) for one neighbour
    of interface number [n].  The clone gets the addresses and the IP
    checksum; the MAC of the interface is copied to [eth->ether_shost],
    where [eth] is the header of the received [packet].  The result is the
    received packet after that store, and the call of the send helper. *)
Definition flood_nbr (n : nat) (iface : iface_info_t) (nadv : Z)
    (packet : lsu_packet) (nbr : mospf_nbr_t) : lsu_packet * lsu_sent :=
  let iface_packet := copy_packet nadv packet in
  let ip := set_ip_addrs (lsu_ip iface_packet)
                         (htonl (iface_ip iface)) (htonl (nbr_ip nbr)) in
  let ip := set_ip_check ip (ip_checksum ip) in
  let iface_packet :=
    {| lsu_eth := lsu_eth iface_packet; lsu_ip := ip;
       lsu_hdr := lsu_hdr iface_packet; lsu_body := lsu_body iface_packet;
       lsu_lsas := lsu_lsas iface_packet |} in
  let packet :=
    {| lsu_eth := set_shost (lsu_eth packet) (iface_mac iface);
       lsu_ip := lsu_ip packet; lsu_hdr := lsu_hdr packet;
       lsu_body := lsu_body packet; lsu_lsas := lsu_lsas packet |} in
  (packet, {| sent_iface := n; sent_dst_ip := nbr_ip nbr;
              sent_packet := iface_packet;
              sent_len := lsu_packet_len nadv |}).

Fixpoint flood_nbrs (n : nat) (iface : iface_info_t) (nadv : Z)
    (packet : lsu_packet) (nbrs : list mospf_nbr_t)
    : lsu_packet * list lsu_sent :=
  match nbrs with
  | [] => (packet, [])
  | nbr :: rest =>
      let '(packet1, sent1) := flood_nbr n iface nadv packet nbr in
      let '(packet2, sent2) := flood_nbrs n iface nadv packet1 rest in
      (packet2, sent1 :: sent2)
  end.

(** The outer flooding loop, from interface number [n] on; [arrival] is the
    number of the interface the packet came in on. *)
Fixpoint flood_ifaces (arrival n : nat) (nadv : Z) (packet : lsu_packet)
    (ifaces : list iface_info_t) : lsu_packet * list lsu_sent :=
  match ifaces with
  | [] => (packet, [])
  | iface_tmp :: rest =>
      let '(packet1, sent1) :=
        if negb (n =? arrival)%nat
        then flood_nbrs n iface_tmp nadv packet (nbr_list iface_tmp)
        else (packet, []) in
      let '(packet2, sent2) := flood_ifaces arrival (S n) nadv packet1 rest in
      (packet2, sent1 ++ sent2)
  end.

(** Lines 380-382: both TTLs decremented in place, the mOSPF checksum
    recomputed. *)
Definition age_packet (packet : lsu_packet) : lsu_packet :=
  let lsu := set_lsu_ttl (lsu_body packet)
               ((lsu_ttl (lsu_body packet) - 1) mod 2 ^ LSU_TTL_WIDTH) in
  let ip := set_ip_ttl (lsu_ip packet) (to_u8 (ip_ttl (lsu_ip packet) - 1)) in
  let hdr := set_mospf_check (lsu_hdr packet)
               (mospf_checksum (lsu_hdr packet) lsu (lsu_lsas packet)) in
  {| lsu_eth := lsu_eth packet; lsu_ip := ip; lsu_hdr := hdr;
     lsu_body := lsu; lsu_lsas := lsu_lsas packet |}.

(** [handle_mospf_lsu (iface, packet, len)], [iface] being interface number
    [k].  [fresh_nadv] and [fresh_array] are what the fields [nadv] and
    [array] of a block just returned by [malloc] happen to hold.  [len] is
    not looked at: the loop of lines 365-372 decodes [ntohl (lsu->nadv)]
    cells, the LSAs of the frame and, when the frame announces more than it
    carries, the cells behind it. *)
Definition handle_mospf_lsu (s : mospf_state) (k : nat) (packet : lsu_packet)
    (fresh_nadv : Z) (fresh_array : list mospf_lsa)
    : mospf_state * list lsu_sent :=
  let rid := ntohl (mospf_rid (lsu_hdr packet)) in
  let '(db, pos) :=
    match find_db rid (mospf_db s) with
    | Some pos => (mospf_db s, pos)
    | None =>
        (mospf_db s ++ [{| db_rid := rid; db_seq := 0;
                           db_nadv := fresh_nadv; db_array := fresh_array |}],
         length (mospf_db s))
    end in
  match db !! pos with
  | None => (s, [])
  | Some e =>
      let seq := ntohs (lsu_seq (lsu_body packet)) in
      if db_seq e <? seq then
        let nadv := to_int (ntohl (lsu_nadv (lsu_body packet))) in
        let e' := {| db_rid := db_rid e; db_seq := seq; db_nadv := nadv;
                     db_array := map lsa_to_host
                                   (lsa_cells (Z.to_nat nadv) (lsu_lsas packet)) |} in
        let s' := set_db s (<[pos := e']> db) in
        let packet := age_packet packet in
        (s', snd (flood_ifaces k 0 nadv packet (iface_list (mospf_instance s))))
      else
        (set_db s db, [])
  end.

(** ** [generate_rt] and its helpers *)

(** The position of the first element that satisfies [f]. *)
Fixpoint find_index {A : Type} (f : A -> bool) (l : list A) : option nat :=
  match l with
  | [] => None
  | x :: rest =>
      if f x then Some 0%nat
      else match find_index f rest with
           | Some n => Some (S n)
           | None => None
           end
  end.

Definition gw_to_iface (ifaces : list iface_info_t) (gw : Z) : option nat :=
  find_index (fun iface => existsb (fun nbr => nbr_id nbr =? gw) (nbr_list iface))
             ifaces.

Definition subnet_to_iface (ifaces : list iface_info_t) (subnet : Z) : option nat :=
  find_index (fun iface => Z.land (iface_ip iface) (iface_mask iface) =? subnet)
             ifaces.

(** Modelled from the spec: [clear_rtable] and [init_rtable] of rtable.c,
    which the spec lists among the host-provided interfaces and describes
    as "clear and re-init the routing table": the first removes every row,
    the second initialises the list head. *)
Definition clear_rtable (rt : list rt_entry_t) : list rt_entry_t := [].

Definition init_rtable (rt : list rt_entry_t) : list rt_entry_t := [].

(** Modelled from the spec: [add_rt_entry] of rtable.c inserts the row;
    rows are kept in insertion order. *)
Definition add_rt_entry (entry : rt_entry_t) (rt : list rt_entry_t)
    : list rt_entry_t := rt ++ [entry].

(** Lines 475-481: the loop has no [break], so the last entry whose rid is
    the router's own is kept. *)
Definition find_self_db (rid : Z) (db : list mospf_db_entry_t)
    : option mospf_db_entry_t :=
  fold_left (fun self_db e => if db_rid e =? rid then Some e else self_db) db None.

(** Lines 495-514 for one LSDB entry. *)
Definition init_dist_entry (rid : Z) (self_db e : mospf_db_entry_t) : dist_entry :=
  if db_rid e =? rid then
    {| dist_rid := db_rid e; dist_visited := 1; dist_dist := 0; dist_gw := 0 |}
  else if existsb (fun lsa => db_rid e =? lsa_rid lsa) (entry_lsas self_db) then
    {| dist_rid := db_rid e; dist_visited := 0; dist_dist := 1;
       dist_gw := db_rid e |}
  else
    {| dist_rid := db_rid e; dist_visited := 0; dist_dist := MAX_DIST;
       dist_gw := BAD_GW |}.

(** Lines 525-532: the value of [j] after the search for [rid]; it is the
    number of entries when no entry has that rid. *)
Fixpoint db_index (rid : Z) (db : list mospf_db_entry_t) : nat :=
  match db with
  | [] => 0%nat
  | db1 :: rest => if rid =? db_rid db1 then 0%nat else S (db_index rid rest)
  end.

(** The index pairs [(k, j)] of the stores [graph[k][j] = 1] of lines
    521-536, in order, entries numbered from [k] on. *)
Fixpoint graph_writes_from (all : list mospf_db_entry_t) (k : nat)
    (db : list mospf_db_entry_t) : list (nat * nat) :=
  match db with
  | [] => []
  | e :: rest =>
      map (fun lsa => (k, db_index (lsa_rid lsa) all)) (entry_lsas e)
      ++ graph_writes_from all (S k) rest
  end.

Definition graph_writes (db : list mospf_db_entry_t) : list (nat * nat) :=
  graph_writes_from db 0%nat db.

(** [u32 graph[rnum][rnum]] is one block of [rnum * rnum] cells, rows one
    after the other.  The store [graph[k][j] = 1] goes to cell
    [k * rnum + j]: with [j = rnum] that is the first cell of the next row,
    or, in the last row, a cell behind the array. *)
Definition graph_store (rnum : nat) (graph : list Z) (kj : nat * nat)
    : outcome (list Z) :=
  let cell := (fst kj * rnum + snd kj)%nat in
  if (cell <? rnum * rnum)%nat then Done (<[cell := 1]> graph)
  else Fault OutOfBounds.

Fixpoint graph_stores (rnum : nat) (graph : list Z) (writes : list (nat * nat))
    : outcome (list Z) :=
  match writes with
  | [] => Done graph
  | kj :: rest =>
      let* graph1 := graph_store rnum graph kj in
      graph_stores rnum graph1 rest
  end.

Definition init_graph (db : list mospf_db_entry_t) : outcome (list Z) :=
  let rnum := length db in
  graph_stores rnum (replicate (rnum * rnum) 0) (graph_writes db).

Definition graph_get (rnum : nat) (graph : list Z) (i j : nat) : Z :=
  default 0 (graph !! (i * rnum + j)%nat).

(** Lines 545-554: the closest router not yet visited ([min_j] stays 0 when
    there is none below [MAX_DIST]). *)
Definition find_min (dist : list dist_entry) : nat :=
  snd (fold_left
         (fun (acc : Z * nat) (jd : nat * dist_entry) =>
            if (dist_visited (snd jd) =? 0) && (dist_dist (snd jd) <? fst acc)
            then (dist_dist (snd jd), fst jd) else acc)
         (imap pair dist) (MAX_DIST, 0%nat)).

Definition set_visited (d : dist_entry) : dist_entry :=
  {| dist_rid := dist_rid d; dist_visited := 1; dist_dist := dist_dist d;
     dist_gw := dist_gw d |}.

(** Lines 560-563 for one [j].  The sum of the u32 cell and the [int]
    distance is an unsigned sum, and the comparison is unsigned. *)
Definition relax (rnum : nat) (graph : list Z) (min_j : nat)
    (dist : list dist_entry) (j : nat) : list dist_entry :=
  match dist !! min_j, dist !! j with
  | Some dm, Some dj =>
      let g := graph_get rnum graph min_j j in
      let sum := to_u32 (g + dist_dist dm) in
      if negb (g =? 0) && (dist_visited dj =? 0) && (sum <? to_u32 (dist_dist dj))
      then <[j := {| dist_rid := dist_rid dj; dist_visited := dist_visited dj;
                     dist_dist := to_int sum;
                     dist_gw := if dist_gw dm =? 0 then dist_rid dm
                                else dist_gw dm |}]> dist
      else dist
  | _, _ => dist
  end.

(** One round of the main loop of lines 540-565. *)
Definition dijkstra_round (rnum : nat) (graph : list Z) (dist : list dist_entry)
    : list dist_entry :=
  let min_j := find_min dist in
  let dist := alter set_visited min_j dist in
  fold_left (relax rnum graph min_j) (seq 0 rnum) dist.

Definition dijkstra (rnum : nat) (graph : list Z) (dist : list dist_entry)
    : list dist_entry :=
  Nat.iter (rnum - 1) (dijkstra_round rnum graph) dist.

(** [(gw) ? gw_to_iface(gw) : subnet_to_iface(subnet)]. *)
Definition route_iface (ifaces : list iface_info_t) (gw subnet : Z) : option nat :=
  if gw =? 0 then subnet_to_iface ifaces subnet else gw_to_iface ifaces gw.

(** Lines 574-592: the first row for [subnet] is looked up and, when the new
    distance is smaller, rewritten; [None] when there is no such row. *)
Fixpoint update_route (ifaces : list iface_info_t) (d : dist_entry)
    (subnet : Z) (rt : list rt_entry_t) : option (list rt_entry_t) :=
  match rt with
  | [] => None
  | r :: rest =>
      if subnet =? rt_dest r then
        if dist_dist d <? rt_dist r then
          let iface := route_iface ifaces (dist_gw d) subnet in
          let mask := match iface ≫= (fun n => ifaces !! n) with
                      | Some i => iface_mask i
                      | None => rt_mask r
                      end in
          Some ({| rt_dest := rt_dest r; rt_mask := mask; rt_gw := dist_gw d;
                   rt_iface := iface; rt_dist := dist_dist d |} :: rest)
        else Some (r :: rest)
      else
        match update_route ifaces d subnet rest with
        | Some rest' => Some (r :: rest')
        | None => None
        end
  end.

(** Lines 595-609: a row for a subnet that has none yet. *)
Definition insert_route (ifaces : list iface_info_t) (d : dist_entry)
    (lsa : mospf_lsa) (rt : list rt_entry_t) : outcome (list rt_entry_t) :=
  match gw_to_iface ifaces (dist_gw d) with
  | None =>
      if negb (dist_gw d =? 0) then Done rt
      else Done (add_rt_entry
                   (new_rt_entry (lsa_subnet lsa) (lsa_mask lsa) 0
                                 (subnet_to_iface ifaces (lsa_subnet lsa)))
                   rt)
  | Some _ =>
      match route_iface ifaces (dist_gw d) (lsa_subnet lsa) with
      | None => Fault NullPointer
      | Some n =>
          match ifaces !! n with
          | None => Fault NullPointer
          | Some iface =>
              Done (add_rt_entry
                      (set_rt_dist
                         (new_rt_entry (lsa_subnet lsa) (iface_mask iface)
                                       (dist_gw d) (Some n))
                         (dist_dist d))
                      rt)
          end
      end
  end.

Definition transfer_lsa (ifaces : list iface_info_t) (d : dist_entry)
    (rt : list rt_entry_t) (lsa : mospf_lsa) : outcome (list rt_entry_t) :=
  match update_route ifaces d (lsa_subnet lsa) rt with
  | Some rt' => Done rt'
  | None => insert_route ifaces d lsa rt
  end.

Fixpoint transfer_lsas (ifaces : list iface_info_t) (d : dist_entry)
    (rt : list rt_entry_t) (lsas : list mospf_lsa) : outcome (list rt_entry_t) :=
  match lsas with
  | [] => Done rt
  | lsa :: rest =>
      let* rt1 := transfer_lsa ifaces d rt lsa in
      transfer_lsas ifaces d rt1 rest
  end.

(** Lines 571-614, entries numbered from [j] on. *)
Fixpoint transfer (ifaces : list iface_info_t) (dist : list dist_entry)
    (j : nat) (rt : list rt_entry_t) (db : list mospf_db_entry_t)
    : outcome (list rt_entry_t) :=
  match db with
  | [] => Done rt
  | e :: rest =>
      match dist !! j with
      | None => Fault OutOfBounds
      | Some d =>
          let* rt1 := transfer_lsas ifaces d rt (entry_lsas e) in
          transfer ifaces dist (S j) rt1 rest
      end
  end.

(** [generate_rt]: the new routing table, or the fault the pass runs
    into. *)
Definition generate_rt (s : mospf_state) : outcome (list rt_entry_t) :=
  let rt := init_rtable (clear_rtable (mospf_rtable s)) in
  let db := mospf_db s in
  let rid := router_id (mospf_instance s) in
  let rnum := length db in
  match find_self_db rid db with
  | None => Done rt
  | Some self_db =>
      let dist := map (init_dist_entry rid self_db) db in
      let* graph := init_graph db in
      let dist := dijkstra rnum graph dist in
      transfer (iface_list (mospf_instance s)) dist 0 rt db
  end.

End MospfDefs.

Section MospfEmit.
Context `{EtherEnv} `{MospfEnv}.

(** ** One round of [sending_mospf_lsu_thread], after the wait *)

(** Lines 223-229: the number of LSAs, from the neighbour counters. *)
Definition count_nadv (ifaces : list iface_info_t) : Z :=
  fold_left
    (fun nadv iface =>
       to_int (nadv + (if num_nbr iface =? 0 then 1 else num_nbr iface)))
    ifaces 0.

Definition nbr_lsa (nbr : mospf_nbr_t) : mospf_lsa :=
  {| lsa_subnet := Z.land (nbr_ip nbr) (nbr_mask nbr);
     lsa_mask := nbr_mask nbr;
     lsa_rid := nbr_id nbr |}.

(** Lines 234-245 for one interface: a stub LSA when the neighbour list is
    empty, else one LSA for each neighbour. *)
Definition iface_lsas (iface : iface_info_t) : list mospf_lsa :=
  match nbr_list iface with
  | [] => [{| lsa_subnet := Z.land (iface_ip iface) (iface_mask iface);
              lsa_mask := iface_mask iface;
              lsa_rid := 0 |}]
  | nbrs => map nbr_lsa nbrs
  end.

Definition build_lsa_list (ifaces : list iface_info_t) : list mospf_lsa :=
  flat_map iface_lsas ifaces.

(** Lines 249-257: the first entry of the router itself is rewritten;
    [None] when there is none. *)
Fixpoint update_self_db (rid seq nadv : Z) (array : list mospf_lsa)
    (db : list mospf_db_entry_t) : option (list mospf_db_entry_t) :=
  match db with
  | [] => None
  | e :: rest =>
      if db_rid e =? rid then
        Some ({| db_rid := db_rid e; db_seq := seq; db_nadv := nadv;
                 db_array := array |} :: rest)
      else
        match update_self_db rid seq nadv array rest with
        | Some rest' => Some (e :: rest')
        | None => None
        end
  end.

(** Lines 248-267. *)
Definition upsert_self_db (rid seq nadv : Z) (array : list mospf_lsa)
    (db : list mospf_db_entry_t) : list mospf_db_entry_t :=
  match update_self_db rid seq nadv array db with
  | Some db' => db'
  | None => db ++ [{| db_rid := rid; db_seq := seq; db_nadv := nadv;
                      db_array := array |}]
  end.

(** Lines 270-307: the packet, built in a block [fresh] just returned by
    [malloc]; [seq] is the value of [++instance->sequence_num] and [rand]
    the result of [rand ()].  The loop of lines 297-302 converts [nadv]
    cells of [lsa_list], whatever number of them the loop of lines 233-246
    has filled. *)
Definition build_lsu (inst : ustack_t) (nadv : Z) (lsa_list : list mospf_lsa)
    (seq : Z) (fresh : lsu_packet) (rand : Z) : lsu_packet :=
  let eth := {| ether_dhost := ether_dhost (lsu_eth fresh);
                ether_shost := ether_shost (lsu_eth fresh);
                ether_type := htons ETH_P_IP |} in
  let ip := {| ip_version := 4; ip_ihl := 5; ip_tos := 0;
               ip_tot_len := htons (to_u16 (IP_BASE_HDR_SIZE + MOSPF_HDR_SIZE
                                            + MOSPF_LSU_SIZE + MOSPF_LSA_SIZE * nadv));
               ip_id := to_u16 rand;
               ip_frag_off := htons IP_DF;
               ip_ttl := DEFAULT_TTL;
               ip_protocol := 90;
               ip_check := ip_check (lsu_ip fresh);
               ip_saddr := ip_saddr (lsu_ip fresh);
               ip_daddr := ip_daddr (lsu_ip fresh) |} in
  let hdr := {| mospf_version := MOSPF_VERSION;
                mospf_type := MOSPF_TYPE_LSU;
                mospf_len := htons (to_u16 (MOSPF_HDR_SIZE + MOSPF_LSU_SIZE
                                            + MOSPF_LSA_SIZE * nadv));
                mospf_rid := htonl (router_id inst);
                mospf_aid := htonl (area_id inst);
                mospf_check := mospf_check (lsu_hdr fresh);
                mospf_padding := htons 0 |} in
  let lsu := {| lsu_seq := htons seq;
                lsu_ttl := MOSPF_MAX_LSU_TTL;
                lsu_unused := 0;
                lsu_nadv := htonl (to_u32 nadv) |} in
  let lsas := map lsa_to_net (lsa_cells (Z.to_nat nadv) lsa_list) in
  {| lsu_eth := eth; lsu_ip := ip;
     lsu_hdr := set_mospf_check hdr (mospf_checksum hdr lsu lsas);
     lsu_body := lsu; lsu_lsas := lsas |}.

(** Lines 312-324 for one neighbour of interface number [n]: here the
    source MAC is stored into the clone. *)
Definition emit_nbr (n : nat) (iface : iface_info_t) (nadv : Z)
    (packet : lsu_packet) (nbr : mospf_nbr_t) : lsu_sent :=
  let ip := set_ip_addrs (lsu_ip packet)
                         (htonl (iface_ip iface)) (htonl (nbr_ip nbr)) in
  let ip := set_ip_check ip (ip_checksum ip) in
  {| sent_iface := n; sent_dst_ip := nbr_ip nbr;
     sent_packet := {| lsu_eth := set_shost (lsu_eth packet) (iface_mac iface);
                       lsu_ip := ip; lsu_hdr := lsu_hdr packet;
                       lsu_body := lsu_body packet;
                       lsu_lsas := lsu_lsas packet |};
     sent_len := lsu_packet_len nadv |}.

Fixpoint emit_ifaces (n : nat) (nadv : Z) (packet : lsu_packet)
    (ifaces : list iface_info_t) : list lsu_sent :=
  match ifaces with
  | [] => []
  | iface :: rest =>
      map (emit_nbr n iface nadv packet) (nbr_list iface)
      ++ emit_ifaces (S n) nadv packet rest
  end.

(** Lines 218-326: the state before [generate_rt] is called, and the
    packets sent. *)
Definition emit_lsu (s : mospf_state) (fresh : lsu_packet) (rand : Z)
    : mospf_state * list lsu_sent :=
  let inst := mospf_instance s in
  let nadv := count_nadv (iface_list inst) in
  let lsa_list := build_lsa_list (iface_list inst) in
  let db := upsert_self_db (router_id inst) (sequence_num inst) nadv lsa_list
                           (mospf_db s) in
  let seq := to_u16 (sequence_num inst + 1) in
  let packet := build_lsu inst nadv lsa_list seq fresh rand in
  ({| mospf_instance := set_sequence_num inst seq;
      mospf_nbr_changed := 0;
      mospf_db := db;
      mospf_rtable := mospf_rtable s |},
   emit_ifaces 0 nadv packet (iface_list inst)).

(** The whole round: the packets sent and, unless [generate_rt] runs into a
    fault, the state at the end. *)
Definition sending_mospf_lsu_round (s : mospf_state) (fresh : lsu_packet)
    (rand : Z) : list lsu_sent * outcome mospf_state :=
  let '(s1, sent) := emit_lsu s fresh rand in
  (sent, let* rt := generate_rt s1 in Done (set_rtable s1 rt)).

(** The local entry of the LSDB: the first one with the router's rid. *)
Definition self_entry (s : mospf_state) : option mospf_db_entry_t :=
  match find_db (router_id (mospf_instance s)) (mospf_db s) with
  | Some pos => mospf_db s !! pos
  | None => None
  end.

End MospfEmit.

(** ** Sample data for the mOSPF claims *)

Definition lab_rt_entry (dest mask gw : Z) (iface : option nat) : rt_entry_t :=
  {| rt_dest := dest; rt_mask := mask; rt_gw := gw; rt_iface := iface;
     rt_dist := 0 |}.

Definition lab_mospf_env : MospfEnv :=
  {| MOSPF_NEIGHBOR_TIMEOUT := 15; MOSPF_DEFAULT_LSUINT := 30;
     MOSPF_MAX_LSU_TTL := 255; MOSPF_VERSION := 2; MOSPF_TYPE_LSU := 4;
     DEFAULT_TTL := 64; ETH_P_IP := 0x0800; IP_DF := 0x4000;
     IP_BASE_HDR_SIZE := 20; MOSPF_HDR_SIZE := 16; MOSPF_LSU_SIZE := 8;
     MOSPF_LSA_SIZE := 12; LSU_TTL_WIDTH := 8;
     MAX_DIST := 2147483647; BAD_GW := 4294967295;
     ip_checksum := fun _ => 0;
     mospf_checksum := fun _ _ _ => 0;
     new_rt_entry := lab_rt_entry;
     lsa_behind := fun _ _ => {| lsa_subnet := 0; lsa_mask := 0; lsa_rid := 0 |} |}.

(** ** Reference notions for the flooding claim *)

Definition with_shost (packet : lsu_packet) (mac : mac_t) : lsu_packet :=
  {| lsu_eth := set_shost (lsu_eth packet) mac; lsu_ip := lsu_ip packet;
     lsu_hdr := lsu_hdr packet; lsu_body := lsu_body packet;
     lsu_lsas := lsu_lsas packet |}.

(** Where the flood goes: every neighbour of every interface but the one of
    arrival, interfaces numbered from [n] on. *)
Fixpoint flood_targets (arrival n : nat) (ifaces : list iface_info_t)
    : list (nat * iface_info_t * mospf_nbr_t) :=
  match ifaces with
  | [] => []
  | iface :: rest =>
      (if (n =? arrival)%nat then []
       else map (fun nbr => (n, iface, nbr)) (nbr_list iface))
      ++ flood_targets arrival (S n) rest
  end.

Section FloodSpec.
Context `{EtherEnv} `{MospfEnv}.

(** The clone of [packet] for one target, with Ethernet source [shost]:
    IP source the address of the out-interface, IP destination the address
    of the neighbour, IP checksum recomputed, all else as in [packet]. *)
Definition clone_for (nadv : Z) (packet : lsu_packet) (shost : mac_t)
    (target : nat * iface_info_t * mospf_nbr_t) : lsu_sent :=
  let '(n, iface, nbr) := target in
  let ip := set_ip_addrs (lsu_ip packet)
                         (htonl (iface_ip iface)) (htonl (nbr_ip nbr)) in
  {| sent_iface := n; sent_dst_ip := nbr_ip nbr;
     sent_packet :=
       {| lsu_eth := set_shost (lsu_eth packet) shost;
          lsu_ip := set_ip_check ip (ip_checksum ip);
          lsu_hdr := lsu_hdr packet; lsu_body := lsu_body packet;
          lsu_lsas := lsa_cells (Z.to_nat nadv) (lsu_lsas packet) |};
     sent_len := lsu_packet_len nadv |}.

(** The clones for a list of targets when the first one carries [shost] and
    each later one the MAC of the interface the one before it went out
    on. *)
Fixpoint clones (nadv : Z) (packet : lsu_packet) (shost : mac_t)
    (targets : list (nat * iface_info_t * mospf_nbr_t)) : list lsu_sent :=
  match targets with
  | [] => []
  | target :: rest =>
      clone_for nadv packet shost target
      :: clones nadv packet (iface_mac (snd (fst target))) rest
  end.

End FloodSpec.

Definition last_shost (shost : mac_t)
    (targets : list (nat * iface_info_t * mospf_nbr_t)) : mac_t :=
  fold_left (fun _ target => iface_mac (snd (fst target))) targets shost.

Definition mask24 : Z := 0xFFFFFF00.

(** A router 10.0.1.1 with two interfaces and one neighbour on each:
    10.0.1.2 (router 10.0.1.2) on interface 0 and 10.0.3.2 (router
    10.0.4.1) on interface 1. *)
Definition sample_nbr0 : mospf_nbr_t :=
  {| nbr_id := 0x0A000102; nbr_ip := 0x0A000102; nbr_mask := mask24; alive := 7 |}.

Definition sample_nbr1 : mospf_nbr_t :=
  {| nbr_id := 0x0A000401; nbr_ip := 0x0A000302; nbr_mask := mask24; alive := 9 |}.

Definition sample_iface0 : iface_info_t :=
  {| iface_ip := 0x0A000101; iface_mask := mask24;
     iface_mac := [0; 0; 0; 0; 1; 1]; num_nbr := 1; nbr_list := [sample_nbr0] |}.

Definition sample_iface1 : iface_info_t :=
  {| iface_ip := 0x0A000301; iface_mask := mask24;
     iface_mac := [0; 0; 0; 0; 3; 1]; num_nbr := 1; nbr_list := [sample_nbr1] |}.

Definition sample_instance : ustack_t :=
  {| iface_list := [sample_iface0; sample_iface1]; area_id := 0;
     router_id := 0x0A000101; sequence_num := 0; lsuint := 30 |}.

Definition sample_route : rt_entry_t :=
  {| rt_dest := 0x0A000500; rt_mask := mask24; rt_gw := 0x0A000102;
     rt_iface := Some 0%nat; rt_dist := 2 |}.

(** After start-up: nothing in the LSDB yet, one row left in the routing
    table. *)
Definition sample_router : mospf_state :=
  {| mospf_instance := sample_instance; mospf_nbr_changed := 1;
     mospf_db := []; mospf_rtable := [sample_route] |}.

Definition zero_packet : lsu_packet :=
  {| lsu_eth := {| ether_dhost := [0; 0; 0; 0; 0; 0];
                   ether_shost := [0; 0; 0; 0; 0; 0]; ether_type := 0 |};
     lsu_ip := {| ip_version := 0; ip_ihl := 0; ip_tos := 0; ip_tot_len := 0;
                  ip_id := 0; ip_frag_off := 0; ip_ttl := 0; ip_protocol := 0;
                  ip_check := 0; ip_saddr := 0; ip_daddr := 0 |};
     lsu_hdr := {| mospf_version := 0; mospf_type := 0; mospf_len := 0;
                   mospf_rid := 0; mospf_aid := 0; mospf_check := 0;
                   mospf_padding := 0 |};
     lsu_body := {| lsu_seq := 0; lsu_ttl := 0; lsu_unused := 0; lsu_nadv := 0 |};
     lsu_lsas := [] |}.

(** An LSU of router 10.0.1.2, sent from its interface 10.0.1.2 with MAC
    00:00:00:00:01:02, carrying sequence number [seq] and one LSA. *)
Definition sample_lsu (seq : Z) : lsu_packet :=
  {| lsu_eth := {| ether_dhost := [0; 0; 0; 0; 1; 1];
                   ether_shost := [0; 0; 0; 0; 1; 2];
                   ether_type := htons 0x0800 |};
     lsu_ip := {| ip_version := 4; ip_ihl := 5; ip_tos := 0;
                  ip_tot_len := htons 56; ip_id := 0;
                  ip_frag_off := htons 0x4000; ip_ttl := 64; ip_protocol := 90;
                  ip_check := 0; ip_saddr := htonl 0x0A000102;
                  ip_daddr := htonl 0x0A000101 |};
     lsu_hdr := {| mospf_version := 2; mospf_type := 4; mospf_len := htons 36;
                   mospf_rid := htonl 0x0A000102; mospf_aid := 0;
                   mospf_check := 0; mospf_padding := 0 |};
     lsu_body := {| lsu_seq := htons seq; lsu_ttl := 255; lsu_unused := 0;
                    lsu_nadv := htonl 1 |};
     lsu_lsas := [lsa_to_net {| lsa_subnet := 0x0A000100; lsa_mask := mask24;
                                lsa_rid := 0x0A000101 |}] |}.


(** The same router with an LSDB entry of sequence number 5 for router
    10.0.1.2. *)
Definition sample_router_seq5 : mospf_state :=
  {| mospf_instance := sample_instance; mospf_nbr_changed := 0;
     mospf_db := [{| db_rid := 0x0A000102; db_seq := 5; db_nadv := 0;
                     db_array := [] |}];
     mospf_rtable := [sample_route] |}.

(** A Hello of router 10.0.1.2 whose source address and mask are not the
    ones stored for that neighbour. *)
Definition sample_hello : hello_packet :=
  {| hello_eth := {| ether_dhost := [1; 0; 0x5E; 0; 0; 5];
                     ether_shost := [0; 0; 0; 0; 1; 2];
                     ether_type := htons 0x0800 |};
     hello_ip := {| ip_version := 4; ip_ihl := 5; ip_tos := 0;
                    ip_tot_len := htons 44; ip_id := 0; ip_frag_off := 0;
                    ip_ttl := 64; ip_protocol := 90; ip_check := 0;
                    ip_saddr := htonl 0x0A000109;
                    ip_daddr := htonl 0xE0000005 |};
     hello_hdr := {| mospf_version := 2; mospf_type := 1; mospf_len := htons 24;
                     mospf_rid := htonl 0x0A000102; mospf_aid := 0;
                     mospf_check := 0; mospf_padding := 0 |};
     hello_body := {| hello_mask := htonl 0xFFFF0000; hello_helloint := htons 5;
                      hello_padding := 0 |} |}.

(** An LSDB of two routers: the router itself (10.0.1.1), which advertises
    one stub network, and router 10.0.1.2, which advertises nothing. *)
Definition stub_lsa : mospf_lsa :=
  {| lsa_subnet := 0x0A000100; lsa_mask := mask24; lsa_rid := 0 |}.

Definition stub_db : list mospf_db_entry_t :=
  [{| db_rid := 0x0A000101; db_seq := 1; db_nadv := 1; db_array := [stub_lsa] |};
   {| db_rid := 0x0A000102; db_seq := 1; db_nadv := 0; db_array := [] |}].

(** A router whose LSDB has no entry of its own. *)
Definition sample_router_no_self : mospf_state :=
  {| mospf_instance := sample_instance; mospf_nbr_changed := 0;
     mospf_db := [{| db_rid := 0x0A000102; db_seq := 5; db_nadv := 0;
                     db_array := [] |}];
     mospf_rtable := [sample_route] |}.

(** * Part III: the rest of stp.c *)

(** The role [stp_port_state] reports for a port (the C function returns
    the name of the role as a string, for the log). *)
Inductive port_role : Type := ROOT | DESIGNATED | ALTERNATE.

(** [stp_port_state]: the comparison with the root port is by [port_id],
    not by address. *)
Definition stp_port_state (stp : stp_t) (p : stp_port) : port_role :=
  match stp_root_port stp ≫= (fun r => stp_ports stp !! r) with
  | Some rp =>
      if port_id p =? port_id rp then ROOT
      else if stp_port_is_designated stp p then DESIGNATED
      else ALTERNATE
  | None =>
      if stp_port_is_designated stp p then DESIGNATED else ALTERNATE
  end.

(** Modelled from the spec: [stp_start_timer] of stp_timer.c, which is not
    among the sources; the spec says that the hello callback re-arms the
    timer from now.  The timer is marked as running. *)
Definition stp_start_timer (w : stp_world) : stp_world :=
  mk_world (w_stp w) (w_root w) true.

Section StpRest.
Context `{EtherEnv} `{StpEnv}.

(** [stp_handle_hello_timeout]: the callback of the hello timer. *)
Definition stp_handle_hello_timeout (w : stp_world) : stp_world * list stp_event :=
  (stp_start_timer w, stp_send_config (w_stp w)).

(** [stp_port_handle_packet] for the port number [i]: only a message whose
    header has the type STP_TYPE_CONFIG reaches the handler; a TCN and
    anything else is logged and dropped. *)
Definition stp_port_handle_packet (w : stp_world) (i : nat) (msg : stp_config)
    : stp_world * list stp_event :=
  if config_msg_type msg =? STP_TYPE_CONFIG
  then stp_handle_config_packet w i msg
  else (w, []).

(** What happens to a bridge: a message arrives on a port, or the hello
    timer expires. *)
Inductive stp_input : Type :=
| Receive (port : nat) (msg : stp_config)
| HelloTimeout.

Definition stp_step (w : stp_world) (input : stp_input)
    : stp_world * list stp_event :=
  match input with
  | Receive i msg => stp_port_handle_packet w i msg
  | HelloTimeout => stp_handle_hello_timeout w
  end.

(** The inputs are handled one after the other, under the bridge lock. *)
Fixpoint stp_steps (w : stp_world) (inputs : list stp_input)
    : stp_world * list stp_event :=
  match inputs with
  | [] => (w, [])
  | input :: rest =>
      let '(w1, out1) := stp_step w input in
      let '(w2, out2) := stp_steps w1 rest in
      (w2, out1 ++ out2)
  end.

End StpRest.

(** The value of a MAC address read as a big-endian number. *)
Definition mac_value (mac : mac_t) : Z :=
  fold_left (fun acc b => acc * 2 ^ 8 + b) mac 0.

(** Six bytes. *)
Definition mac_ok (mac : mac_t) : Prop :=
  length mac = 6%nat /\ Forall (fun b => 0 <= b < 2 ^ 8) mac.

(** The fields of a bridge and of a port fit their C types. *)
Definition stp_in_range (stp : stp_t) : Prop :=
  0 <= stp_switch_id stp < 2 ^ 64 /\
  0 <= stp_designated_root stp < 2 ^ 64 /\
  0 <= stp_root_path_cost stp < 2 ^ 32.

(** What is fixed when a port is set up: its id, its cost and its MAC. *)
Definition port_static (p : stp_port) : Z * Z * mac_t :=
  (port_id p, path_cost p, port_mac p).

(** [root_port], when it is not NULL, points to a port of the bridge. *)
Definition root_port_valid (stp : stp_t) : Prop :=
  forall r, stp_root_port stp = Some r -> (r < length (stp_ports stp))%nat.

Section StpFrameSpec.
Context `{StpEnv}.

(** Frame [f], sent on port number [j], is a config BPDU of the bridge
    [stp] itself: it goes to the STP multicast address with the MAC of
    port [j] as source, with the length of LLC header and message as
    Ethernet type and the three LLC bytes, and the message has the type
    STP_TYPE_CONFIG, flags 0, message age 0, the id of the bridge as
    [switch_id] and the id of port [j] as [port_id]. *)
Definition own_config_frame (stp : stp_t) (j : nat) (f : stp_frame) : Prop :=
  exists q,
    stp_ports stp !! j = Some q /\
    frame_dhost f = [0x01; 0x80; 0xC2; 0x00; 0x00; 0x01] /\
    frame_shost f = port_mac q /\
    frame_type f = htons (to_u16 (LLC_HDR_SIZE + STP_CONFIG_SIZE)) /\
    llc_dsap f = LLC_DSAP_SNAP /\ llc_ssap f = LLC_SSAP_SNAP /\
    llc_cntl f = LLC_CNTL_SNAP /\
    config_msg_type (frame_msg f) = STP_TYPE_CONFIG /\
    config_flags (frame_msg f) = 0 /\
    config_msg_age (frame_msg f) = htons 0 /\
    config_switch_id (frame_msg f) = htonll (stp_switch_id stp) /\
    config_port_id (frame_msg f) = htons (port_id q).

(** Two states of one bridge: the same id, and ports with the same ids,
    path costs and MAC addresses. *)
Definition same_bridge (stp' stp : stp_t) : Prop :=
  stp_switch_id stp' = stp_switch_id stp /\
  map port_static (stp_ports stp') = map port_static (stp_ports stp).

End StpFrameSpec.

(** * Part IV: the rest of mospf_daemon.c *)

(** Further constants of the mOSPF headers, the width of the field [alive]
    of [mospf_nbr_t], and [mospf_checksum] as it is applied to a Hello
    message; none of them is in the sources at hand. *)
Class HelloEnv : Type := {
  MOSPF_DEFAULT_HELLOINT : Z;
  MOSPF_TYPE_HELLO : Z;
  MOSPF_HELLO_SIZE : Z;
  ALIVE_WIDTH : Z;
  hello_checksum : mospf_hdr -> mospf_hello -> Z
}.

(** One call of [iface_send_packet (iface, packet, len)] with a Hello. *)
Record hello_sent : Type := mk_hello_sent {
  hsent_iface : nat;
  hsent_packet : hello_packet;
  hsent_len : Z
}.

Section MospfRest.
Context `{EtherEnv} `{MospfEnv} `{HelloEnv}.

(** ** [mospf_init] *)

(** Modelled from the spec: [init_mospf_db] of mospf_database.c, which is
    not among the sources, initialises the list head of the LSDB: the
    database is empty. *)
Definition init_mospf_db : list mospf_db_entry_t := [].

(** [mospf_init] on a non-empty interface list: the router id is the
    address of the first interface, every neighbour list is initialised
    (the counters [num_nbr] are not touched), the LSDB is empty.  The
    field [helloint] of an interface, which the daemon writes here and
    never reads, is not in the record. *)
Definition mospf_init (first : iface_info_t) (others : list iface_info_t)
    (rt : list rt_entry_t) : mospf_state :=
  {| mospf_instance :=
       {| iface_list := map (fun iface => set_nbrs iface (num_nbr iface) [])
                            (first :: others);
          area_id := 0;
          router_id := iface_ip first;
          sequence_num := 0;
          lsuint := MOSPF_DEFAULT_LSUINT |};
     mospf_nbr_changed := 0;
     mospf_db := init_mospf_db;
     mospf_rtable := rt |}.

(** ** One round of [checking_nbr_thread] *)

(** [--nbr->alive]. *)
Definition age_nbr (nbr : mospf_nbr_t) : mospf_nbr_t :=
  set_alive nbr ((alive nbr - 1) mod 2 ^ ALIVE_WIDTH).

(** What the ageing thread leaves of a neighbour after one round: nothing
    when its [alive] has reached 0, else the neighbour one second older. *)
Definition aged (nbr : mospf_nbr_t) : option mospf_nbr_t :=
  if alive (age_nbr nbr) =? 0 then None else Some (age_nbr nbr).

(** The inner loop for one interface: [num_nbr] and [nbr_changed] are
    threaded through the neighbour list; a neighbour whose [alive] reaches
    0 is unlinked. *)
Fixpoint age_nbrs (num changed : Z) (nbrs : list mospf_nbr_t)
    : Z * Z * list mospf_nbr_t :=
  match nbrs with
  | [] => (num, changed, [])
  | nbr :: rest =>
      if alive (age_nbr nbr) =? 0 then
        age_nbrs (to_int (num - 1)) 1 rest
      else
        let '(num', changed', rest') := age_nbrs num changed rest in
        (num', changed', age_nbr nbr :: rest')
  end.

(** The outer loop. *)
Fixpoint age_ifaces (changed : Z) (ifaces : list iface_info_t)
    : Z * list iface_info_t :=
  match ifaces with
  | [] => (changed, [])
  | iface :: rest =>
      let '(num, changed1, nbrs) :=
        age_nbrs (num_nbr iface) changed (nbr_list iface) in
      let '(changed2, rest') := age_ifaces changed1 rest in
      (changed2, set_nbrs iface num nbrs :: rest')
  end.

Definition checking_nbr_round (s : mospf_state) : mospf_state :=
  let '(changed, ifaces) :=
    age_ifaces (mospf_nbr_changed s) (iface_list (mospf_instance s)) in
  set_nbr_changed (set_instance s (set_iface_list (mospf_instance s) ifaces))
                  changed.

(** ** One round of [sending_mospf_hello_thread] *)

Definition hello_len : Z :=
  ETHER_HDR_SIZE + IP_BASE_HDR_SIZE + MOSPF_HDR_SIZE + MOSPF_HELLO_SIZE.

(** Lines 66-99: the template, built in a block [fresh] just returned by
    [malloc]. *)
Definition hello_template (inst : ustack_t) (fresh : hello_packet) : hello_packet :=
  {| hello_eth := {| ether_dhost := [0x01; 0x00; 0x5E; 0x00; 0x00; 0x05];
                     ether_shost := ether_shost (hello_eth fresh);
                     ether_type := htons ETH_P_IP |};
     hello_ip := {| ip_version := 4; ip_ihl := 5; ip_tos := 0;
                    ip_tot_len := htons (to_u16 (IP_BASE_HDR_SIZE + MOSPF_HDR_SIZE
                                                 + MOSPF_HELLO_SIZE));
                    ip_id := htons 0;
                    ip_frag_off := 0;
                    ip_ttl := DEFAULT_TTL;
                    ip_protocol := 90;
                    ip_check := ip_check (hello_ip fresh);
                    ip_saddr := ip_saddr (hello_ip fresh);
                    ip_daddr := htonl 0xE0000005 |};
     hello_hdr := {| mospf_version := MOSPF_VERSION;
                     mospf_type := MOSPF_TYPE_HELLO;
                     mospf_len := htons (to_u16 (MOSPF_HDR_SIZE + MOSPF_HELLO_SIZE));
                     mospf_rid := htonl (router_id inst);
                     mospf_aid := htonl (area_id inst);
                     mospf_check := mospf_check (hello_hdr fresh);
                     mospf_padding := htons 0 |};
     hello_body := {| hello_mask := hello_mask (hello_body fresh);
                      hello_helloint := htons MOSPF_DEFAULT_HELLOINT;
                      hello_padding := htons 0 |} |}.

(** Lines 102-113 for interface number [n]: the copy of the template that
    goes out on it. *)
Definition hello_for (n : nat) (iface : iface_info_t) (packet : hello_packet)
    : hello_sent :=
  let hello := {| hello_mask := htonl (iface_mask iface);
                  hello_helloint := hello_helloint (hello_body packet);
                  hello_padding := hello_padding (hello_body packet) |} in
  let hdr := set_mospf_check (hello_hdr packet)
                             (hello_checksum (hello_hdr packet) hello) in
  let ip := set_ip_addrs (hello_ip packet) (htonl (iface_ip iface))
                         (ip_daddr (hello_ip packet)) in
  let ip := set_ip_check ip (ip_checksum ip) in
  {| hsent_iface := n;
     hsent_packet := {| hello_eth := set_shost (hello_eth packet) (iface_mac iface);
                        hello_ip := ip; hello_hdr := hdr; hello_body := hello |};
     hsent_len := hello_len |}.

(** The packets of one round (the routing table printed every fourth round
    is left out). *)
Definition sending_mospf_hello_round (s : mospf_state) (fresh : hello_packet)
    : list hello_sent :=
  imap (fun n iface => hello_for n iface (hello_template (mospf_instance s) fresh))
       (iface_list (mospf_instance s)).

End MospfRest.

(** ** Well-formed states *)

(** The counter of an interface is the length of its neighbour list (as an
    [int]), and no two neighbours of it have the same id. *)
Definition iface_wf (iface : iface_info_t) : Prop :=
  num_nbr iface = to_int (Z.of_nat (length (nbr_list iface))) /\
  NoDup (map nbr_id (nbr_list iface)).

(** The LSDB has at most one entry for a router. *)
Definition db_wf (db : list mospf_db_entry_t) : Prop := NoDup (map db_rid db).

(** The interface has a neighbour with the id [rid]. *)
Definition has_nbr (rid : Z) (iface : iface_info_t) : Prop :=
  exists nbr, In nbr (nbr_list iface) /\ nbr_id nbr = rid.

(** The fields of a neighbour, of an interface and of an LSA fit in 32
    bits. *)
Definition u32_ok (z : Z) : Prop := 0 <= z < 2 ^ 32.

Definition nbr_in_range (nbr : mospf_nbr_t) : Prop :=
  u32_ok (nbr_id nbr) /\ u32_ok (nbr_ip nbr) /\ u32_ok (nbr_mask nbr).

Definition iface_in_range (iface : iface_info_t) : Prop :=
  u32_ok (iface_ip iface) /\ u32_ok (iface_mask iface) /\
  Forall nbr_in_range (nbr_list iface).

Definition lsa_in_range (lsa : mospf_lsa) : Prop :=
  u32_ok (lsa_subnet lsa) /\ u32_ok (lsa_mask lsa) /\ u32_ok (lsa_rid lsa).

(** The number of neighbours over all interfaces. *)
Definition total_nbrs (ifaces : list iface_info_t) : nat :=
  length (flat_map nbr_list ifaces).

(** What happens to the neighbour tables: a Hello arrives on an interface,
    or a second passes. *)
Inductive nbr_input : Type :=
| GotHello (k : nat) (packet : hello_packet)
| SecondPassed.

Section NbrSteps.
Context `{MospfEnv} `{HelloEnv}.

Definition nbr_step (s : mospf_state) (input : nbr_input) : mospf_state :=
  match input with
  | GotHello k packet => handle_mospf_hello s k packet
  | SecondPassed => checking_nbr_round s
  end.

Definition nbr_steps (s : mospf_state) (inputs : list nbr_input) : mospf_state :=
  fold_left nbr_step inputs s.

End NbrSteps.

(** The sequence number [handle_mospf_lsu] compares an LSU of router
    [rid] with: the one of the LSDB entry of that router, or 0, the
    one of the entry the handler inserts when there is none. *)
Definition stored_seq (s : mospf_state) (rid : Z) : Z :=
  match find_db rid (mospf_db s) with
  | Some pos => default 0 (db_seq <$> mospf_db s !! pos)
  | None => 0
  end.

(** The LSDB entry of router [rid], if there is one. *)
Definition db_entry_of (rid : Z) (db : list mospf_db_entry_t)
    : option mospf_db_entry_t :=
  find_db rid db ≫= (fun pos => db !! pos).

(** The counter [num_nbr] of the interface is the number of its
    neighbours. *)
Definition iface_counted (iface : iface_info_t) : Prop :=
  num_nbr iface = Z.of_nat (length (nbr_list iface)).

(** One of the stores [graph[k][j] = 1] of a list goes to row [i], column
    [j]. *)
Definition writes_cell (writes : list (nat * nat)) (i j : nat) : bool :=
  existsb (fun kj => (fst kj =? i)%nat && (snd kj =? j)%nat) writes.

(** Every LSA of the LSDB names a router that has an entry. *)
Definition lsas_matched `{MospfEnv} (db : list mospf_db_entry_t) : Prop :=
  forall e lsa, In e db -> In lsa (entry_lsas e) ->
                In (lsa_rid lsa) (map db_rid db).



(** The stub LSA of an interface without neighbours. *)
Definition stub_lsa_of (iface : iface_info_t) : mospf_lsa :=
  {| lsa_subnet := Z.land (iface_ip iface) (iface_mask iface);
     lsa_mask := iface_mask iface;
     lsa_rid := 0 |}.

(** ** The wait of [sending_mospf_lsu_thread] before a round

    Lines 213-217: [while (!nbr_changed && --left_interval) sleep (1)].
    [changed] holds what the loop reads in [nbr_changed] at its first
    check, at its second check and so on (the other threads write it while
    the lock is released); the result is the number of calls of
    [sleep (1)] before the round starts, or [None] when the list ends
    before the loop does. *)
Fixpoint lsu_wait (left_interval : Z) (changed : list Z) : option nat :=
  match changed with
  | [] => None
  | c :: rest =>
      if negb (c =? 0) then Some 0%nat
      else
        let left_interval := to_int (left_interval - 1) in
        if left_interval =? 0 then Some 0%nat
        else S <$> lsu_wait left_interval rest
  end.

(** [left_interval] is [MOSPF_DEFAULT_LSUINT] at the start of every wait:
    by its initialiser before the first round, by line 219 after each
    round. *)
Definition lsu_round_wait `{MospfEnv} (changed : list Z) : option nat :=
  lsu_wait MOSPF_DEFAULT_LSUINT changed.

(** * Part V: the binary prefix tree (09/ip_multi_times_edition.c) *)

(** [btn *]: a pointer to a node of the basic tree.  A node is only ever
    reached through its parent, so a pointer is [NULL] or the tree below
    it. *)
Inductive btn : Type :=
| NULL
| Node (son0 son1 : btn) (matched : Z) (prefix mask : Z).

Definition btn_init (son0 son1 : btn) (matched : Z) : btn :=
  Node son0 son1 matched 0 0.

(** The macro [leaf (root)]. *)
Definition leaf (root : btn) : bool :=
  match root with
  | Node NULL NULL _ _ _ => true
  | _ => false
  end.

(** [root->son ? root->son : btn_init (NULL, NULL, 0)]: the son after the
    statement [if (!root->son) root->son = btn_init (NULL, NULL, 0)]. *)
Definition son_or_new (son : btn) : btn :=
  match son with
  | NULL => btn_init NULL NULL 0
  | _ => son
  end.

(** [int j = ip & (1 << (32 - start))].  The shift count is the [u32]
    difference; a shift of an [int] by 32 or more is undefined ([None]).
    The shift [1 << 31], which every walk evaluates at [start = 1], does
    not fit [int] either, and ISO C leaves it undefined as well; it is
    given the value INT_MIN here, the one gcc computes. *)
Definition ip_bit (ip start : Z) : option Z :=
  let count := to_u32 (32 - start) in
  if count <? 32
  then Some (to_int (Z.land ip (to_u32 (to_int (Z.shiftl 1 count)))))
  else None.

(** [bt_add_node]; [None] when a NULL pointer is dereferenced, the shift
    count is 32 or more, or [fuel] levels do not suffice. *)
Fixpoint bt_add_node_fuel (fuel : nat) (root : btn) (ip mask start : Z)
    : option btn :=
  match root with
  | NULL => None
  | Node son0 son1 matched prefix mask0 =>
      if start <=? mask then
        match fuel with
        | O => None
        | S fuel =>
            match ip_bit ip start with
            | None => None
            | Some j =>
                if negb (j =? 0) then
                  match bt_add_node_fuel fuel (son_or_new son1) ip mask
                                         (to_u32 (start + 1)) with
                  | Some son1' => Some (Node son0 son1' matched prefix mask0)
                  | None => None
                  end
                else
                  match bt_add_node_fuel fuel (son_or_new son0) ip mask
                                         (to_u32 (start + 1)) with
                  | Some son0' => Some (Node son0' son1 matched prefix mask0)
                  | None => None
                  end
            end
        end
      else Some (Node son0 son1 1 ip mask)
  end.

(** The shift count leaves the range 0..31 at level 33, so 33 levels are
    all a call can take. *)
Definition bt_add_node (root : btn) (ip mask start : Z) : option btn :=
  bt_add_node_fuel 33 root ip mask start.

(** [bt_match], with the global [last_matched] passed in and out: the
    result is the value returned and [last_matched] after the call. *)
Fixpoint bt_match (root : btn) (ip mask start : Z) (last_matched : btn)
    : option (Z * btn) :=
  match root with
  | NULL => None
  | Node son0 son1 matched prefix mask0 =>
      let last_matched := if negb (matched =? 0) then root else last_matched in
      if start <=? mask then
        match ip_bit ip start with
        | None => None
        | Some j =>
            if negb (j =? 0) then
              match son1 with
              | NULL => Some (matched, last_matched)
              | _ => bt_match son1 ip mask (to_u32 (start + 1)) last_matched
              end
            else
              match son0 with
              | NULL => Some (matched, last_matched)
              | _ => bt_match son0 ip mask (to_u32 (start + 1)) last_matched
              end
        end
      else Some (matched, last_matched)
  end.

(** The loop of [basic_prefix_match] that builds the tree, over the
    [(ip, mask)] pairs it has read. *)
Fixpoint bt_add_all (root : btn) (entries : list (Z * Z)) : option btn :=
  match entries with
  | [] => Some root
  | (ip, mask) :: rest =>
      match bt_add_node root ip mask 1 with
      | Some root' => bt_add_all root' rest
      | None => None
      end
  end.

Definition bt_build (entries : list (Z * Z)) : option btn :=
  bt_add_all (btn_init NULL NULL 0) entries.

(** A lookup as [basic_prefix_match] does it: [last_matched = NULL], then
    [bt_match (root, ip, mask, 1)]. *)
Definition basic_match (root : btn) (ip mask : Z) : option (Z * btn) :=
  bt_match root ip mask 1 NULL.

(** [leaf_pushing]; [None] when a NULL pointer is dereferenced or [fuel]
    levels do not suffice. *)
Fixpoint leaf_pushing_fuel (fuel : nat) (root : btn) (prefix mask : Z)
    : option btn :=
  match fuel, root with
  | O, _ => None
  | _, NULL => None
  | S fuel, Node son0 son1 matched0 prefix0 mask0 =>
      let '(matched1, prefix1, mask1) :=
        if mask0 <? mask then (1, prefix, mask)
        else (matched0, prefix0, mask0) in
      if leaf root then Some (Node son0 son1 matched1 prefix1 mask1)
      else
        match leaf_pushing_fuel fuel (son_or_new son0) prefix1 mask1 with
        | None => None
        | Some son0' =>
            match leaf_pushing_fuel fuel (son_or_new son1) prefix1 mask1 with
            | None => None
            | Some son1' => Some (Node son0' son1' matched1 prefix1 mask1)
            end
        end
  end.

Fixpoint height (root : btn) : nat :=
  match root with
  | NULL => 0%nat
  | Node son0 son1 _ _ _ => S (Nat.max (height son0) (height son1))
  end.

(** The calls nest as deep as the tree is high. *)
Definition leaf_pushing (root : btn) (prefix mask : Z) : option btn :=
  leaf_pushing_fuel (height root) root prefix mask.

(** ** Reference notions for the prefix tree *)

(** Bit number [start] of an address, counted from the top, 1 to 32. *)
Definition bit_at (ip start : Z) : bool := Z.testbit ip (32 - start).

(** The [n] bits of an address from bit [start] on. *)
Fixpoint ip_path (ip start : Z) (n : nat) : list bool :=
  match n with
  | O => []
  | S n => bit_at ip start :: ip_path ip (start + 1) n
  end.

(** The bits of a prefix: the first [mask] bits of its address. *)
Definition entry_path (e : Z * Z) : list bool :=
  ip_path (fst e) 1 (Z.to_nat (snd e)).

Fixpoint is_prefix (p q : list bool) : bool :=
  match p, q with
  | [], _ => true
  | a :: p', b :: q' => Bool.eqb a b && is_prefix p' q'
  | _ :: _, [] => false
  end.

(** The prefix and the mask a pointer to a node gives. *)
Definition entry_of (p : btn) : option (Z * Z) :=
  match p with
  | NULL => None
  | Node _ _ _ prefix mask => Some (prefix, mask)
  end.

Definition matched_of (p : btn) : Z :=
  match p with
  | NULL => 0
  | Node _ _ matched _ _ => matched
  end.

(** Longest prefix match over a list of prefixes: of the prefixes that lead
    the bits [q], the longest, and of two equal ones the later. *)
Definition lpm_step (q : list bool) (best : option (Z * Z)) (e : Z * Z)
    : option (Z * Z) :=
  if is_prefix (entry_path e) q
     && match best with
        | None => true
        | Some b => snd b <=? snd e
        end
  then Some e else best.

Definition lpm (entries : list (Z * Z)) (q : list bool) : option (Z * Z) :=
  fold_left (lpm_step q) entries None.

(** The tree functions on paths of bits: the tree after [bt_add_node], the
    deepest node with [matched] set that [bt_match] passes, and the field
    [matched] of the node where it stops. *)
Fixpoint insert_path (path : list bool) (root : btn) (ip mask : Z) : btn :=
  match root with
  | NULL => NULL
  | Node son0 son1 matched0 prefix0 mask0 =>
      match path with
      | [] => Node son0 son1 1 ip mask
      | b :: rest =>
          if b
          then Node son0 (insert_path rest (son_or_new son1) ip mask)
                    matched0 prefix0 mask0
          else Node (insert_path rest (son_or_new son0) ip mask) son1
                    matched0 prefix0 mask0
      end
  end.

Fixpoint deepest (path : list bool) (root : btn) : option btn :=
  match root with
  | NULL => None
  | Node son0 son1 matched0 _ _ =>
      let here := if negb (matched0 =? 0) then Some root else None in
      match path with
      | [] => here
      | b :: rest =>
          match deepest rest (if b then son1 else son0) with
          | Some n => Some n
          | None => here
          end
      end
  end.

Fixpoint final_matched (path : list bool) (root : btn) : Z :=
  match root with
  | NULL => 0
  | Node son0 son1 matched0 _ _ =>
      match path with
      | [] => matched0
      | b :: rest =>
          match (if b then son1 else son0) with
          | NULL => matched0
          | son => final_matched rest son
          end
      end
  end.

(** A tree as [bt_add_node] builds it below depth [d]: no node is deeper
    than 32, a node without prefix has the fields [btn_init] gave it, and
    the mask of a node with a prefix is its depth. *)
Fixpoint built (d : Z) (root : btn) : Prop :=
  match root with
  | NULL => True
  | Node son0 son1 matched0 prefix0 mask0 =>
      (0 <= d /\ d <= 32) /\
      ((matched0 = 0 /\ mask0 = 0) \/ (matched0 = 1 /\ mask0 = d)) /\
      built (d + 1) son0 /\ built (d + 1) son1
  end.

(** Every node is a leaf or has both sons. *)
Fixpoint full (root : btn) : Prop :=
  match root with
  | NULL => True
  | Node son0 son1 _ _ _ =>
      (son0 = NULL <-> son1 = NULL) /\ full son0 /\ full son1
  end.

(** The prefix and the mask of the node found, if one was found. *)
Definition found (o : option btn) : option (Z * Z) :=
  match o with
  | Some n => entry_of n
  | None => None
  end.

(** * Sample data for the further properties *)

Definition lab_hello_env : HelloEnv :=
  {| MOSPF_DEFAULT_HELLOINT := 5; MOSPF_TYPE_HELLO := 1; MOSPF_HELLO_SIZE := 8;
     ALIVE_WIDTH := 8; hello_checksum := fun _ _ => 0 |}.

(** Bridge A has one port and the MAC 00:00:00:00:00:01; bridge B is
    [sample_world], with two ports and the MAC 00:00:00:00:00:02. *)
Definition mac_a : mac_t := [0; 0; 0; 0; 0; 1].
Definition mac_b : mac_t := [0; 0; 0; 0; 0; 2].
Definition mac_c : mac_t := [0; 0; 0; 0; 0; 3].

Definition sample_port_a : stp_port :=
  {| port_id := 0x8001; port_mac := mac_a; path_cost := 1;
     designated_root := 0x8000000000000001;
     designated_switch := 0x8000000000000001;
     designated_port := 0x8001; designated_cost := 0 |}.

(** A BPDU in host order that beats what [sample_port] stores. *)
Definition close_bpdu : stp_config :=
  host_bpdu 0x8000000000000001 0 0x8000000000000001 0x8001.

(** Router B, 10.0.1.2, before it has heard of anybody: one interface, no
    neighbour, nothing in the LSDB. *)
Definition sample_iface_b : iface_info_t :=
  {| iface_ip := 0x0A000102; iface_mask := mask24;
     iface_mac := [0; 0; 0; 0; 1; 2]; num_nbr := 0; nbr_list := [] |}.

Definition sample_router_b : mospf_state :=
  {| mospf_instance :=
       {| iface_list := [sample_iface_b]; area_id := 0;
          router_id := 0x0A000102; sequence_num := 0; lsuint := 30 |};
     mospf_nbr_changed := 0; mospf_db := []; mospf_rtable := [] |}.

Definition zero_hello : hello_packet :=
  {| hello_eth := lsu_eth zero_packet; hello_ip := lsu_ip zero_packet;
     hello_hdr := lsu_hdr zero_packet;
     hello_body := {| hello_mask := 0; hello_helloint := 0;
                      hello_padding := 0 |} |}.

(** The first packet of a round of the LSU emitter of [sample_router]. *)
Definition sample_emitted : lsu_sent :=
  hd (mk_sent 0 0 zero_packet 0)
     (snd (@emit_lsu lab_ether_env lab_mospf_env sample_router zero_packet 0)).

(** The LSDB of two routers that advertise each other, and router
    10.0.1.1 with that LSDB. *)
Definition linked_db : list mospf_db_entry_t :=
  [{| db_rid := 0x0A000101; db_seq := 1; db_nadv := 1;
      db_array := [{| lsa_subnet := 0x0A000100; lsa_mask := mask24;
                      lsa_rid := 0x0A000102 |}] |};
   {| db_rid := 0x0A000102; db_seq := 1; db_nadv := 1;
      db_array := [{| lsa_subnet := 0x0A000100; lsa_mask := mask24;
                      lsa_rid := 0x0A000101 |}] |}].

Definition sample_router_linked : mospf_state :=
  {| mospf_instance := sample_instance; mospf_nbr_changed := 0;
     mospf_db := linked_db; mospf_rtable := [sample_route] |}.

(** Two interfaces as they are before [mospf_init]. *)
Definition bare_iface0 : iface_info_t :=
  {| iface_ip := 0x0A000101; iface_mask := mask24;
     iface_mac := [0; 0; 0; 0; 1; 1]; num_nbr := 0; nbr_list := [] |}.

Definition bare_iface1 : iface_info_t :=
  {| iface_ip := 0x0A000301; iface_mask := mask24;
     iface_mac := [0; 0; 0; 0; 3; 1]; num_nbr := 0; nbr_list := [] |}.

(** A forwarding table: 10.0.0.0/8, 10.1.0.0/16 and 192.168.0.0/16. *)
Definition sample_table : list (Z * Z) :=
  [(0x0A000000, 8); (0x0A010000, 16); (0xC0A80000, 16)].

(** * Proofs *)

(** ** Machine arithmetic *)

Lemma to_int_small (d : Z) : - 2 ^ 31 <= d < 2 ^ 31 -> to_int d = d.
Proof.
  intros Hd. unfold to_int.
  rewrite Z.mod_small by lia. lia.
Qed.

Lemma to_int_to_u64 (d : Z) : to_int (to_u64 d) = to_int d.
Proof.
  unfold to_int, to_u64. f_equal.
  rewrite Zplus_mod, Z.mod_mod_divide, <- Zplus_mod; [reflexivity |].
  exists (2 ^ 32). reflexivity.
Qed.

Lemma to_int_to_u32 (d : Z) : to_int (to_u32 d) = to_int d.
Proof.
  unfold to_int, to_u32. f_equal.
  rewrite Zplus_mod, Z.mod_mod, <- Zplus_mod by lia. reflexivity.
Qed.

Lemma c_abs_small (d : Z) : Z.abs d < 2 ^ 28 -> c_abs d = Z.abs d.
Proof. intros Hd. unfold c_abs. apply to_int_small. lia. Qed.

Lemma signum_term_small (w d : Z) :
  0 < w <= 8 -> d <> 0 -> Z.abs d < 2 ^ 28 -> signum_term w d = w * Z.sgn d.
Proof.
  intros Hw Hd Habs. unfold signum_term.
  rewrite c_abs_small by assumption.
  rewrite to_int_small by nia.
  destruct (Z.abs_spec d) as [[Hpos Heq] | [Hneg Heq]]; rewrite Heq.
  - rewrite Z.sgn_pos by lia. rewrite Z.quot_mul by lia. lia.
  - rewrite Z.sgn_neg by lia.
    replace (w * d) with ((- w) * (- d)) by lia.
    rewrite Z.quot_mul by lia. lia.
Qed.

Lemma priority_step_small (w d priority : Z) :
  0 < w <= 8 -> Z.abs d < 2 ^ 28 -> Z.abs priority <= 16 ->
  priority_step w d priority = priority + w * Z.sgn d.
Proof.
  intros Hw Habs Hp. unfold priority_step.
  destruct (Z.eqb_spec d 0) as [-> | Hd].
  - simpl. lia.
  - rewrite signum_term_small by assumption.
    apply to_int_small. pose proof (Z.sgn_spec d). nia.
Qed.

Lemma sgn_compare (a b : Z) :
  Z.sgn (a - b) = match a ?= b with Lt => -1 | Eq => 0 | Gt => 1 end.
Proof.
  destruct (Z.compare_spec a b).
  - subst. rewrite Z.sub_diag. reflexivity.
  - apply Z.sgn_neg. lia.
  - apply Z.sgn_pos. lia.
Qed.

(** Where no difference is cut and no product overflows, the weighted sum
    [get_port_priority] computes has the weights 8, 4, 2 and 1. *)
Lemma get_port_priority_close (config : stp_config) (p : stp_port) :
  close_fields config p ->
  get_port_priority config p =
    8 * Z.sgn (config_root_id config - designated_root p)
    + 4 * Z.sgn (config_root_path_cost config - designated_cost p)
    + 2 * Z.sgn (config_switch_id config - designated_switch p)
    + Z.sgn (config_port_id config - designated_port p).
Proof.
  intros (H1 & H2 & H3 & H4). unfold get_port_priority.
  rewrite !to_int_to_u64, to_int_to_u32.
  rewrite !to_int_small by lia.
  set (d1 := config_root_id config - designated_root p) in *.
  set (d2 := config_root_path_cost config - designated_cost p) in *.
  set (d3 := config_switch_id config - designated_switch p) in *.
  set (d4 := config_port_id config - designated_port p) in *.
  pose proof (Z.sgn_spec d1). pose proof (Z.sgn_spec d2).
  pose proof (Z.sgn_spec d3). pose proof (Z.sgn_spec d4).
  rewrite (priority_step_small 8 d1) by lia.
  rewrite (priority_step_small 4 d2) by lia.
  rewrite (priority_step_small 2 d3) by lia.
  rewrite (priority_step_small 1 d4) by lia.
  lia.
Qed.

(** On such inputs the sign of the result is the lexicographic order of the
    two quadruples. *)
Lemma get_port_priority_close_sign (config : stp_config) (p : stp_port) :
  close_fields config p ->
  (0 < get_port_priority config p <-> quadruple_compare config p = Gt) /\
  (get_port_priority config p < 0 <-> quadruple_compare config p = Lt) /\
  (get_port_priority config p = 0 <-> quadruple_compare config p = Eq).
Proof.
  intros Hclose. rewrite (get_port_priority_close _ _ Hclose).
  unfold quadruple_compare. rewrite !sgn_compare.
  destruct (config_root_id config ?= designated_root p),
           (config_root_path_cost config ?= designated_cost p),
           (config_switch_id config ?= designated_switch p),
           (config_port_id config ?= designated_port p);
    simpl; (split; [| split]); split; intros; (lia || congruence).
Qed.

(** ** The STP handler *)

Section StpProofs.
Context `{EtherEnv} `{StpEnv}.

Lemma stp_port_send_packet_config (stp : stp_t) (j : nat) (q : stp_port) :
  stp_port_send_packet j q (build_config stp q) STP_CONFIG_SIZE
  = EvSend j (config_bpdu stp j q).
Proof.
  unfold stp_port_send_packet, config_bpdu.
  replace (ETHER_HDR_SIZE + LLC_HDR_SIZE + STP_CONFIG_SIZE - ETHER_HDR_SIZE)
    with (LLC_HDR_SIZE + STP_CONFIG_SIZE) by lia.
  reflexivity.
Qed.

Lemma stp_port_send_config_inv (stp : stp_t) (j : nat) (q : stp_port) :
  stp_inv stp ->
  stp_port_send_config stp j q = [EvSend j (config_bpdu stp j q)].
Proof.
  intros Hinv. unfold stp_port_send_config.
  rewrite stp_port_send_packet_config.
  destruct Hinv as [Hroot | Hport].
  - rewrite Hroot. reflexivity.
  - rewrite (bool_decide_eq_true_2 _ Hport), andb_false_r. reflexivity.
Qed.

(** The emission loop under [stp_inv], port by port. *)
Lemma stp_send_config_from_cons (stp : stp_t) (i : nat) (p : stp_port)
    (ps : list stp_port) :
  stp_inv stp ->
  stp_send_config_from stp i (p :: ps) =
    (if stp_port_is_designated stp p then [EvSend i (config_bpdu stp i p)] else [])
    ++ stp_send_config_from stp (S i) ps.
Proof.
  intros Hinv. simpl. rewrite (stp_port_send_config_inv _ _ _ Hinv). reflexivity.
Qed.

Lemma sends_app (out1 out2 : list stp_event) :
  sends (out1 ++ out2) = sends out1 ++ sends out2.
Proof. apply flat_map_app. Qed.

Lemma stp_send_config_from_In (stp : stp_t) (Hinv : stp_inv stp)
    (ps : list stp_port) (i j : nat) (f : stp_frame) :
  In (j, f) (sends (stp_send_config_from stp i ps)) <->
  exists (k : nat) (q : stp_port),
    ps !! k = Some q /\ j = (i + k)%nat /\
    stp_port_is_designated stp q = true /\ f = config_bpdu stp j q.
Proof.
  revert i. induction ps as [| p ps IH]; intros i.
  - simpl. split; [tauto |]. intros (k & q & Hk & _). discriminate.
  - rewrite (stp_send_config_from_cons _ _ _ _ Hinv), sends_app, in_app_iff, IH.
    split.
    + intros [Hhead | (k & q & Hk & -> & Hd & ->)].
      * destruct (stp_port_is_designated stp p) eqn:Hd; simpl in Hhead;
          [| tauto].
        destruct Hhead as [Heq | []]. injection Heq as <- <-.
        exists 0%nat, p. rewrite Nat.add_0_r. auto.
      * exists (S k), q. rewrite Nat.add_succ_r. auto.
    + intros (k & q & Hk & -> & Hd & ->).
      destruct k as [| k]; simpl in Hk.
      * injection Hk as ->. left. rewrite Hd, Nat.add_0_r. left. reflexivity.
      * right. exists k, q. rewrite Nat.add_succ_r. auto.
Qed.

Lemma stp_send_config_from_length (stp : stp_t) (Hinv : stp_inv stp)
    (ps : list stp_port) (i : nat) :
  length (sends (stp_send_config_from stp i ps))
  = length (List.filter (stp_port_is_designated stp) ps).
Proof.
  revert i. induction ps as [| p ps IH]; intros i; [reflexivity |].
  rewrite (stp_send_config_from_cons _ _ _ _ Hinv).
  rewrite sends_app, length_app, IH. simpl.
  destruct (stp_port_is_designated stp p); reflexivity.
Qed.

Lemma stp_send_config_from_stops (stp : stp_t) (ps : list stp_port) (i : nat) :
  timer_stops (stp_send_config_from stp i ps) = 0%nat.
Proof.
  unfold timer_stops. revert i.
  induction ps as [| p ps IH]; intros i; [reflexivity |].
  simpl. rewrite List.filter_app, length_app, IH.
  unfold stp_port_send_config.
  destruct (stp_port_is_designated stp p); [| reflexivity].
  destruct (negb _ && negb _); reflexivity.
Qed.

(** Under [stp_inv], [stp_send_config] floods. *)
Lemma stp_send_config_floods (stp : stp_t) :
  stp_inv stp -> floods stp (sends (stp_send_config stp)).
Proof.
  intros Hinv. unfold floods, stp_send_config. repeat split.
  - intros Hin. apply (stp_send_config_from_In _ Hinv) in Hin.
    destruct Hin as (k & q & Hk & -> & Hd & ->). exists q. auto.
  - intros (q & Hq & Hd & ->).
    apply (stp_send_config_from_In _ Hinv). exists j, q. auto.
  - apply (stp_send_config_from_length _ Hinv).
Qed.

(** The three branches of the handler. *)
Lemma handle_config_worse (w : stp_world) (i : nat) (p : stp_port)
    (config : stp_config) :
  stp_ports (w_stp w) !! i = Some p ->
  0 < get_port_priority (config_to_host config) p ->
  stp_handle_config_packet w i config =
    (mk_world (set_ports (w_stp w)
                 (<[i := port_reassert (w_stp w) p]> (stp_ports (w_stp w))))
              (w_root w) (w_hello_active w), []).
Proof.
  intros Hp Hprio. unfold stp_handle_config_packet. rewrite Hp.
  destruct (Z.ltb_spec 0 (get_port_priority (config_to_host config) p));
    [reflexivity | lia].
Qed.

Lemma handle_config_equal (w : stp_world) (i : nat) (p : stp_port)
    (config : stp_config) :
  stp_ports (w_stp w) !! i = Some p ->
  get_port_priority (config_to_host config) p = 0 ->
  stp_handle_config_packet w i config = (w, stp_send_config (w_stp w)).
Proof.
  intros Hp Hprio. unfold stp_handle_config_packet. rewrite Hp, Hprio.
  reflexivity.
Qed.

Lemma handle_config_better (w : stp_world) (i : nat) (p : stp_port)
    (config : stp_config) :
  stp_ports (w_stp w) !! i = Some p ->
  get_port_priority (config_to_host config) p < 0 ->
  stp_handle_config_packet w i config =
    let bpdu := config_to_host config in
    let root := if w_root w =? 1 then 0 else w_root w in
    let active := if w_root w =? 1 then false else w_hello_active w in
    let stopped := if w_root w =? 1 then [EvStopTimer] else [] in
    let stp1 := set_ports (w_stp w) (<[i := port_adopt bpdu p]> (stp_ports (w_stp w))) in
    if root_port_holds bpdu stp1 then (mk_world stp1 root active, stopped)
    else
      let stp2 := elect_root_port stp1 i bpdu (port_adopt bpdu p) in
      let stp3 := set_ports stp2 (map (port_inherit stp2 (port_id p)) (stp_ports stp2)) in
      (mk_world stp3 root active, stopped ++ stp_send_config stp3).
Proof.
  intros Hp Hprio. unfold stp_handle_config_packet. rewrite Hp.
  destruct (Z.ltb_spec 0 (get_port_priority (config_to_host config) p));
    [lia |].
  destruct (Z.eqb_spec (get_port_priority (config_to_host config) p) 0);
    [lia |].
  destruct (w_root w =? 1); reflexivity.
Qed.

(** A BPDU equal to what a port stores compares equal. *)
Lemma get_port_priority_adopt (bpdu : stp_config) (p : stp_port) :
  get_port_priority bpdu (port_adopt bpdu p) = 0.
Proof.
  unfold get_port_priority, port_adopt. simpl.
  rewrite !Z.sub_diag. reflexivity.
Qed.

(** [stp_inv] is kept by the handler, and holds after [stp_init]. *)
Lemma stp_inv_init (first : mac_t) (others : list mac_t) :
  stp_inv (w_stp (stp_init first others)).
Proof. left. unfold stp_is_root_switch. simpl. apply Z.eqb_refl. Qed.

Lemma stp_inv_handle (w : stp_world) (i : nat) (config : stp_config) :
  stp_inv (w_stp w) -> stp_inv (w_stp (fst (stp_handle_config_packet w i config))).
Proof.
  intros Hinv.
  destruct (stp_ports (w_stp w) !! i) as [p |] eqn:Hp.
  2: { unfold stp_handle_config_packet. rewrite Hp. exact Hinv. }
  destruct (Z.lt_trichotomy (get_port_priority (config_to_host config) p) 0)
    as [Hlt | [Heq | Hgt]].
  - rewrite (handle_config_better _ _ _ _ Hp Hlt). cbv zeta.
    destruct (root_port_holds _ _); simpl.
    + exact Hinv.
    + right. eexists. reflexivity.
  - rewrite (handle_config_equal _ _ _ _ Hp Heq). exact Hinv.
  - rewrite (handle_config_worse _ _ _ _ Hp). 2: lia. exact Hinv.
Qed.

(** The port ids never change. *)
Lemma port_ids_handle (w : stp_world) (i : nat) (config : stp_config) :
  map port_id (stp_ports (w_stp (fst (stp_handle_config_packet w i config))))
  = map port_id (stp_ports (w_stp w)).
Proof.
  destruct (stp_ports (w_stp w) !! i) as [p |] eqn:Hp.
  2: { unfold stp_handle_config_packet. rewrite Hp. reflexivity. }
  assert (Hins : forall p', port_id p' = port_id p ->
            map port_id (<[i := p']> (stp_ports (w_stp w)))
            = map port_id (stp_ports (w_stp w))).
  { intros p' Hid. change (map port_id) with (fmap (M := list) port_id).
    rewrite list_fmap_insert, Hid. apply list_insert_id.
    rewrite list_lookup_fmap, Hp. reflexivity. }
  destruct (Z.lt_trichotomy (get_port_priority (config_to_host config) p) 0)
    as [Hlt | [Heq | Hgt]].
  - rewrite (handle_config_better _ _ _ _ Hp Hlt). cbv zeta.
    destruct (root_port_holds _ _); simpl.
    + apply Hins. reflexivity.
    + rewrite map_map. rewrite <- (Hins (port_adopt (config_to_host config) p) eq_refl).
      apply map_ext. intros q. unfold port_inherit.
      destruct (negb _); reflexivity.
  - rewrite (handle_config_equal _ _ _ _ Hp Heq). reflexivity.
  - rewrite (handle_config_worse _ _ _ _ Hp). 2: lia. apply Hins. reflexivity.
Qed.

(** Ports with distinct ids: the port at another index has another id. *)
Lemma distinct_port_ids (ps : list stp_port) (i j : nat) (p q : stp_port) :
  NoDup (map port_id ps) ->
  ps !! i = Some p -> ps !! j = Some q -> j <> i -> port_id q <> port_id p.
Proof.
  intros Hnd Hi Hj Hne Heq. apply Hne.
  apply (NoDup_lookup (map port_id ps) j i (port_id q)); [exact Hnd | |].
  - change (map port_id) with (fmap (M := list) port_id).
    rewrite list_lookup_fmap, Hj. reflexivity.
  - change (map port_id) with (fmap (M := list) port_id).
    rewrite list_lookup_fmap, Hi, Heq. reflexivity.
Qed.

(** The first two branches of the handler, by the value of
    [get_port_priority] (which is the order of the quadruples only where
    the fields are close, see [get_port_priority_close_sign]).  A positive
    value makes the port reassert itself ([designated_switch] becomes the
    bridge's [switch_id], [designated_port] the port's own [port_id]),
    changes nothing else and sends nothing.  The value 0 changes no field
    of any port or of the bridge, and a config BPDU is emitted from every
    designated port (and from no other). *)
Theorem stp_handle_config_worse_or_equal (w w' : stp_world) (i : nat)
    (p : stp_port) (config : stp_config) (out : list stp_event) :
  stp_inv (w_stp w) ->
  stp_ports (w_stp w) !! i = Some p ->
  stp_handle_config_packet w i config = (w', out) ->
  (0 < get_port_priority (config_to_host config) p ->
     out = [] /\
     (exists p', stp_ports (w_stp w') !! i = Some p' /\
        designated_switch p' = stp_switch_id (w_stp w) /\
        designated_port p' = port_id p /\
        designated_root p' = designated_root p /\
        designated_cost p' = designated_cost p /\
        port_id p' = port_id p /\ path_cost p' = path_cost p /\
        port_mac p' = port_mac p) /\
     (forall j, j <> i -> stp_ports (w_stp w') !! j = stp_ports (w_stp w) !! j) /\
     stp_switch_id (w_stp w') = stp_switch_id (w_stp w) /\
     stp_designated_root (w_stp w') = stp_designated_root (w_stp w) /\
     stp_root_path_cost (w_stp w') = stp_root_path_cost (w_stp w) /\
     stp_root_port (w_stp w') = stp_root_port (w_stp w) /\
     w_root w' = w_root w /\ w_hello_active w' = w_hello_active w) /\
  (get_port_priority (config_to_host config) p = 0 ->
     w' = w /\ floods (w_stp w) (sends out) /\ timer_stops out = 0%nat).
Proof.
  intros Hinv Hp Hrun. split; intros Hprio.
  - rewrite (handle_config_worse _ _ _ _ Hp Hprio) in Hrun.
    injection Hrun as <- <-. simpl.
    split; [reflexivity |]. split.
    + exists (port_reassert (w_stp w) p). split.
      * apply list_lookup_insert_eq. apply (lookup_lt_Some _ _ _ Hp).
      * repeat split.
    + split; [| repeat split].
      intros j Hj. apply list_lookup_insert_ne. auto.
  - rewrite (handle_config_equal _ _ _ _ Hp Hprio) in Hrun.
    injection Hrun as <- <-.
    split; [reflexivity |]. split.
    + apply stp_send_config_floods, Hinv.
    + apply stp_send_config_from_stops.
Qed.

(** The third branch of the handler, by the value of [get_port_priority].
    A BPDU that it rates negative against what the receiving port stores
    overwrites the four designated fields of that port.  Then, if the
    bridge has a root port and the BPDU is not rated negative against what
    that port now stores, no bridge field and no other port changes and no
    frame is sent (this is the case in particular when the receiving port
    is the root port).  Otherwise the receiving port becomes root port,
    the bridge takes the root of the BPDU and the cost
    [designated_cost + path_cost] of the receiving port (an u32 sum), every
    other port takes the bridge's new root and cost, and a config BPDU is
    emitted from every designated port.  The state is one the bridge can
    reach ([stp_world_inv]). *)
Theorem stp_handle_config_better (w w' : stp_world) (i : nat)
    (p : stp_port) (config : stp_config) (out : list stp_event) :
  let stp := w_stp w in
  let stp' := w_stp w' in
  let bpdu := config_to_host config in
  let stored := <[i := port_adopt bpdu p]> (stp_ports stp) in
  let root_port_at_least_as_good :=
    exists r rp, stp_root_port stp = Some r /\ stored !! r = Some rp /\
                 0 <= get_port_priority bpdu rp in
  stp_world_inv w ->
  stp_ports stp !! i = Some p ->
  get_port_priority bpdu p < 0 ->
  stp_handle_config_packet w i config = (w', out) ->
  (exists p', stp_ports stp' !! i = Some p' /\
     designated_root p' = config_root_id bpdu /\
     designated_cost p' = config_root_path_cost bpdu /\
     designated_switch p' = config_switch_id bpdu /\
     designated_port p' = config_port_id bpdu /\
     port_id p' = port_id p /\ path_cost p' = path_cost p /\
     port_mac p' = port_mac p) /\
  stp_switch_id stp' = stp_switch_id stp /\
  (stp_root_port stp = Some i -> root_port_at_least_as_good) /\
  (root_port_at_least_as_good ->
     stp_root_port stp' = stp_root_port stp /\
     stp_designated_root stp' = stp_designated_root stp /\
     stp_root_path_cost stp' = stp_root_path_cost stp /\
     (forall j, j <> i -> stp_ports stp' !! j = stp_ports stp !! j) /\
     w_root w' = w_root w /\ w_hello_active w' = w_hello_active w /\
     out = []) /\
  (~ root_port_at_least_as_good ->
     stp_root_port stp' = Some i /\
     stp_designated_root stp' = config_root_id bpdu /\
     stp_root_path_cost stp' = to_u32 (config_root_path_cost bpdu + path_cost p) /\
     (forall j q, j <> i -> stp_ports stp !! j = Some q ->
        exists q', stp_ports stp' !! j = Some q' /\
          designated_root q' = stp_designated_root stp' /\
          designated_cost q' = stp_root_path_cost stp' /\
          designated_switch q' = designated_switch q /\
          designated_port q' = designated_port q /\
          port_id q' = port_id q /\ path_cost q' = path_cost q /\
          port_mac q' = port_mac q) /\
     floods stp' (sends out)).
Proof.
  intros stp stp' bpdu stored Hgood (_ & Hroot0 & Hnd) Hp Hprio Hrun.
  assert (Hi : (i < length (stp_ports stp))%nat) by apply (lookup_lt_Some _ _ _ Hp).
  assert (Hholds : root_port_holds bpdu (set_ports stp stored) = true <-> Hgood).
  { unfold root_port_holds, Hgood. simpl. split.
    - destruct (stp_root_port stp) as [r |]; [| discriminate].
      destruct (stored !! r) as [rp |] eqn:Hr; [| discriminate].
      intros Hle. exists r, rp.
      split; [reflexivity |]. split; [exact Hr |]. apply Z.leb_le, Hle.
    - intros (r & rp & -> & -> & Hle). apply Z.leb_le, Hle. }
  assert (Hstopped : sends (if w_root w =? 1 then [EvStopTimer] else []) = []).
  { destruct (w_root w =? 1); reflexivity. }
  rewrite (handle_config_better _ _ _ _ Hp Hprio) in Hrun. cbv zeta in Hrun.
  fold stp bpdu stored in Hrun.
  destruct (root_port_holds bpdu (set_ports stp stored)) eqn:Hrp;
    injection Hrun as Hw' Hout; subst stp'; rewrite <- Hw'; simpl.
  - (* the root port holds *)
    assert (HG : Hgood) by (apply Hholds; reflexivity).
    split.
    { exists (port_adopt bpdu p). split; [| repeat split].
      apply list_lookup_insert_eq, Hi. }
    split; [reflexivity |]. split; [auto |]. split.
    + intros _.
      assert (Hr0 : w_root w = 0).
      { destruct Hroot0 as [Hr0 | [_ Hnone]]; [exact Hr0 |].
        destruct HG as (r & _ & Hr & _). fold stp in Hnone. congruence. }
      rewrite Hr0 in Hout. simpl in Hout. rewrite Hr0. simpl.
      repeat split; auto.
      intros j Hj. apply list_lookup_insert_ne. auto.
    + intros Hno. contradiction.
  - (* the receiving port is elected *)
    assert (HG : ~ Hgood) by (rewrite <- Hholds; discriminate).
    change (map ?f ?l) with (fmap (M := list) f l).
    split.
    { exists (port_adopt bpdu p). split; [| repeat split].
      rewrite list_lookup_fmap. unfold stored.
      rewrite list_lookup_insert_eq by exact Hi. simpl.
      unfold port_inherit. simpl. rewrite Z.eqb_refl. reflexivity. }
    split; [reflexivity |]. split.
    { intros Hroot. exists i, (port_adopt bpdu p). repeat split; [exact Hroot | |].
      - apply list_lookup_insert_eq, Hi.
      - rewrite get_port_priority_adopt. lia. }
    split; [intros Hyes; contradiction |].
    intros _. repeat split.
    + intros j q Hj Hq.
      pose proof (distinct_port_ids _ _ _ _ _ Hnd Hp Hq Hj) as Hid.
      exists (port_inherit
                (elect_root_port (set_ports stp stored) i bpdu (port_adopt bpdu p))
                (port_id p) q).
      split.
      * rewrite list_lookup_fmap. unfold stored.
        rewrite list_lookup_insert_ne by auto. rewrite Hq. reflexivity.
      * unfold port_inherit.
        destruct (Z.eqb_spec (port_id q) (port_id p)); [contradiction |].
        repeat split.
    + rewrite <- Hout, sends_app, Hstopped. simpl.
      match goal with |- In _ (sends (stp_send_config ?s)) -> _ =>
        assert (Hinv : stp_inv s) by (right; eexists; reflexivity);
        apply (stp_send_config_floods s Hinv) end.
    + rewrite <- Hout, sends_app, Hstopped. simpl.
      match goal with |- _ -> In _ (sends (stp_send_config ?s)) =>
        assert (Hinv : stp_inv s) by (right; eexists; reflexivity);
        apply (stp_send_config_floods s Hinv) end.
    + rewrite <- Hout, sends_app, Hstopped. simpl.
      match goal with |- length (sends (stp_send_config ?s)) = _ =>
        assert (Hinv : stp_inv s) by (right; eexists; reflexivity);
        apply (stp_send_config_floods s Hinv) end.
Qed.

Lemma timer_stops_app (out1 out2 : list stp_event) :
  timer_stops (out1 ++ out2) = (timer_stops out1 + timer_stops out2)%nat.
Proof. unfold timer_stops. rewrite List.filter_app, length_app. reflexivity. Qed.

(** What one call does to [static int root] and to the timer. *)
Lemma handle_config_root (w : stp_world) (i : nat) (config : stp_config) :
  let stop_now := bpdu_better w i config && (w_root w =? 1) in
  w_root (fst (stp_handle_config_packet w i config))
    = (if stop_now then 0 else w_root w) /\
  timer_stops (snd (stp_handle_config_packet w i config))
    = (if stop_now then 1%nat else 0%nat).
Proof.
  unfold bpdu_better.
  destruct (stp_ports (w_stp w) !! i) as [p |] eqn:Hp.
  2: { unfold stp_handle_config_packet. rewrite Hp. split; reflexivity. }
  destruct (Z.ltb_spec (get_port_priority (config_to_host config) p) 0)
    as [Hlt | Hge]; simpl.
  - rewrite (handle_config_better _ _ _ _ Hp Hlt). cbv zeta.
    destruct (root_port_holds _ _), (w_root w =? 1);
      (split; [reflexivity |]); try reflexivity;
      cbn [snd]; rewrite timer_stops_app; unfold stp_send_config;
      rewrite stp_send_config_from_stops; reflexivity.
  - destruct (Z.eq_dec (get_port_priority (config_to_host config) p) 0)
      as [Heq | Hne].
    + rewrite (handle_config_equal _ _ _ _ Hp Heq). simpl. split;
        [reflexivity | apply stp_send_config_from_stops].
    + rewrite (handle_config_worse _ _ _ _ Hp) by lia. split; reflexivity.
Qed.

Lemma stp_run_cons (w : stp_world) (i : nat) (config : stp_config)
    (rest : list (nat * stp_config)) :
  stp_run w ((i, config) :: rest) =
    (fst (stp_run (fst (stp_handle_config_packet w i config)) rest),
     snd (stp_handle_config_packet w i config)
     ++ snd (stp_run (fst (stp_handle_config_packet w i config)) rest)).
Proof.
  simpl. destruct (stp_handle_config_packet w i config) as [w1 out1].
  simpl. destruct (stp_run w1 rest). reflexivity.
Qed.

(** Once [root] has left 1, no call stops the timer. *)
Lemma stp_run_not_root (bpdus : list (nat * stp_config)) (w : stp_world) :
  w_root w = 0 ->
  w_root (fst (stp_run w bpdus)) = 0 /\ timer_stops (snd (stp_run w bpdus)) = 0%nat.
Proof.
  revert w. induction bpdus as [| [i config] rest IH]; intros w Hroot.
  - simpl. auto.
  - rewrite stp_run_cons. simpl. rewrite timer_stops_app.
    destruct (handle_config_root w i config) as [Hr Hs].
    rewrite Hroot, andb_false_r in Hr, Hs.
    destruct (IH _ Hr) as [Hr' Hs']. rewrite Hs, Hs'. auto.
Qed.

(** While no BPDU has compared better, [root] is still 1. *)
Lemma stp_run_root (bpdus : list (nat * stp_config)) (w : stp_world) :
  w_root w = 1 ->
  w_root (fst (stp_run w bpdus)) = (if any_better w bpdus then 0 else 1) /\
  timer_stops (snd (stp_run w bpdus))
    = (if any_better w bpdus then 1%nat else 0%nat).
Proof.
  revert w. induction bpdus as [| [i config] rest IH]; intros w Hroot.
  - simpl. auto.
  - rewrite stp_run_cons. simpl. rewrite timer_stops_app.
    destruct (handle_config_root w i config) as [Hr Hs].
    rewrite Hroot, Z.eqb_refl, andb_true_r in Hr, Hs.
    destruct (bpdu_better w i config); simpl.
    + destruct (stp_run_not_root rest _ Hr) as [Hr' Hs'].
      rewrite Hs, Hs'. auto.
    + destruct (IH _ Hr) as [Hr' Hs']. rewrite Hs, Hs'. auto.
Qed.

Lemma stp_run_app (pre post : list (nat * stp_config)) (w : stp_world) :
  stp_run w (pre ++ post) =
    (fst (stp_run (fst (stp_run w pre)) post),
     snd (stp_run w pre) ++ snd (stp_run (fst (stp_run w pre)) post)).
Proof.
  revert w. induction pre as [| [i config] pre IH]; intros w.
  - simpl. destruct (stp_run w post). reflexivity.
  - rewrite <- app_comm_cons, !stp_run_cons, IH. simpl.
    rewrite app_assoc. reflexivity.
Qed.

(** From the start of the process ([root] is 1) and over any sequence of
    handled BPDUs, a call stops the hello timer exactly when
    [get_port_priority] rates its BPDU negative against the receiving port
    and did so for no earlier BPDU of the sequence; so the timer is stopped
    once if some BPDU of the sequence is rated negative, at the first such
    BPDU, and never otherwise. *)
Theorem hello_timer_stopped_once (w : stp_world)
    (bpdus : list (nat * stp_config)) :
  w_root w = 1 ->
  (forall pre i config post, bpdus = pre ++ (i, config) :: post ->
     let w_now := fst (stp_run w pre) in
     timer_stops (snd (stp_handle_config_packet w_now i config)) =
       if bpdu_better w_now i config && negb (any_better w pre)
       then 1%nat else 0%nat) /\
  timer_stops (snd (stp_run w bpdus)) = (if any_better w bpdus then 1%nat else 0%nat) /\
  (timer_stops (snd (stp_run w bpdus)) <= 1)%nat.
Proof.
  intros Hroot. split; [| split].
  - intros pre i config post _ w_now.
    destruct (handle_config_root w_now i config) as [_ Hs]. rewrite Hs.
    destruct (stp_run_root pre w Hroot) as [Hr _]. fold w_now in Hr. rewrite Hr.
    destruct (any_better w pre); reflexivity.
  - apply (stp_run_root bpdus w Hroot).
  - destruct (stp_run_root bpdus w Hroot) as [_ ->].
    destruct (any_better w bpdus); lia.
Qed.

(** ** Reachable states *)

Lemma init_port_id_low (n : nat) :
  (n < 255)%nat -> init_port_id n mod 2 ^ 8 = Z.of_nat n + 1.
Proof.
  intros Hn. unfold init_port_id, to_u16.
  rewrite Z.mod_mod_divide by (exists (2 ^ 8); reflexivity).
  rewrite <- Z.land_ones, Z.land_lor_distr_l, !Z.land_ones by lia.
  rewrite Z.shiftl_mul_pow2, Z.mod_mul by lia.
  rewrite Z.mod_small by lia. reflexivity.
Qed.

(** [stp_init] gives distinct port ids to up to 255 ports. *)
Lemma stp_init_port_ids (first : mac_t) (others : list mac_t) :
  (length others < 255)%nat ->
  NoDup (map port_id (stp_ports (w_stp (stp_init first others)))).
Proof.
  intros Hlen. apply NoDup_alt. intros i j x Hi Hj.
  change (map port_id) with (fmap (M := list) port_id) in Hi, Hj.
  unfold stp_init in Hi, Hj. cbn [w_stp stp_ports] in Hi, Hj.
  rewrite list_lookup_fmap, list_lookup_imap in Hi, Hj.
  destruct ((first :: others) !! i) as [mi |] eqn:Hmi; [| discriminate].
  destruct ((first :: others) !! j) as [mj |] eqn:Hmj; [| discriminate].
  apply lookup_lt_Some in Hmi, Hmj. simpl in Hmi, Hmj, Hi, Hj.
  injection Hi as Hi. injection Hj as Hj.
  assert (Hmod : init_port_id i mod 2 ^ 8 = init_port_id j mod 2 ^ 8)
    by congruence.
  rewrite !init_port_id_low in Hmod by lia. lia.
Qed.

Lemma stp_world_inv_init (first : mac_t) (others : list mac_t) :
  (length others < 255)%nat -> stp_world_inv (stp_init first others).
Proof.
  intros Hlen. split; [apply stp_inv_init |]. split.
  - right. split; reflexivity.
  - apply stp_init_port_ids, Hlen.
Qed.

Lemma stp_world_inv_handle (w : stp_world) (i : nat) (config : stp_config) :
  stp_world_inv w -> stp_world_inv (fst (stp_handle_config_packet w i config)).
Proof.
  intros (Hinv & Hroot & Hnd). split; [apply stp_inv_handle, Hinv |]. split.
  - destruct (stp_ports (w_stp w) !! i) as [p |] eqn:Hp.
    2: { unfold stp_handle_config_packet. rewrite Hp. exact Hroot. }
    destruct (Z.lt_trichotomy (get_port_priority (config_to_host config) p) 0)
      as [Hlt | [Heq | Hgt]].
    + rewrite (handle_config_better _ _ _ _ Hp Hlt). cbv zeta. left.
      destruct (root_port_holds _ _); simpl;
        destruct Hroot as [-> | [-> _]]; reflexivity.
    + rewrite (handle_config_equal _ _ _ _ Hp Heq). exact Hroot.
    + rewrite (handle_config_worse _ _ _ _ Hp) by lia. exact Hroot.
  - rewrite port_ids_handle. exact Hnd.
Qed.

(** Every state reached from [stp_init] by handling BPDUs satisfies the
    invariant. *)
Lemma stp_world_inv_run (bpdus : list (nat * stp_config)) (w : stp_world) :
  stp_world_inv w -> stp_world_inv (fst (stp_run w bpdus)).
Proof.
  revert w. induction bpdus as [| [i config] rest IH]; intros w Hw.
  - exact Hw.
  - rewrite stp_run_cons. simpl. apply IH, stp_world_inv_handle, Hw.
Qed.

(** The BPDU that stops the timer finds a bridge without root port and
    leaves the receiving port as root port. *)
Lemma first_better_elects (w : stp_world) (i : nat) (config : stp_config) :
  stp_world_inv w -> w_root w = 1 -> bpdu_better w i config = true ->
  stp_root_port (w_stp w) = None /\
  stp_root_port (w_stp (fst (stp_handle_config_packet w i config))) = Some i.
Proof.
  intros (_ & Hroot & _) Hr1 Hbetter.
  assert (Hnone : stp_root_port (w_stp w) = None).
  { destruct Hroot as [Hr0 | [_ Hnone]]; [lia | exact Hnone]. }
  split; [exact Hnone |].
  unfold bpdu_better in Hbetter.
  destruct (stp_ports (w_stp w) !! i) as [p |] eqn:Hp; [| discriminate].
  apply Z.ltb_lt in Hbetter.
  rewrite (handle_config_better _ _ _ _ Hp Hbetter). cbv zeta.
  unfold root_port_holds. simpl. rewrite Hnone. reflexivity.
Qed.
End StpProofs.

(** C1.  [get_port_priority] does not order the quadruples: the u64
    differences of the root and switch ids are cut to 32 bits by the
    assignment to [int tmp].  A BPDU whose root id is larger than the
    port's by 2^32 (all else equal) compares equal, and one whose root id
    is larger by 2^32 - 2 compares better (negative), although in both
    cases the quadruple of the BPDU is the greater one. *)
Theorem get_port_priority_cuts_ids :
  quadruple_compare far_root_bpdu sample_port = Gt /\
  get_port_priority far_root_bpdu sample_port = 0 /\
  quadruple_compare wrapped_root_bpdu sample_port = Gt /\
  get_port_priority wrapped_root_bpdu sample_port = -8.
Proof. repeat split. Qed.

(** C7.  What decides between the branches of the handler is the sign of
    [get_port_priority], which is not the order of the quadruples (the cut
    to [int] of C1).  On port 0 of [sample_world], [far_wire] is worse than
    what the port stores, yet it is taken for a tie: two config BPDUs are
    sent where a worse BPDU should send none.  On port 1 of
    [bettered_world], [bad_bpdu] is worse than what the port stores (and
    than what the root port stores), yet the port does not reassert itself:
    it takes the quadruple of the BPDU, becomes the root port, and the
    bridge gives up its root for the larger one. *)
Theorem worse_bpdu_floods_or_wins :
  let far := @stp_handle_config_packet lab_ether_env lab_stp_env
               sample_world 0 far_wire in
  let bad := @stp_handle_config_packet lab_ether_env lab_stp_env
               bettered_world 1 bad_bpdu in
  stp_ports (w_stp sample_world) !! 0%nat = Some sample_port /\
  quadruple_compare (config_to_host far_wire) sample_port = Gt /\
  get_port_priority (config_to_host far_wire) sample_port = 0 /\
  fst far = sample_world /\
  map fst (sends (snd far)) = [0%nat; 1%nat] /\
  stp_ports (w_stp bettered_world) !! 1%nat = Some bettered_port1 /\
  stp_ports (w_stp bettered_world) !! 0%nat = Some bettered_port0 /\
  stp_root_port (w_stp bettered_world) = Some 0%nat /\
  stp_designated_root (w_stp bettered_world) = 0x8000000000000001 /\
  quadruple_compare (config_to_host bad_bpdu) bettered_port1 = Gt /\
  quadruple_compare (config_to_host bad_bpdu) bettered_port0 = Gt /\
  get_port_priority (config_to_host bad_bpdu) bettered_port1 = -15 /\
  get_port_priority (config_to_host bad_bpdu) bettered_port0 = -10 /\
  stp_ports (w_stp (fst bad)) !! 1%nat
    = Some (port_adopt (config_to_host bad_bpdu) bettered_port1) /\
  port_adopt (config_to_host bad_bpdu) bettered_port1
    <> port_reassert (w_stp bettered_world) bettered_port1 /\
  stp_root_port (w_stp (fst bad)) = Some 1%nat /\
  stp_designated_root (w_stp (fst bad)) = 0x80000000FFFFFFFF.
Proof. repeat split. discriminate. Qed.

(** C2.  The same cut makes the handler miss better BPDUs.  On port 0 of
    [sample_world], [near_better] and [far_better] are better than what the
    port stores; the first is taken for a tie (nothing of the port or the
    bridge changes, the bridge stays root and floods its own view), the
    second for a worse BPDU (the port reasserts itself and nothing is
    sent): in neither case does the port take the quadruple of the BPDU or
    become root port.  On port 1 of [bettered_world], [rival_bpdu] is
    better than what port 1 stores and worse than what the root port
    stores, so the root port is at least as good; yet port 1 becomes the
    root port, and port 0, the root port so far, takes the cost of the
    bridge. *)
Theorem better_bpdu_missed_or_overrated :
  let near := @stp_handle_config_packet lab_ether_env lab_stp_env
                sample_world 0 near_better in
  let far := @stp_handle_config_packet lab_ether_env lab_stp_env
               sample_world 0 far_better in
  let rival := @stp_handle_config_packet lab_ether_env lab_stp_env
                 bettered_world 1 rival_bpdu in
  stp_ports (w_stp sample_world) !! 0%nat = Some sample_port /\
  stp_root_port (w_stp sample_world) = None /\
  quadruple_compare (config_to_host near_better) sample_port = Lt /\
  get_port_priority (config_to_host near_better) sample_port = 0 /\
  fst near = sample_world /\
  map fst (sends (snd near)) = [0%nat; 1%nat] /\
  quadruple_compare (config_to_host far_better) sample_port = Lt /\
  get_port_priority (config_to_host far_better) sample_port = 8 /\
  far = (sample_world, []) /\
  stp_ports (w_stp bettered_world) !! 1%nat = Some bettered_port1 /\
  stp_ports (w_stp bettered_world) !! 0%nat = Some bettered_port0 /\
  stp_root_port (w_stp bettered_world) = Some 0%nat /\
  quadruple_compare (config_to_host rival_bpdu) bettered_port1 = Lt /\
  quadruple_compare (config_to_host rival_bpdu) bettered_port0 = Gt /\
  get_port_priority (config_to_host rival_bpdu) bettered_port1 = -7 /\
  get_port_priority (config_to_host rival_bpdu) bettered_port0 = -2 /\
  stp_root_port (w_stp (fst rival)) = Some 1%nat /\
  option_map designated_cost (stp_ports (w_stp (fst rival)) !! 0%nat) = Some 1 /\
  designated_cost bettered_port0 = 0.
Proof. repeat split. Qed.

(** C8.  The call that stops the hello timer is the first one whose BPDU
    [get_port_priority] rates negative, which need not be the first better
    BPDU (the cut of C1).  From the start ([root] is 1), [near_better] on
    port 0 of [sample_world] is better than what the port stores and stops
    no timer: the bridge stays root with its timer running, and the timer
    is stopped only by the next better BPDU.  And [wrapped_wire], which is
    worse than what the port stores, stops the timer and ends the bridge's
    time as root. *)
Theorem hello_timer_misses_first_better :
  let near := @stp_handle_config_packet lab_ether_env lab_stp_env
                sample_world 0 near_better in
  let both := @stp_run lab_ether_env lab_stp_env sample_world
                [(0%nat, near_better); (0%nat, better_bpdu)] in
  let wrapped := @stp_handle_config_packet lab_ether_env lab_stp_env
                   sample_world 0 wrapped_wire in
  w_root sample_world = 1 /\
  stp_ports (w_stp sample_world) !! 0%nat = Some sample_port /\
  quadruple_compare (config_to_host near_better) sample_port = Lt /\
  timer_stops (snd near) = 0%nat /\
  w_root (fst near) = 1 /\
  w_hello_active (fst near) = true /\
  stp_is_root_switch (w_stp (fst near)) = true /\
  timer_stops (snd both) = 1%nat /\
  quadruple_compare (config_to_host wrapped_wire) sample_port = Gt /\
  get_port_priority (config_to_host wrapped_wire) sample_port = -8 /\
  timer_stops (snd wrapped) = 1%nat /\
  w_root (fst wrapped) = 0 /\
  stp_is_root_switch (w_stp (fst wrapped)) = false.
Proof. repeat split. Qed.

(** ** The mOSPF handlers *)

Section MospfProofs.
Context `{EtherEnv} `{MospfEnv}.


Lemma lsa_cells_S (n : nat) (cells : list mospf_lsa) :
  lsa_cells (S n) cells =
    lsa_cells n cells
    ++ [default (lsa_behind cells (n - length cells)) (cells !! n)].
Proof. unfold lsa_cells. rewrite seq_S, map_app. reflexivity. Qed.


(** Within the buffer the cells read are the first [n] of the buffer. *)
Lemma lsa_cells_in_buffer (n : nat) (cells : list mospf_lsa) :
  (n <= length cells)%nat -> lsa_cells n cells = firstn n cells.
Proof.
  induction n as [| n IH]; intros Hn; [reflexivity |].
  destruct (lookup_lt_is_Some_2 cells n) as [lsa Hlsa]; [lia |].
  rewrite lsa_cells_S, IH, Hlsa by lia.
  symmetry. apply take_S_r, Hlsa.
Qed.

Lemma lsa_cells_all (cells : list mospf_lsa) :
  lsa_cells (length cells) cells = cells.
Proof. rewrite lsa_cells_in_buffer by lia. apply firstn_all. Qed.

Lemma entry_lsas_held (e : mospf_db_entry_t) :
  array_holds e -> entry_lsas e = firstn (Z.to_nat (db_nadv e)) (db_array e).
Proof.
  intros He. unfold entry_lsas. apply lsa_cells_in_buffer.
  unfold array_holds in He. lia.
Qed.

(** The search loop of the Hello handler. *)
Lemma refresh_nbr_Some (rid : Z) (nbrs nbrs' : list mospf_nbr_t) :
  refresh_nbr rid nbrs = Some nbrs' ->
  exists pos nbr,
    nbrs !! pos = Some nbr /\ nbr_id nbr = rid /\
    (forall j n, (j < pos)%nat -> nbrs !! j = Some n -> nbr_id n <> rid) /\
    nbrs' = <[pos := set_alive nbr MOSPF_NEIGHBOR_TIMEOUT]> nbrs.
Proof.
  revert nbrs'. induction nbrs as [| nbr rest IH]; intros nbrs' Hr; simpl in Hr.
  - discriminate.
  - destruct (Z.eqb_spec (nbr_id nbr) rid) as [Heq | Hne].
    + injection Hr as <-. exists 0%nat, nbr. repeat split; auto.
      intros j n Hj. lia.
    + destruct (refresh_nbr rid rest) as [rest' |] eqn:Hrest; [| discriminate].
      injection Hr as <-.
      destruct (IH _ eq_refl) as (pos & n0 & Hpos & Hid & Hfirst & ->).
      exists (S pos), n0. repeat split; auto.
      intros [| j] n Hj Hn; simpl in Hn.
      * injection Hn as <-. exact Hne.
      * apply (Hfirst j n); [lia | exact Hn].
Qed.

Lemma refresh_nbr_known (rid : Z) (nbrs : list mospf_nbr_t) (known : mospf_nbr_t) :
  In known nbrs -> nbr_id known = rid -> is_Some (refresh_nbr rid nbrs).
Proof.
  induction nbrs as [| nbr rest IH]; intros Hin Hid; simpl in *; [tauto |].
  destruct (Z.eqb_spec (nbr_id nbr) rid) as [Heq | Hne]; [eauto |].
  destruct Hin as [-> | Hin]; [contradiction |].
  destruct (IH Hin Hid) as [rest' ->]. eauto.
Qed.

(** C10.  A Hello from a neighbour that interface [k] already knows (an
    entry with the rid of the packet) resets the [alive] of the first such
    entry to MOSPF_NEIGHBOR_TIMEOUT and changes nothing else: the stored
    [nbr_ip] and [nbr_mask], the other neighbours, [num_nbr], the other
    interfaces, [nbr_changed], the LSDB and the routing table are as
    before, whatever source address and mask the packet carries. *)
Theorem handle_mospf_hello_known (s : mospf_state) (k : nat)
    (iface : iface_info_t) (packet : hello_packet) (known : mospf_nbr_t) :
  let rid := ntohl (mospf_rid (hello_hdr packet)) in
  let s' := handle_mospf_hello s k packet in
  iface_list (mospf_instance s) !! k = Some iface ->
  In known (nbr_list iface) ->
  nbr_id known = rid ->
  exists pos nbr,
    nbr_list iface !! pos = Some nbr /\ nbr_id nbr = rid /\
    (forall j n, (j < pos)%nat -> nbr_list iface !! j = Some n -> nbr_id n <> rid) /\
    iface_list (mospf_instance s') !! k =
      Some {| iface_ip := iface_ip iface; iface_mask := iface_mask iface;
              iface_mac := iface_mac iface; num_nbr := num_nbr iface;
              nbr_list :=
                <[pos := {| nbr_id := nbr_id nbr; nbr_ip := nbr_ip nbr;
                            nbr_mask := nbr_mask nbr;
                            alive := MOSPF_NEIGHBOR_TIMEOUT |}]> (nbr_list iface) |} /\
    (forall j, j <> k ->
       iface_list (mospf_instance s') !! j = iface_list (mospf_instance s) !! j) /\
    area_id (mospf_instance s') = area_id (mospf_instance s) /\
    router_id (mospf_instance s') = router_id (mospf_instance s) /\
    sequence_num (mospf_instance s') = sequence_num (mospf_instance s) /\
    lsuint (mospf_instance s') = lsuint (mospf_instance s) /\
    mospf_nbr_changed s' = mospf_nbr_changed s /\
    mospf_db s' = mospf_db s /\
    mospf_rtable s' = mospf_rtable s.
Proof.
  intros rid s' Hk Hin Hid. subst s'. unfold handle_mospf_hello. rewrite Hk.
  fold rid.
  destruct (refresh_nbr_known rid _ _ Hin Hid) as [nbrs' Hr]. rewrite Hr.
  destruct (refresh_nbr_Some _ _ _ Hr) as (pos & nbr & Hpos & Hnid & Hfirst & ->).
  exists pos, nbr. simpl.
  split; [exact Hpos |]. split; [exact Hnid |]. split; [exact Hfirst |].
  split.
  { apply list_lookup_insert_eq. apply (lookup_lt_Some _ _ _ Hk). }
  split; [| repeat split].
  intros j Hj. apply list_lookup_insert_ne. auto.
Qed.

(** The search loop over the LSDB. *)
Lemma find_db_Some (rid : Z) (db : list mospf_db_entry_t) (pos : nat) :
  find_db rid db = Some pos ->
  exists e, db !! pos = Some e /\ db_rid e = rid /\
            (forall j e', (j < pos)%nat -> db !! j = Some e' -> db_rid e' <> rid).
Proof.
  revert pos. induction db as [| e rest IH]; intros pos Hf; simpl in Hf.
  - discriminate.
  - destruct (Z.eqb_spec (db_rid e) rid) as [Heq | Hne].
    + injection Hf as <-. exists e. repeat split; auto. intros j e' Hj. lia.
    + destruct (find_db rid rest) as [n |] eqn:Hrest; [| discriminate].
      injection Hf as <-. destruct (IH _ eq_refl) as (e0 & He0 & Hid & Hfirst).
      exists e0. repeat split; auto.
      intros [| j] e' Hj He'; simpl in He'.
      * injection He' as <-. exact Hne.
      * apply (Hfirst j e'); [lia | exact He'].
Qed.

Lemma find_db_None (rid : Z) (db : list mospf_db_entry_t) :
  find_db rid db = None <-> (forall e, In e db -> db_rid e <> rid).
Proof.
  induction db as [| e rest IH]; simpl.
  - split; [intros _ e [] | reflexivity].
  - destruct (Z.eqb_spec (db_rid e) rid) as [Heq | Hne].
    + split; [discriminate |]. intros Hall. destruct (Hall e); auto.
    + destruct (find_db rid rest) as [n |].
      * split; [discriminate |]. intros Hall.
        destruct IH as [_ IH']. discriminate IH'. intros e' He'. apply Hall. auto.
      * split; [| reflexivity]. intros _ e' [<- | He']; [exact Hne |].
        apply IH; auto.
Qed.

Lemma find_db_app_new (rid : Z) (db : list mospf_db_entry_t) (e : mospf_db_entry_t) :
  find_db rid db = None -> db_rid e = rid ->
  find_db rid (db ++ [e]) = Some (length db).
Proof.
  intros Hnone Hid. induction db as [| e0 rest IH]; simpl in *.
  - rewrite Hid, Z.eqb_refl. reflexivity.
  - destruct (db_rid e0 =? rid); [discriminate |].
    destruct (find_db rid rest); [discriminate |].
    rewrite IH by reflexivity. reflexivity.
Qed.


(** C9.  When no LSDB entry has the rid of the router, [generate_rt]
    returns without a fault and leaves the routing table empty, whatever
    it held before: the table is cleared before the entry is looked for,
    and no row is inserted. *)
Theorem generate_rt_no_self (s : mospf_state) :
  (forall e, In e (mospf_db s) -> db_rid e <> router_id (mospf_instance s)) ->
  generate_rt s = Done [].
Proof.
  intros Hnone. unfold generate_rt.
  assert (Hself : forall acc,
            fold_left (fun self_db e =>
                         if db_rid e =? router_id (mospf_instance s)
                         then Some e else self_db) (mospf_db s) acc = acc).
  { induction (mospf_db s) as [| e rest IH]; intros acc; [reflexivity |].
    simpl. destruct (Z.eqb_spec (db_rid e) (router_id (mospf_instance s))) as [Heq | Hne].
    - exfalso. apply (Hnone e); simpl; auto.
    - apply IH. intros e' He'. apply Hnone. simpl. auto. }
  unfold find_self_db. rewrite Hself. reflexivity.
Qed.

(** The other direction: with an entry of its own in the LSDB the pass goes
    on to the SPF computation. *)
Lemma find_self_db_Some (rid : Z) (db : list mospf_db_entry_t) (e : mospf_db_entry_t) :
  In e db -> db_rid e = rid -> is_Some (find_self_db rid db).
Proof.
  intros Hin Hid. unfold find_self_db.
  assert (Hfold : forall l acc, (is_Some acc \/ In e l) ->
            is_Some (fold_left (fun self_db e0 =>
                                  if db_rid e0 =? rid then Some e0 else self_db) l acc)).
  { induction l as [| e0 rest IH]; intros acc Hacc; simpl.
    - destruct Hacc as [Hacc | []]. exact Hacc.
    - apply IH. destruct Hacc as [Hacc | [-> | Hrest]].
      + left. destruct (db_rid e0 =? rid); [eauto | exact Hacc].
      + left. rewrite Hid, Z.eqb_refl. eauto.
      + right. exact Hrest. }
  apply Hfold. right. exact Hin.
Qed.

(** The flooding loops.  Only [ether_shost] of the received packet changes
    while they run, and each clone is taken before the store. *)
Lemma flood_nbrs_clones (n : nat) (iface : iface_info_t) (nadv : Z)
    (base : lsu_packet) (nbrs : list mospf_nbr_t) (shost : mac_t) :
  let targets := map (fun nbr => (n, iface, nbr)) nbrs in
  flood_nbrs n iface nadv (with_shost base shost) nbrs =
    (with_shost base (last_shost shost targets), clones nadv base shost targets).
Proof.
  revert shost. induction nbrs as [| nbr rest IH]; intros shost; [reflexivity |].
  simpl. unfold flood_nbr, with_shost at 1. simpl.
  change {| lsu_eth := set_shost (set_shost (lsu_eth base) shost) (iface_mac iface);
            lsu_ip := lsu_ip base; lsu_hdr := lsu_hdr base;
            lsu_body := lsu_body base; lsu_lsas := lsu_lsas base |}
    with (with_shost base (iface_mac iface)).
  rewrite IH. reflexivity.
Qed.

Lemma last_shost_app (shost : mac_t)
    (t1 t2 : list (nat * iface_info_t * mospf_nbr_t)) :
  last_shost shost (t1 ++ t2) = last_shost (last_shost shost t1) t2.
Proof. apply fold_left_app. Qed.

Lemma clones_app (nadv : Z) (base : lsu_packet) (shost : mac_t)
    (t1 t2 : list (nat * iface_info_t * mospf_nbr_t)) :
  clones nadv base shost (t1 ++ t2) =
    clones nadv base shost t1 ++ clones nadv base (last_shost shost t1) t2.
Proof.
  revert shost. induction t1 as [| t rest IH]; intros shost; [reflexivity |].
  simpl. rewrite IH. reflexivity.
Qed.

Lemma flood_ifaces_clones (arrival n : nat) (nadv : Z) (base : lsu_packet)
    (ifaces : list iface_info_t) (shost : mac_t) :
  let targets := flood_targets arrival n ifaces in
  flood_ifaces arrival n nadv (with_shost base shost) ifaces =
    (with_shost base (last_shost shost targets), clones nadv base shost targets).
Proof.
  revert n shost. induction ifaces as [| iface rest IH]; intros n shost;
    [reflexivity |].
  simpl. destruct (Nat.eqb_spec n arrival) as [Heq | Hne]; simpl.
  - rewrite IH. reflexivity.
  - rewrite flood_nbrs_clones, IH, clones_app, last_shost_app. reflexivity.
Qed.

Lemma with_shost_same (packet : lsu_packet) :
  with_shost packet (ether_shost (lsu_eth packet)) = packet.
Proof. destruct packet as [[dhost shost type] ip hdr body lsas]. reflexivity. Qed.

(** What an accepted LSU sets off: the clones for all neighbours on the
    other interfaces, the first with the Ethernet source of the received
    packet, each later one with the MAC of the interface of the clone
    before it. *)
Lemma handle_mospf_lsu_flood (s : mospf_state) (k : nat) (packet : lsu_packet)
    (fresh_nadv : Z) (fresh_array : list mospf_lsa) (pos : nat)
    (e : mospf_db_entry_t) :
  let rid := ntohl (mospf_rid (lsu_hdr packet)) in
  let nadv := to_int (ntohl (lsu_nadv (lsu_body packet))) in
  find_db rid (mospf_db s) = Some pos ->
  mospf_db s !! pos = Some e ->
  db_seq e < ntohs (lsu_seq (lsu_body packet)) ->
  snd (handle_mospf_lsu s k packet fresh_nadv fresh_array) =
    clones nadv (age_packet packet) (ether_shost (lsu_eth packet))
           (flood_targets k 0 (iface_list (mospf_instance s))).
Proof.
  intros rid nadv Hpos He Hlt. unfold handle_mospf_lsu. fold rid.
  rewrite Hpos, He. fold nadv.
  destruct (Z.ltb_spec (db_seq e) (ntohs (lsu_seq (lsu_body packet))));
    [| lia].
  cbn [snd].
  rewrite <- (with_shost_same (age_packet packet)) at 1.
  rewrite flood_ifaces_clones. reflexivity.
Qed.

(** The upsert of the local entry. *)
Lemma update_self_db_Some (rid seq nadv : Z) (array : list mospf_lsa)
    (db db' : list mospf_db_entry_t) :
  update_self_db rid seq nadv array db = Some db' ->
  exists pos, find_db rid db' = Some pos /\
    db' !! pos = Some {| db_rid := rid; db_seq := seq; db_nadv := nadv;
                         db_array := array |}.
Proof.
  revert db'. induction db as [| e rest IH]; intros db' Hu; simpl in Hu.
  - discriminate.
  - destruct (Z.eqb_spec (db_rid e) rid) as [Heq | Hne].
    + injection Hu as <-. exists 0%nat. simpl.
      rewrite Heq, Z.eqb_refl. auto.
    + destruct (update_self_db rid seq nadv array rest) as [rest' |];
        [| discriminate].
      injection Hu as <-. destruct (IH _ eq_refl) as (pos & Hf & Hl).
      exists (S pos). simpl.
      destruct (Z.eqb_spec (db_rid e) rid); [contradiction |].
      rewrite Hf. auto.
Qed.

Lemma update_self_db_None (rid seq nadv : Z) (array : list mospf_lsa)
    (db : list mospf_db_entry_t) :
  update_self_db rid seq nadv array db = None -> find_db rid db = None.
Proof.
  induction db as [| e rest IH]; intros Hu; simpl in *; [reflexivity |].
  destruct (db_rid e =? rid); [discriminate |].
  destruct (update_self_db rid seq nadv array rest); [discriminate |].
  rewrite IH by reflexivity. reflexivity.
Qed.

Lemma upsert_self_db_entry (rid seq nadv : Z) (array : list mospf_lsa)
    (db : list mospf_db_entry_t) :
  exists pos,
    find_db rid (upsert_self_db rid seq nadv array db) = Some pos /\
    upsert_self_db rid seq nadv array db !! pos =
      Some {| db_rid := rid; db_seq := seq; db_nadv := nadv; db_array := array |}.
Proof.
  unfold upsert_self_db.
  destruct (update_self_db rid seq nadv array db) as [db' |] eqn:Hu.
  - apply (update_self_db_Some _ _ _ _ _ _ Hu).
  - exists (length db). split.
    + apply find_db_app_new; [| reflexivity].
      apply (update_self_db_None _ _ _ _ _ Hu).
    + rewrite lookup_app_r, Nat.sub_diag by lia. reflexivity.
Qed.

Lemma emit_ifaces_body (n : nat) (nadv : Z) (packet : lsu_packet)
    (ifaces : list iface_info_t) :
  Forall (fun c => lsu_body (sent_packet c) = lsu_body packet)
         (emit_ifaces n nadv packet ifaces).
Proof.
  revert n. induction ifaces as [| iface rest IH]; intros n; simpl.
  - constructor.
  - apply Forall_app. split; [| apply IH].
    apply Forall_forall. intros c Hc. apply list_elem_of_In, in_map_iff in Hc.
    destruct Hc as (nbr & <- & _). reflexivity.
Qed.

Lemma bswap16_involutive (x : Z) : 0 <= x < 65536 -> bswap16 (bswap16 x) = x.
Proof.
  intros Hx. unfold bswap16.
  assert (Hlo : 0 <= x mod 256 < 256) by (apply Z.mod_pos_bound; lia).
  assert (Hhi : 0 <= x / 256 < 256).
  { split; [apply Z.div_pos; lia | apply Z.div_lt_upper_bound; lia]. }
  rewrite (Z.mod_small (x / 256)) by lia.
  replace ((x mod 256 * 256 + x / 256) mod 256) with (x / 256).
  2: { rewrite Z.add_comm, Z.mod_add by lia. rewrite Z.mod_small; lia. }
  replace ((x mod 256 * 256 + x / 256) / 256) with (x mod 256).
  2: { rewrite Z.add_comm, Z.div_add by lia. rewrite Z.div_small; lia. }
  rewrite (Z.mod_small (x mod 256)) by lia.
  pose proof (Z.div_mod x 256). lia.
Qed.

(** What every round of the LSU emitter does with the sequence number: the
    instance counter goes up by one (as an u16), every packet sent carries
    the new value, and the local entry of the LSDB is left with the value
    from before the increment. *)
Lemma emit_lsu_sequence (s : mospf_state) (fresh : lsu_packet) (rand : Z) :
  let s' := fst (emit_lsu s fresh rand) in
  let sent := snd (emit_lsu s fresh rand) in
  sequence_num (mospf_instance s') = to_u16 (sequence_num (mospf_instance s) + 1) /\
  Forall (fun c => ntohs (lsu_seq (lsu_body (sent_packet c)))
                   = sequence_num (mospf_instance s')) sent /\
  exists e, self_entry s' = Some e /\ db_seq e = sequence_num (mospf_instance s).
Proof.
  intros s' sent. subst s' sent. unfold emit_lsu. cbn [fst snd].
  split; [reflexivity |]. split.
  - eapply Forall_impl; [apply emit_ifaces_body |].
    intros c Hc. simpl in Hc. rewrite Hc. simpl.
    apply bswap16_involutive. unfold to_u16. apply Z.mod_pos_bound. lia.
  - unfold self_entry. simpl.
    destruct (upsert_self_db_entry (router_id (mospf_instance s))
                (sequence_num (mospf_instance s))
                (count_nadv (iface_list (mospf_instance s)))
                (build_lsa_list (iface_list (mospf_instance s)))
                (mospf_db s)) as (pos & Hf & Hl).
    rewrite Hf, Hl. eexists. split; reflexivity.
Qed.

(** The column index the graph loop computes. *)
Lemma db_index_le (rid : Z) (db : list mospf_db_entry_t) :
  (db_index rid db <= length db)%nat.
Proof.
  induction db as [| e rest IH]; simpl; [lia |].
  destruct (rid =? db_rid e); lia.
Qed.

Lemma db_index_unmatched (rid : Z) (db : list mospf_db_entry_t) :
  (forall e, In e db -> db_rid e <> rid) -> db_index rid db = length db.
Proof.
  induction db as [| e rest IH]; intros Hnone; simpl; [reflexivity |].
  destruct (Z.eqb_spec rid (db_rid e)) as [Heq | Hne].
  - exfalso. apply (Hnone e); simpl; auto.
  - f_equal. apply IH. intros e' He'. apply Hnone. simpl. auto.
Qed.

Lemma db_index_matched (rid : Z) (db : list mospf_db_entry_t) :
  (db_index rid db < length db)%nat <-> exists e, In e db /\ db_rid e = rid.
Proof.
  induction db as [| e rest IH]; simpl.
  - split; [lia | intros (e & [] & _)].
  - destruct (Z.eqb_spec rid (db_rid e)) as [Heq | Hne].
    + split; [| lia]. intros _. exists e. auto.
    + rewrite <- Nat.succ_lt_mono, IH. split.
      * intros (e' & He' & Hid). exists e'. auto.
      * intros (e' & [<- | He'] & Hid); [congruence |]. exists e'. auto.
Qed.

Lemma graph_writes_from_In (all db : list mospf_db_entry_t) (k0 k : nat)
    (e : mospf_db_entry_t) (lsa : mospf_lsa) :
  db !! k = Some e -> In lsa (entry_lsas e) ->
  In ((k0 + k)%nat, db_index (lsa_rid lsa) all) (graph_writes_from all k0 db).
Proof.
  revert k0 k. induction db as [| e0 rest IH]; intros k0 k He Hlsa.
  - discriminate.
  - simpl. apply in_app_iff. destruct k as [| k]; simpl in He.
    + injection He as ->. left. rewrite Nat.add_0_r.
      apply (in_map (fun l => (k0, db_index (lsa_rid l) all))). exact Hlsa.
    + right. rewrite Nat.add_succ_r. apply (IH (S k0) k He Hlsa).
Qed.

(** Every LSA among the first [nadv] of an entry whose rid no entry of the
    LSDB has, a stub LSA for one, makes the loop store at column [R], one
    behind the last column of the row. *)
Lemma graph_write_unmatched (db : list mospf_db_entry_t) (k : nat)
    (e : mospf_db_entry_t) (lsa : mospf_lsa) :
  db !! k = Some e -> In lsa (entry_lsas e) ->
  (forall e', In e' db -> db_rid e' <> lsa_rid lsa) ->
  In (k, length db) (graph_writes db).
Proof.
  intros He Hlsa Hnone. rewrite <- (db_index_unmatched _ _ Hnone).
  apply (graph_writes_from_In db db 0 k e lsa He Hlsa).
Qed.

(** C6.  The graph loop does not skip an LSA whose rid is in no LSDB entry.
    With the router itself (one stub LSA, rid 0) and one more router in the
    LSDB, R is 2 and the only store of the loop is [graph[0][2] = 1]: the
    column index is out of the bounds 0..R-1, and the cell written is
    [graph[1][0]], an edge from the second router to the first that no LSA
    advertises.  With the router alone in the LSDB the store is behind the
    array. *)
Theorem stub_lsa_stored_out_of_row :
  In stub_lsa (entry_lsas (mk_db_entry 0x0A000101 1 1 [stub_lsa])) /\
  lsa_rid stub_lsa = 0 /\
  (forall e, In e stub_db -> db_rid e <> 0) /\
  length stub_db = 2%nat /\
  graph_writes stub_db = [(0%nat, 2%nat)] /\
  init_graph stub_db = Done [0; 0; 1; 0] /\
  graph_get 2 [0; 0; 1; 0] 1 0 = 1 /\
  init_graph (firstn 1 stub_db) = Fault OutOfBounds.
Proof.
  split; [left; reflexivity |]. split; [reflexivity |]. split.
  - intros e [<- | [<- | []]]; discriminate.
  - repeat split.
Qed.

End MospfProofs.

(** C4.  The first round of the emitter on [sample_router], whose counter
    is 0: afterwards [instance->sequence_num] is 1 and both packets sent
    carry 1, but the local LSDB entry has [seq = 0], the value from before
    the increment. *)
Theorem emit_lsu_local_seq_lags :
  let s' := fst (@emit_lsu lab_ether_env lab_mospf_env sample_router zero_packet 12345) in
  let sent := snd (@emit_lsu lab_ether_env lab_mospf_env sample_router zero_packet 12345) in
  sequence_num (mospf_instance sample_router) = 0 /\
  sequence_num (mospf_instance s') = 1 /\
  map (fun c => ntohs (lsu_seq (lsu_body (sent_packet c)))) sent = [1; 1] /\
  option_map db_seq (self_entry s') = Some 0.
Proof. repeat split. Qed.

(** C5.  An LSU of router 10.0.1.2 with sequence number 6 arrives on
    interface 0 of [sample_router_seq5] and is accepted.  One clone is
    sent, on interface 1 to its neighbour, with both TTLs one lower and the
    addresses of that interface and neighbour; but its Ethernet source is
    the one of the received frame (the MAC of the sender), not the MAC of
    interface 1: the handler stores that MAC into the received packet,
    after the clone is taken. *)
Theorem flooded_clone_keeps_received_shost :
  let sent := snd (@handle_mospf_lsu lab_ether_env lab_mospf_env
                     sample_router_seq5 0 (sample_lsu 6) 0 []) in
  map sent_iface sent = [1%nat] /\
  map sent_dst_ip sent = [nbr_ip sample_nbr1] /\
  map (fun c => ip_ttl (lsu_ip (sent_packet c))) sent
    = [ip_ttl (lsu_ip (sample_lsu 6)) - 1] /\
  map (fun c => lsu_ttl (lsu_body (sent_packet c))) sent
    = [lsu_ttl (lsu_body (sample_lsu 6)) - 1] /\
  map (fun c => ip_saddr (lsu_ip (sent_packet c))) sent
    = [htonl (iface_ip sample_iface1)] /\
  map (fun c => ip_daddr (lsu_ip (sent_packet c))) sent
    = [htonl (nbr_ip sample_nbr1)] /\
  map (fun c => ether_shost (lsu_eth (sent_packet c))) sent
    = [ether_shost (lsu_eth (sample_lsu 6))] /\
  ether_shost (lsu_eth (sample_lsu 6)) <> iface_mac sample_iface1.
Proof. repeat split. discriminate. Qed.

(** * Further properties of the STP bridge *)

(** ** Byte order round trips *)

Lemma bswap16_range (x : Z) : 0 <= bswap16 x < 65536.
Proof.
  unfold bswap16.
  assert (0 <= x mod 256 < 256) by (apply Z.mod_pos_bound; lia).
  assert (0 <= (x / 256) mod 256 < 256) by (apply Z.mod_pos_bound; lia).
  lia.
Qed.

Lemma bswap32_range (x : Z) : 0 <= bswap32 x < 2 ^ 32.
Proof.
  unfold bswap32.
  pose proof (bswap16_range (x mod 65536)).
  pose proof (bswap16_range ((x / 65536) mod 65536)). lia.
Qed.

Lemma bswap32_involutive (x : Z) : 0 <= x < 2 ^ 32 -> bswap32 (bswap32 x) = x.
Proof.
  intros Hx. unfold bswap32 at 1.
  assert (Hlo : 0 <= x mod 65536 < 65536) by (apply Z.mod_pos_bound; lia).
  assert (Hhi : 0 <= x / 65536 < 65536).
  { split; [apply Z.div_pos; lia | apply Z.div_lt_upper_bound; lia]. }
  unfold bswap32. rewrite (Z.mod_small (x / 65536)) by lia.
  pose proof (bswap16_range (x mod 65536)) as Ha.
  pose proof (bswap16_range (x / 65536)) as Hb.
  replace ((bswap16 (x mod 65536) * 65536 + bswap16 (x / 65536)) mod 65536)
    with (bswap16 (x / 65536)).
  2: { rewrite Z.add_comm, Z.mod_add by lia. rewrite Z.mod_small; lia. }
  replace ((bswap16 (x mod 65536) * 65536 + bswap16 (x / 65536)) / 65536)
    with (bswap16 (x mod 65536)).
  2: { rewrite Z.add_comm, Z.div_add by lia. rewrite Z.div_small; lia. }
  rewrite (Z.mod_small (bswap16 (x mod 65536))) by lia.
  rewrite !bswap16_involutive by lia.
  pose proof (Z.div_mod x 65536). lia.
Qed.

Lemma bswap64_involutive (x : Z) : 0 <= x < 2 ^ 64 -> bswap64 (bswap64 x) = x.
Proof.
  intros Hx. unfold bswap64 at 1.
  assert (Hlo : 0 <= x mod 2 ^ 32 < 2 ^ 32) by (apply Z.mod_pos_bound; lia).
  assert (Hhi : 0 <= x / 2 ^ 32 < 2 ^ 32).
  { split; [apply Z.div_pos; lia | apply Z.div_lt_upper_bound; lia]. }
  unfold bswap64. rewrite (Z.mod_small (x / 2 ^ 32)) by lia.
  pose proof (bswap32_range (x mod 2 ^ 32)) as Ha.
  pose proof (bswap32_range (x / 2 ^ 32)) as Hb.
  replace ((bswap32 (x mod 2 ^ 32) * 2 ^ 32 + bswap32 (x / 2 ^ 32)) mod 2 ^ 32)
    with (bswap32 (x / 2 ^ 32)).
  2: { rewrite Z.add_comm, Z.mod_add by lia. rewrite Z.mod_small; lia. }
  replace ((bswap32 (x mod 2 ^ 32) * 2 ^ 32 + bswap32 (x / 2 ^ 32)) / 2 ^ 32)
    with (bswap32 (x mod 2 ^ 32)).
  2: { rewrite Z.add_comm, Z.div_add by lia. rewrite Z.div_small; lia. }
  rewrite (Z.mod_small (bswap32 (x mod 2 ^ 32))) by lia.
  rewrite !bswap32_involutive by lia.
  pose proof (Z.div_mod x (2 ^ 32)). lia.
Qed.

(** X8.  Where every field of the BPDU is within 2^28 of the field of the
    port it is compared with, [get_port_priority] is an ordered
    comparison: its sign is the lexicographic order of the two
    quadruples. *)
Theorem get_port_priority_orders_close_fields (config : stp_config)
    (p : stp_port) :
  close_fields config p ->
  (get_port_priority config p ?= 0) = quadruple_compare config p.
Proof.
  intros Hclose.
  destruct (get_port_priority_close_sign config p Hclose) as (Hgt & Hlt & Heq).
  destruct (Z.compare_spec (get_port_priority config p) 0) as [H0 | H0 | H0];
    symmetry.
  - apply Heq, H0.
  - apply Hlt, H0.
  - apply Hgt. lia.
Qed.

Section StpMore.
Context `{EtherEnv} `{StpEnv}.

(** X6.  What a designated port advertises is read back by the receiver:
    the config BPDU built for a port, converted to host order as the
    handler does on arrival, carries the bridge's root, its cost to the
    root, its own id and the id of the port, as long as these fit their
    fields. *)
Theorem build_config_round_trip (stp : stp_t) (p : stp_port) :
  stp_in_range stp -> 0 <= port_id p < 2 ^ 16 ->
  let bpdu := config_to_host (build_config stp p) in
  config_root_id bpdu = stp_designated_root stp /\
  config_root_path_cost bpdu = stp_root_path_cost stp /\
  config_switch_id bpdu = stp_switch_id stp /\
  config_port_id bpdu = port_id p.
Proof.
  intros (Hsw & Hroot & Hcost) Hpid. simpl.
  unfold ntohll, htonll, ntohl, htonl, ntohs, htons.
  rewrite !bswap64_involutive, bswap32_involutive, bswap16_involutive by lia.
  repeat split.
Qed.

(** The emission loop when every port is designated. *)
Lemma send_config_all_designated (stp : stp_t) (Hinv : stp_inv stp)
    (ps : list stp_port) (i : nat) :
  Forall (fun q => stp_port_is_designated stp q = true) ps ->
  stp_send_config_from stp i ps
  = imap (fun k q => EvSend (i + k) (config_bpdu stp (i + k) q)) ps.
Proof.
  revert i. induction ps as [| p ps IH]; intros i Hall; [reflexivity |].
  apply Forall_cons in Hall. destruct Hall as [Hp Hps].
  rewrite (stp_send_config_from_cons _ _ _ _ Hinv), Hp, (IH _ Hps).
  simpl. rewrite Nat.add_0_r. f_equal.
  apply imap_ext. intros k q _. simpl. rewrite Nat.add_succ_r. reflexivity.
Qed.

Lemma init_ports_designated (switch_id : Z) (stp : stp_t) (macs : list mac_t)
    (n : nat) :
  stp_switch_id stp = switch_id ->
  Forall (fun q => stp_port_is_designated stp q = true)
         (imap (fun k => init_port switch_id (n + k)) macs).
Proof.
  intros Hsw. revert n. induction macs as [| mac macs IH]; intros n; simpl.
  - constructor.
  - constructor.
    + unfold stp_port_is_designated. simpl. rewrite Hsw, !Z.eqb_refl. reflexivity.
    + rewrite (imap_ext _ (fun k => init_port switch_id (S n + k))).
      * apply IH.
      * intros k mac' _. simpl. rewrite Nat.add_succ_r. reflexivity.
Qed.

(** X1.  After [stp_init] the bridge believes itself root: it has no root
    port, every interface has a port, in order, and every port is
    designated, with the bridge as root at cost 0; the first expiry of the
    hello timer sends one config BPDU from every port, in port order, and
    leaves the bridge as it is. *)
Theorem stp_init_all_designated (first : mac_t) (others : list mac_t) :
  let w := stp_init first others in
  let stp := w_stp w in
  stp_is_root_switch stp = true /\
  stp_root_port stp = None /\
  stp_root_path_cost stp = 0 /\
  map port_mac (stp_ports stp) = first :: others /\
  Forall (fun q => stp_port_state stp q = DESIGNATED /\
                   designated_root q = stp_switch_id stp /\
                   designated_cost q = 0) (stp_ports stp) /\
  w_stp (fst (stp_handle_hello_timeout w)) = stp /\
  snd (stp_handle_hello_timeout w)
    = imap (fun j q => EvSend j (config_bpdu stp j q)) (stp_ports stp).
Proof.
  intros w stp.
  assert (Hdes : Forall (fun q => stp_port_is_designated stp q = true) (stp_ports stp)).
  { apply (init_ports_designated _ stp (first :: others) 0). reflexivity. }
  split; [apply Z.eqb_refl |]. split; [reflexivity |]. split; [reflexivity |].
  split.
  { subst stp w. unfold stp_init. cbn [w_stp stp_ports].
    generalize (first :: others). intros macs.
    change (map port_mac) with (fmap (M := list) port_mac).
    rewrite fmap_imap. unfold compose. simpl.
    induction macs as [| m macs IH]; [reflexivity |]. simpl. f_equal.
    rewrite <- IH at 2. apply imap_ext. reflexivity. }
  split.
  { apply Forall_forall. intros q Hq.
    assert (Hd : stp_port_is_designated stp q = true).
    { revert q Hq. apply Forall_forall. exact Hdes. }
    split.
    - unfold stp_port_state. simpl. rewrite Hd. reflexivity.
    - apply list_elem_of_lookup in Hq. destruct Hq as [k Hk].
      subst stp w. unfold stp_init in Hk. cbn [w_stp stp_ports] in Hk.
      rewrite list_lookup_imap in Hk.
      destruct ((first :: others) !! k); [| discriminate].
      injection Hk as <-. split; reflexivity. }
  split; [reflexivity |].
  unfold stp_handle_hello_timeout. cbn [snd]. unfold stp_send_config.
  fold w stp.
  rewrite (send_config_all_designated stp (stp_inv_init first others) _ 0 Hdes).
  reflexivity.
Qed.


Lemma stp_steps_cons (w : stp_world) (input : stp_input)
    (rest : list stp_input) :
  stp_steps w (input :: rest) =
    (fst (stp_steps (fst (stp_step w input)) rest),
     snd (stp_step w input) ++ snd (stp_steps (fst (stp_step w input)) rest)).
Proof.
  simpl. destruct (stp_step w input) as [w1 out1].
  simpl. destruct (stp_steps w1 rest). reflexivity.
Qed.

(** An invariant of [stp_step] is an invariant of [stp_steps]. *)
Lemma stp_steps_invariant (P : stp_world -> Prop) :
  (forall w input, P w -> P (fst (stp_step w input))) ->
  forall inputs w, P w -> P (fst (stp_steps w inputs)).
Proof.
  intros Hstep inputs. induction inputs as [| input rest IH]; intros w Hw.
  - exact Hw.
  - rewrite stp_steps_cons. simpl. apply IH, Hstep, Hw.
Qed.

Lemma port_static_handle (w : stp_world) (i : nat) (config : stp_config) :
  map port_static (stp_ports (w_stp (fst (stp_handle_config_packet w i config))))
  = map port_static (stp_ports (w_stp w)).
Proof.
  destruct (stp_ports (w_stp w) !! i) as [p |] eqn:Hp.
  2: { unfold stp_handle_config_packet. rewrite Hp. reflexivity. }
  assert (Hins : forall p', port_static p' = port_static p ->
            map port_static (<[i := p']> (stp_ports (w_stp w)))
            = map port_static (stp_ports (w_stp w))).
  { intros p' Hid. change (map port_static) with (fmap (M := list) port_static).
    rewrite list_fmap_insert, Hid. apply list_insert_id.
    rewrite list_lookup_fmap, Hp. reflexivity. }
  destruct (Z.lt_trichotomy (get_port_priority (config_to_host config) p) 0)
    as [Hlt | [Heq | Hgt]].
  - rewrite (handle_config_better _ _ _ _ Hp Hlt). cbv zeta.
    destruct (root_port_holds _ _); simpl.
    + apply Hins. reflexivity.
    + rewrite map_map.
      rewrite <- (Hins (port_adopt (config_to_host config) p) eq_refl).
      apply map_ext. intros q. unfold port_inherit.
      destruct (negb _); reflexivity.
  - rewrite (handle_config_equal _ _ _ _ Hp Heq). reflexivity.
  - rewrite (handle_config_worse _ _ _ _ Hp). 2: lia. apply Hins. reflexivity.
Qed.

Lemma switch_id_handle (w : stp_world) (i : nat) (config : stp_config) :
  stp_switch_id (w_stp (fst (stp_handle_config_packet w i config)))
  = stp_switch_id (w_stp w).
Proof.
  destruct (stp_ports (w_stp w) !! i) as [p |] eqn:Hp.
  2: { unfold stp_handle_config_packet. rewrite Hp. reflexivity. }
  destruct (Z.lt_trichotomy (get_port_priority (config_to_host config) p) 0)
    as [Hlt | [Heq | Hgt]].
  - rewrite (handle_config_better _ _ _ _ Hp Hlt). cbv zeta.
    destruct (root_port_holds _ _); reflexivity.
  - rewrite (handle_config_equal _ _ _ _ Hp Heq). reflexivity.
  - rewrite (handle_config_worse _ _ _ _ Hp). 2: lia. reflexivity.
Qed.

(** X2.  Whatever arrives and whenever the hello timer expires, the bridge
    keeps its [switch_id] and its ports keep their number, their order,
    their ids, their path costs and their MAC addresses. *)
Theorem stp_steps_keep_identity (w : stp_world) (inputs : list stp_input) :
  let w' := fst (stp_steps w inputs) in
  stp_switch_id (w_stp w') = stp_switch_id (w_stp w) /\
  map port_static (stp_ports (w_stp w')) = map port_static (stp_ports (w_stp w)) /\
  length (stp_ports (w_stp w')) = length (stp_ports (w_stp w)).
Proof.
  simpl.
  assert (Hkeep : stp_switch_id (w_stp (fst (stp_steps w inputs)))
                  = stp_switch_id (w_stp w) /\
                  map port_static (stp_ports (w_stp (fst (stp_steps w inputs))))
                  = map port_static (stp_ports (w_stp w))).
  { apply (stp_steps_invariant
             (fun w' => stp_switch_id (w_stp w') = stp_switch_id (w_stp w) /\
                        map port_static (stp_ports (w_stp w'))
                        = map port_static (stp_ports (w_stp w)))).
    - intros w1 [i msg |] [Hsw Hst]; simpl.
      + unfold stp_port_handle_packet.
        destruct (config_msg_type msg =? STP_TYPE_CONFIG); [| auto].
        rewrite switch_id_handle, port_static_handle. auto.
      + auto.
    - auto. }
  destruct Hkeep as [Hsw Hst]. split; [exact Hsw |]. split; [exact Hst |].
  rewrite <- (length_map port_static), Hst. apply length_map.
Qed.

Lemma root_port_valid_handle (w : stp_world) (i : nat) (config : stp_config) :
  root_port_valid (w_stp w) ->
  root_port_valid (w_stp (fst (stp_handle_config_packet w i config))).
Proof.
  intros Hvalid.
  destruct (stp_ports (w_stp w) !! i) as [p |] eqn:Hp.
  2: { unfold stp_handle_config_packet. rewrite Hp. exact Hvalid. }
  pose proof (lookup_lt_Some _ _ _ Hp) as Hi.
  destruct (Z.lt_trichotomy (get_port_priority (config_to_host config) p) 0)
    as [Hlt | [Heq | Hgt]].
  - rewrite (handle_config_better _ _ _ _ Hp Hlt). cbv zeta.
    destruct (root_port_holds _ _); unfold root_port_valid; simpl; intros r Hr.
    + rewrite length_insert. apply Hvalid, Hr.
    + injection Hr as <-. rewrite length_map, length_insert. exact Hi.
  - rewrite (handle_config_equal _ _ _ _ Hp Heq). exact Hvalid.
  - rewrite (handle_config_worse _ _ _ _ Hp) by lia.
    unfold root_port_valid. simpl. intros r Hr.
    rewrite length_insert. apply Hvalid, Hr.
Qed.

(** X3.  In every state the bridge reaches from [stp_init] (with at most
    255 ports): a bridge without root port believes itself root and no
    port has the role ROOT; a bridge with a root port has exactly one port
    with the role ROOT, the root port itself. *)
Theorem stp_reachable_roles (first : mac_t) (others : list mac_t)
    (inputs : list stp_input) :
  (length others < 255)%nat ->
  let stp := w_stp (fst (stp_steps (stp_init first others) inputs)) in
  match stp_root_port stp with
  | None =>
      stp_is_root_switch stp = true /\
      forall j q, stp_ports stp !! j = Some q -> stp_port_state stp q <> ROOT
  | Some r =>
      exists rp, stp_ports stp !! r = Some rp /\
        forall j q, stp_ports stp !! j = Some q ->
                    (stp_port_state stp q = ROOT <-> j = r)
  end.
Proof.
  intros Hlen stp.
  assert (Hinv : stp_world_inv (fst (stp_steps (stp_init first others) inputs)) /\
                 root_port_valid stp).
  { subst stp.
    apply (stp_steps_invariant
             (fun w => stp_world_inv w /\ root_port_valid (w_stp w))).
    - intros w [i msg |] [Hw Hv]; simpl; [| auto].
      unfold stp_port_handle_packet.
      destruct (config_msg_type msg =? STP_TYPE_CONFIG); [| auto].
      split; [apply stp_world_inv_handle, Hw | apply root_port_valid_handle, Hv].
    - split; [apply stp_world_inv_init, Hlen |]. intros r Hr. discriminate. }
  destruct Hinv as [(Hsinv & _ & Hnd) Hvalid]. fold stp in Hsinv, Hnd.
  destruct (stp_root_port stp) as [r |] eqn:Hr.
  - destruct (lookup_lt_is_Some_2 (stp_ports stp) r (Hvalid r Hr)) as [rp Hrp].
    exists rp. split; [exact Hrp |]. intros j q Hq.
    unfold stp_port_state. rewrite Hr. simpl. rewrite Hrp.
    destruct (Z.eqb_spec (port_id q) (port_id rp)) as [Heq | Hne].
    + split; [| reflexivity]. intros _.
      destruct (Nat.eq_dec j r) as [Hjr | Hjr]; [exact Hjr |].
      exfalso. apply (distinct_port_ids _ _ _ _ _ Hnd Hrp Hq Hjr Heq).
    + split.
      * destruct (stp_port_is_designated stp q); discriminate.
      * intros ->. rewrite Hrp in Hq. injection Hq as ->. contradiction.
  - split.
    + destruct Hsinv as [Hroot | [r Hsome]]; [exact Hroot |]. congruence.
    + intros j q _. unfold stp_port_state. rewrite Hr. simpl.
      destruct (stp_port_is_designated stp q); discriminate.
Qed.

(** X4.  A BPDU that was better than the port it arrived on compares equal
    when it arrives there again: the second call changes nothing, stops no
    timer and only re-advertises. *)
Theorem better_bpdu_again (w : stp_world) (i : nat) (p : stp_port)
    (config : stp_config) :
  stp_ports (w_stp w) !! i = Some p ->
  get_port_priority (config_to_host config) p < 0 ->
  let w1 := fst (stp_handle_config_packet w i config) in
  stp_handle_config_packet w1 i config = (w1, stp_send_config (w_stp w1)) /\
  timer_stops (stp_send_config (w_stp w1)) = 0%nat.
Proof.
  intros Hp Hlt w1. split; [| apply stp_send_config_from_stops].
  pose proof (lookup_lt_Some _ _ _ Hp) as Hi.
  assert (Hp1 : stp_ports (w_stp w1) !! i
                = Some (port_adopt (config_to_host config) p)).
  { subst w1. rewrite (handle_config_better _ _ _ _ Hp Hlt). cbv zeta.
    destruct (root_port_holds _ _); simpl.
    - apply list_lookup_insert_eq, Hi.
    - change (map ?f ?l) with (fmap (M := list) f l).
      rewrite list_lookup_fmap, list_lookup_insert_eq by exact Hi. simpl.
      unfold port_inherit. simpl. rewrite Z.eqb_refl. reflexivity. }
  apply (handle_config_equal _ _ _ _ Hp1), get_port_priority_adopt.
Qed.

Lemma mac_to_u64_step (x b : Z) :
  0 <= x < 2 ^ 40 -> 0 <= b < 2 ^ 8 ->
  to_u64 (to_u64 (x * 2 ^ 8) + b) = x * 2 ^ 8 + b.
Proof.
  intros Hx Hb. unfold to_u64.
  rewrite (Z.mod_small (x * 2 ^ 8)) by lia. apply Z.mod_small. lia.
Qed.

Lemma mac_ok_bytes (mac : mac_t) :
  mac_ok mac ->
  exists a b c d e f, mac = [a; b; c; d; e; f] /\
    0 <= a < 2 ^ 8 /\ 0 <= b < 2 ^ 8 /\ 0 <= c < 2 ^ 8 /\
    0 <= d < 2 ^ 8 /\ 0 <= e < 2 ^ 8 /\ 0 <= f < 2 ^ 8.
Proof.
  intros [Hlen Hall].
  destruct mac as [| a [| b [| c [| d [| e [| f [| g rest]]]]]]];
    try discriminate Hlen.
  repeat (apply Forall_cons in Hall; destruct Hall as [? Hall]).
  exists a, b, c, d, e, f. split; [reflexivity | tauto].
Qed.

Lemma mac_to_u64_value (mac : mac_t) :
  mac_ok mac -> mac_to_u64 mac = mac_value mac /\ 0 <= mac_value mac < 2 ^ 48.
Proof.
  intros Hok.
  destruct (mac_ok_bytes mac Hok)
    as (a & b & c & d & e & f & -> & Ha & Hb & Hc & Hd & He & Hf).
  unfold mac_to_u64, mac_value. simpl fold_left.
  rewrite (mac_to_u64_step 0 a) by lia.
  rewrite (mac_to_u64_step _ b) by lia.
  rewrite (mac_to_u64_step _ c) by lia.
  rewrite (mac_to_u64_step _ d) by lia.
  rewrite (mac_to_u64_step _ e) by lia.
  rewrite (mac_to_u64_step _ f) by lia.
  split; [reflexivity | lia].
Qed.

Lemma mac_value_inj (m1 m2 : mac_t) :
  mac_ok m1 -> mac_ok m2 -> mac_value m1 = mac_value m2 -> m1 = m2.
Proof.
  intros H1 H2 Heq.
  destruct (mac_ok_bytes m1 H1)
    as (a & b & c & d & e & f & -> & Ha & Hb & Hc & Hd & He & Hf).
  destruct (mac_ok_bytes m2 H2)
    as (a' & b' & c' & d' & e' & f' & -> & Ha' & Hb' & Hc' & Hd' & He' & Hf').
  unfold mac_value in Heq. simpl in Heq.
  assert (a = a' /\ b = b' /\ c = c' /\ d = d' /\ e = e' /\ f = f') by lia.
  destruct H1 as [_ _]. intuition congruence.
Qed.

(** The bits of a value below 2^48 and of a multiple of 2^48 do not meet. *)
Lemma lor_high_low (lo hi : Z) :
  0 <= lo < 2 ^ 48 -> 0 <= hi -> Z.lor lo (hi * 2 ^ 48) = hi * 2 ^ 48 + lo.
Proof.
  intros Hlo Hhi.
  assert (Hland : Z.land lo (hi * 2 ^ 48) = 0).
  { apply Z.bits_inj'. intros n Hn. rewrite Z.land_spec, Z.bits_0.
    destruct (Z.lt_ge_cases n 48) as [Hlt | Hge].
    - rewrite <- Z.shiftl_mul_pow2 by lia.
      rewrite Z.shiftl_spec_low by lia. apply andb_false_r.
    - destruct (Z.eq_dec lo 0) as [-> | Hne].
      + rewrite Z.bits_0. reflexivity.
      + rewrite (Z.bits_above_log2 lo n); [reflexivity | lia |].
        assert (Z.log2 lo < 48) by (apply Z.log2_lt_pow2; lia). lia. }
  rewrite <- Z.lxor_lor by exact Hland.
  rewrite <- Z.add_nocarry_lxor by exact Hland. lia.
Qed.

(** The value of the bridge id [stp_init] forms. *)
Lemma stp_init_switch_id_value (mac : mac_t) (others : list mac_t) :
  mac_ok mac -> 0 <= STP_BRIDGE_PRIORITY < 2 ^ 16 ->
  stp_switch_id (w_stp (stp_init mac others))
  = STP_BRIDGE_PRIORITY * 2 ^ 48 + mac_value mac /\
  0 <= mac_value mac < 2 ^ 48.
Proof.
  intros Hm Hprio. unfold stp_init. cbn [w_stp stp_switch_id].
  destruct (mac_to_u64_value mac Hm) as [-> Hrange].
  rewrite Z.shiftl_mul_pow2 by lia. unfold to_u64.
  rewrite Z.mod_small by lia.
  rewrite lor_high_low by lia. auto.
Qed.

(** X5.  The bridge id [stp_init] forms has the bridge priority in its
    upper 16 bits and the MAC of the first interface in its lower 48: it is
    [priority * 2^48 + mac].  So with one priority, bridges whose first
    interfaces have different MACs get different ids. *)
Theorem stp_init_switch_id (first first' : mac_t) (others others' : list mac_t) :
  mac_ok first -> mac_ok first' -> 0 <= STP_BRIDGE_PRIORITY < 2 ^ 16 ->
  let switch_id := stp_switch_id (w_stp (stp_init first others)) in
  let switch_id' := stp_switch_id (w_stp (stp_init first' others')) in
  switch_id = STP_BRIDGE_PRIORITY * 2 ^ 48 + mac_value first /\
  0 <= switch_id < 2 ^ 64 /\
  (switch_id = switch_id' -> first = first').
Proof.
  intros Hok Hok' Hprio.
  destruct (stp_init_switch_id_value first others Hok Hprio) as [Hsw Hr].
  destruct (stp_init_switch_id_value first' others' Hok' Hprio) as [Hsw' Hr'].
  cbv zeta. rewrite Hsw, Hsw'. split; [reflexivity |]. split; [lia |].
  intros Heq. apply mac_value_inj; [assumption | assumption | lia].
Qed.

Lemma init_port_lookup (first : mac_t) (others : list mac_t) (i : nat)
    (p : stp_port) :
  stp_ports (w_stp (stp_init first others)) !! i = Some p ->
  exists mac,
    p = init_port (stp_switch_id (w_stp (stp_init first others))) i mac /\
    0 <= port_id p < 2 ^ 16.
Proof.
  unfold stp_init. cbn [w_stp stp_ports stp_switch_id].
  rewrite list_lookup_imap.
  destruct ((first :: others) !! i) as [mac |]; [| discriminate].
  intros Hp. injection Hp as <-. exists mac. split; [reflexivity |].
  simpl. unfold init_port_id, to_u16. apply Z.mod_pos_bound. lia.
Qed.

(** X7.  Two bridges fresh from [stp_init], with the same priority and
    first MACs less than 2^28 apart: when a config BPDU of bridge A arrives
    on port [i] of bridge B, B gives way if A's MAC is the smaller one
    (port [i] becomes root port, A becomes B's root at cost 1, B is no
    longer root and stops its hello timer) and ignores the BPDU if A's MAC
    is the larger one (nothing changes, nothing is sent). *)
Theorem smaller_bridge_id_wins (firstA firstB : mac_t)
    (othersA othersB : list mac_t) (i j : nat) (pA pB : stp_port) :
  let wA := stp_init firstA othersA in
  let wB := stp_init firstB othersB in
  let msg := build_config (w_stp wA) pA in
  let wB' := fst (stp_handle_config_packet wB i msg) in
  let out := snd (stp_handle_config_packet wB i msg) in
  mac_ok firstA -> mac_ok firstB -> 0 <= STP_BRIDGE_PRIORITY < 2 ^ 16 ->
  Z.abs (mac_value firstA - mac_value firstB) < 2 ^ 28 ->
  stp_ports (w_stp wA) !! j = Some pA ->
  stp_ports (w_stp wB) !! i = Some pB ->
  (mac_value firstA < mac_value firstB ->
     stp_root_port (w_stp wB') = Some i /\
     stp_designated_root (w_stp wB') = stp_switch_id (w_stp wA) /\
     stp_root_path_cost (w_stp wB') = 1 /\
     stp_is_root_switch (w_stp wB') = false /\
     w_hello_active wB' = false /\
     timer_stops out = 1%nat) /\
  (mac_value firstB < mac_value firstA -> wB' = wB /\ out = []).
Proof.
  intros wA wB msg wB' out HokA HokB Hprio Hclose HpA HpB.
  destruct (stp_init_switch_id_value firstA othersA HokA Hprio) as (HswA & HrA).
  destruct (stp_init_switch_id_value firstB othersB HokB Hprio) as (HswB & HrB).
  fold wA in HswA. fold wB in HswB.
  destruct (init_port_lookup _ _ _ _ HpA) as (macA & HeqA & HidA). fold wA in HeqA.
  destruct (init_port_lookup _ _ _ _ HpB) as (macB & HeqB & HidB). fold wB in HeqB.
  assert (HrangeA : stp_in_range (w_stp wA)).
  { unfold stp_in_range. subst wA. unfold stp_init in *. simpl in *. lia. }
  assert (Hread : config_root_id (config_to_host msg) = stp_designated_root (w_stp wA) /\
                  config_root_path_cost (config_to_host msg)
                  = stp_root_path_cost (w_stp wA) /\
                  config_switch_id (config_to_host msg) = stp_switch_id (w_stp wA) /\
                  config_port_id (config_to_host msg) = port_id pA).
  { subst msg. revert HrangeA HidA. generalize (w_stp wA). clear.
    intros stp (Hsw & Hroot & Hcost) Hpid. simpl.
    unfold ntohll, htonll, ntohl, htonl, ntohs, htons.
    rewrite !bswap64_involutive, bswap32_involutive, bswap16_involutive by lia.
    repeat split. }
  destruct Hread as (Hroot & Hcost & Hsw & Hpid).
  assert (HdrA : stp_designated_root (w_stp wA) = stp_switch_id (w_stp wA))
    by reflexivity.
  assert (HcA : stp_root_path_cost (w_stp wA) = 0) by reflexivity.
  assert (HpBf : designated_root pB = stp_switch_id (w_stp wB) /\
                 designated_cost pB = 0 /\
                 designated_switch pB = stp_switch_id (w_stp wB) /\
                 designated_port pB = port_id pB /\ path_cost pB = 1).
  { rewrite HeqB. repeat split. }
  destruct HpBf as (HBr & HBc & HBs & HBp & HBpc).
  assert (Hcf : close_fields (config_to_host msg) pB).
  { unfold close_fields. rewrite Hroot, Hcost, Hsw, Hpid, HBr, HBc, HBs, HBp.
    rewrite HdrA, HcA, HswA, HswB. lia. }
  pose proof (get_port_priority_close _ _ Hcf) as Hprio_val.
  rewrite Hroot, Hcost, Hsw, Hpid, HBr, HBc, HBs, HBp, HdrA, HcA in Hprio_val.
  rewrite Z.sub_diag in Hprio_val. change (Z.sgn 0) with 0 in Hprio_val.
  pose proof (Z.sgn_spec (port_id pA - port_id pB)) as Hsp.
  split; intros Hlt.
  - assert (Hneg : get_port_priority (config_to_host msg) pB < 0).
    { rewrite Hprio_val, Z.sgn_neg by lia. lia. }
    subst wB' out. rewrite (handle_config_better _ _ _ _ HpB Hneg). cbv zeta.
    remember (config_to_host msg) as bpdu eqn:Hbpdu.
    assert (Hnone : root_port_holds bpdu
              (set_ports (w_stp wB) (<[i := port_adopt bpdu pB]> (stp_ports (w_stp wB))))
              = false) by reflexivity.
    rewrite Hnone. cbn [fst snd w_stp].
    unfold elect_root_port, set_ports, stp_is_root_switch.
    cbn [stp_root_port stp_designated_root stp_root_path_cost stp_switch_id
         designated_cost path_cost port_adopt w_hello_active w_root].
    rewrite Hroot, Hcost, HBpc, HdrA, HcA.
    split; [reflexivity |]. split; [reflexivity |]. split; [reflexivity |].
    split; [apply Z.eqb_neq; lia |]. split; [reflexivity |].
    rewrite timer_stops_app. unfold stp_send_config.
    rewrite stp_send_config_from_stops. reflexivity.
  - assert (Hpos : 0 < get_port_priority (config_to_host msg) pB).
    { rewrite Hprio_val, Z.sgn_pos by lia. lia. }
    subst wB' out. rewrite (handle_config_worse _ _ _ _ HpB Hpos). cbn [fst snd].
    split; [| reflexivity].
    assert (Hre : port_reassert (w_stp wB) pB = pB) by (rewrite HeqB; reflexivity).
    rewrite Hre, list_insert_id by exact HpB. reflexivity.
Qed.

End StpMore.

Section StpFrames.
Context `{EtherEnv} `{StpEnv}.

(** ** What a bridge sends *)

Lemma send_config_from_frames (stp : stp_t) (i : nat) (ps : list stp_port)
    (j : nat) (f : stp_frame) :
  In (EvSend j f) (stp_send_config_from stp i ps) ->
  exists k q, ps !! k = Some q /\ j = (i + k)%nat /\ f = config_bpdu stp j q.
Proof.
  revert i. induction ps as [| p rest IH]; intros i; simpl; [tauto |].
  rewrite in_app_iff. intros [Hhead | Hrest].
  - exists 0%nat, p. rewrite Nat.add_0_r.
    destruct (stp_port_is_designated stp p); [| destruct Hhead].
    unfold stp_port_send_config in Hhead.
    destruct (negb _ && negb _); [destruct Hhead |].
    rewrite stp_port_send_packet_config in Hhead.
    destruct Hhead as [Heq | []]. injection Heq as <- <-. auto.
  - destruct (IH (S i) Hrest) as (k & q & Hk & -> & ->).
    exists (S k), q. rewrite Nat.add_succ_r. auto.
Qed.

Lemma handle_config_frames (w : stp_world) (i : nat) (config : stp_config)
    (j : nat) (f : stp_frame) :
  In (EvSend j f) (snd (stp_handle_config_packet w i config)) ->
  In (EvSend j f) (stp_send_config (w_stp w)) \/
  In (EvSend j f)
     (stp_send_config (w_stp (fst (stp_handle_config_packet w i config)))).
Proof.
  destruct (stp_ports (w_stp w) !! i) as [p |] eqn:Hp.
  2: { unfold stp_handle_config_packet. rewrite Hp. intros []. }
  destruct (Z.lt_trichotomy (get_port_priority (config_to_host config) p) 0)
    as [Hlt | [Heq | Hgt]].
  - rewrite (handle_config_better _ _ _ _ Hp Hlt). cbv zeta.
    assert (Hstop : ~ In (EvSend j f) (if w_root w =? 1 then [EvStopTimer] else [])).
    { destruct (w_root w =? 1); [intros [Hd | []]; discriminate | intros []]. }
    destruct (root_port_holds _ _); cbn [fst snd w_stp].
    + intros Hin. contradiction.
    + rewrite in_app_iff. intros [Hin | Hin]; [contradiction | right; exact Hin].
  - rewrite (handle_config_equal _ _ _ _ Hp Heq). cbn [snd]. auto.
  - rewrite (handle_config_worse _ _ _ _ Hp) by lia. intros [].
Qed.

Lemma stp_step_static (w : stp_world) (input : stp_input) :
  stp_switch_id (w_stp (fst (stp_step w input))) = stp_switch_id (w_stp w) /\
  map port_static (stp_ports (w_stp (fst (stp_step w input))))
  = map port_static (stp_ports (w_stp w)).
Proof.
  destruct input as [i msg |]; cbn [stp_step].
  - unfold stp_port_handle_packet.
    destruct (config_msg_type msg =? STP_TYPE_CONFIG); [| auto].
    split; [apply switch_id_handle | apply port_static_handle].
  - auto.
Qed.

Lemma same_bridge_frames (stp' stp : stp_t) (j : nat) (f : stp_frame) :
  same_bridge stp' stp ->
  In (EvSend j f) (stp_send_config stp') -> own_config_frame stp j f.
Proof.
  intros [Hsw Hstatic] Hin. unfold stp_send_config in Hin.
  destruct (send_config_from_frames _ _ _ _ _ Hin) as (k & q' & Hk & -> & ->).
  cbn [Nat.add].
  assert (Hq : exists q, stp_ports stp !! k = Some q /\
                         port_static q = port_static q').
  { assert (Hl : map port_static (stp_ports stp') !! k = Some (port_static q')).
    { change (map port_static) with (fmap (M := list) port_static).
      rewrite list_lookup_fmap, Hk. reflexivity. }
    rewrite Hstatic in Hl.
    change (map port_static) with (fmap (M := list) port_static) in Hl.
    rewrite list_lookup_fmap in Hl.
    destruct (stp_ports stp !! k) as [q |]; [| discriminate].
    exists q. split; [reflexivity |].
    cbn [fmap option_fmap option_map] in Hl. congruence. }
  destruct Hq as (q & Hq & Hs). exists q. split; [exact Hq |].
  unfold port_static in Hs. injection Hs as Hid _ Hmac.
  cbn. rewrite Hsw, Hid, Hmac. repeat split.
Qed.

Lemma stp_steps_frames (inputs : list stp_input) (w : stp_world) (stp : stp_t)
    (j : nat) (f : stp_frame) :
  same_bridge (w_stp w) stp ->
  In (EvSend j f) (snd (stp_steps w inputs)) ->
  exists stp', same_bridge stp' stp /\ In (EvSend j f) (stp_send_config stp').
Proof.
  revert w. induction inputs as [| input rest IH]; intros w [Hsw Hst] Hin.
  - destruct Hin.
  - rewrite stp_steps_cons in Hin. cbn [snd] in Hin.
    apply in_app_iff in Hin.
    destruct (stp_step_static w input) as [Hsw1 Hst1].
    destruct Hin as [Hin | Hin].
    + destruct input as [i msg |]; cbn [stp_step] in Hin, Hsw1, Hst1.
      * unfold stp_port_handle_packet in Hin, Hsw1, Hst1.
        destruct (config_msg_type msg =? STP_TYPE_CONFIG); [| destruct Hin].
        destruct (handle_config_frames _ _ _ _ _ Hin) as [Hold | Hnew].
        -- exists (w_stp w). split; [split; assumption | exact Hold].
        -- eexists. split; [| exact Hnew]. split; congruence.
      * exists (w_stp w). split; [split; assumption | exact Hin].
    + apply (IH (fst (stp_step w input))); [split; congruence | exact Hin].
Qed.

(** X29.  Whatever a bridge sends, in any run, is a config BPDU of its
    own: the frame goes out on one of its ports, to the STP multicast
    address 01:80:C2:00:00:01 with the MAC of that port as source, with the
    length of LLC header and message as Ethernet type and the three LLC
    bytes, and the message has the type STP_TYPE_CONFIG, flags 0, message
    age 0, the bridge's own id as [switch_id] and the id of the sending
    port as [port_id]. *)
Theorem stp_sends_own_config_only (w : stp_world) (inputs : list stp_input)
    (j : nat) (f : stp_frame) :
  In (EvSend j f) (snd (stp_steps w inputs)) ->
  own_config_frame (w_stp w) j f.
Proof.
  intros Hin.
  destruct (stp_steps_frames inputs w (w_stp w) j f) as (stp' & Hsame & Hin');
    [split; reflexivity | exact Hin |].
  apply (same_bridge_frames stp' (w_stp w) j f Hsame Hin').
Qed.

End StpFrames.

(** * Further properties of the mOSPF router *)

Lemma to_int_idem_add (a b : Z) : to_int (to_int a + b) = to_int (a + b).
Proof.
  unfold to_int. f_equal.
  replace ((a + 2 ^ 31) mod 2 ^ 32 - 2 ^ 31 + b + 2 ^ 31)
    with ((a + 2 ^ 31) mod 2 ^ 32 + b) by lia.
  replace (a + b + 2 ^ 31) with (a + 2 ^ 31 + b) by lia.
  rewrite Zplus_mod_idemp_l. reflexivity.
Qed.

Section NbrProofs.
Context `{EtherEnv} `{MospfEnv} `{HelloEnv}.

(** ** The neighbour tables *)

Lemma refresh_nbr_ids (rid : Z) (nbrs nbrs' : list mospf_nbr_t) :
  refresh_nbr rid nbrs = Some nbrs' ->
  map nbr_id nbrs' = map nbr_id nbrs /\ length nbrs' = length nbrs.
Proof.
  revert nbrs'. induction nbrs as [| nbr rest IH]; intros nbrs' Hr; simpl in Hr.
  - discriminate.
  - destruct (nbr_id nbr =? rid).
    + injection Hr as <-. split; reflexivity.
    + destruct (refresh_nbr rid rest) as [rest' |]; [| discriminate].
      injection Hr as <-. destruct (IH _ eq_refl) as [Hids Hlen].
      simpl. rewrite Hids, Hlen. split; reflexivity.
Qed.

Lemma refresh_nbr_None (rid : Z) (nbrs : list mospf_nbr_t) :
  refresh_nbr rid nbrs = None -> ~ In rid (map nbr_id nbrs).
Proof.
  induction nbrs as [| nbr rest IH]; intros Hr; simpl in *; [tauto |].
  destruct (Z.eqb_spec (nbr_id nbr) rid) as [Heq | Hne]; [discriminate |].
  destruct (refresh_nbr rid rest); [discriminate |].
  intros [Hin | Hin]; [contradiction | apply (IH eq_refl Hin)].
Qed.

Lemma refresh_nbr_again (rid : Z) (nbrs nbrs' : list mospf_nbr_t) :
  refresh_nbr rid nbrs = Some nbrs' -> refresh_nbr rid nbrs' = Some nbrs'.
Proof.
  revert nbrs'. induction nbrs as [| nbr rest IH]; intros nbrs' Hr; simpl in Hr.
  - discriminate.
  - destruct (Z.eqb_spec (nbr_id nbr) rid) as [Heq | Hne].
    + injection Hr as <-. simpl. rewrite Heq, Z.eqb_refl. reflexivity.
    + destruct (refresh_nbr rid rest) as [rest' |]; [| discriminate].
      injection Hr as <-. simpl.
      destruct (Z.eqb_spec (nbr_id nbr) rid); [contradiction |].
      rewrite (IH _ eq_refl). reflexivity.
Qed.

Lemma refresh_nbr_app_new (rid : Z) (nbrs : list mospf_nbr_t) (nbr : mospf_nbr_t) :
  refresh_nbr rid nbrs = None -> nbr_id nbr = rid ->
  refresh_nbr rid (nbrs ++ [nbr])
  = Some (nbrs ++ [set_alive nbr MOSPF_NEIGHBOR_TIMEOUT]).
Proof.
  intros Hnone Hid. induction nbrs as [| n0 rest IH]; simpl in *.
  - rewrite Hid, Z.eqb_refl. reflexivity.
  - destruct (nbr_id n0 =? rid); [discriminate |].
    destruct (refresh_nbr rid rest); [discriminate |].
    rewrite IH by reflexivity. reflexivity.
Qed.

(** The two branches of the Hello handler. *)
Lemma handle_hello_known (s : mospf_state) (k : nat) (packet : hello_packet)
    (iface : iface_info_t) (nbrs' : list mospf_nbr_t) :
  iface_list (mospf_instance s) !! k = Some iface ->
  refresh_nbr (ntohl (mospf_rid (hello_hdr packet))) (nbr_list iface) = Some nbrs' ->
  handle_mospf_hello s k packet =
    set_instance s
      (set_iface_list (mospf_instance s)
         (<[k := set_nbrs iface (num_nbr iface) nbrs']>
            (iface_list (mospf_instance s)))).
Proof. intros Hk Hr. unfold handle_mospf_hello. rewrite Hk, Hr. reflexivity. Qed.

Lemma handle_hello_new (s : mospf_state) (k : nat) (packet : hello_packet)
    (iface : iface_info_t) :
  iface_list (mospf_instance s) !! k = Some iface ->
  refresh_nbr (ntohl (mospf_rid (hello_hdr packet))) (nbr_list iface) = None ->
  handle_mospf_hello s k packet =
    set_nbr_changed
      (set_instance s
         (set_iface_list (mospf_instance s)
            (<[k := set_nbrs iface (to_int (num_nbr iface + 1))
                     (nbr_list iface ++
                      [{| nbr_id := ntohl (mospf_rid (hello_hdr packet));
                          nbr_ip := ntohl (ip_saddr (hello_ip packet));
                          nbr_mask := ntohl (hello_mask (hello_body packet));
                          alive := MOSPF_NEIGHBOR_TIMEOUT |}])]>
               (iface_list (mospf_instance s)))))
      1.
Proof. intros Hk Hr. unfold handle_mospf_hello. rewrite Hk, Hr. reflexivity. Qed.

(** X9.  Handling the same Hello a second time changes nothing: whether
    the neighbour was known or has just been inserted, the second call
    finds it and leaves the state as the first call left it. *)
Theorem handle_mospf_hello_again (s : mospf_state) (k : nat)
    (packet : hello_packet) :
  handle_mospf_hello (handle_mospf_hello s k packet) k packet
  = handle_mospf_hello s k packet.
Proof.
  destruct (iface_list (mospf_instance s) !! k) as [iface |] eqn:Hk.
  2: { unfold handle_mospf_hello. rewrite Hk. rewrite Hk. reflexivity. }
  pose proof (lookup_lt_Some _ _ _ Hk) as Hlt.
  set (rid := ntohl (mospf_rid (hello_hdr packet))).
  destruct (refresh_nbr rid (nbr_list iface)) as [nbrs' |] eqn:Hr.
  - rewrite (handle_hello_known s k packet iface nbrs' Hk Hr).
    rewrite (handle_hello_known _ k packet
               (set_nbrs iface (num_nbr iface) nbrs') nbrs').
    + unfold set_instance, set_iface_list. cbn.
      rewrite list_insert_insert_eq. reflexivity.
    + cbn. apply list_lookup_insert_eq, Hlt.
    + cbn. apply (refresh_nbr_again _ _ _ Hr).
  - rewrite (handle_hello_new s k packet iface Hk Hr).
    rewrite (handle_hello_known _ k packet
               (set_nbrs iface (to_int (num_nbr iface + 1))
                  (nbr_list iface ++
                   [{| nbr_id := rid;
                       nbr_ip := ntohl (ip_saddr (hello_ip packet));
                       nbr_mask := ntohl (hello_mask (hello_body packet));
                       alive := MOSPF_NEIGHBOR_TIMEOUT |}]))
               (nbr_list iface ++
                   [{| nbr_id := rid;
                       nbr_ip := ntohl (ip_saddr (hello_ip packet));
                       nbr_mask := ntohl (hello_mask (hello_body packet));
                       alive := MOSPF_NEIGHBOR_TIMEOUT |}])).
    + unfold set_instance, set_iface_list, set_nbr_changed. cbn.
      rewrite list_insert_insert_eq. reflexivity.
    + cbn. apply list_lookup_insert_eq, Hlt.
    + cbn. rewrite (refresh_nbr_app_new rid (nbr_list iface) _ Hr);
        reflexivity.
Qed.

End NbrProofs.

Section NbrInvariant.
Context `{EtherEnv} `{MospfEnv} `{HelloEnv}.

Lemma age_nbrs_cons (num changed : Z) (nbr : mospf_nbr_t)
    (rest : list mospf_nbr_t) :
  age_nbrs num changed (nbr :: rest) =
    match aged nbr with
    | None => age_nbrs (to_int (num - 1)) 1 rest
    | Some nbr' =>
        (fst (fst (age_nbrs num changed rest)),
         snd (fst (age_nbrs num changed rest)),
         nbr' :: snd (age_nbrs num changed rest))
    end.
Proof.
  unfold aged. cbn [age_nbrs].
  destruct (alive (age_nbr nbr) =? 0); [reflexivity |].
  destruct (age_nbrs num changed rest) as [[num' changed'] rest']. reflexivity.
Qed.

Lemma omap_aged_cons (nbr : mospf_nbr_t) (rest : list mospf_nbr_t) :
  omap aged (nbr :: rest) =
    match aged nbr with
    | None => omap aged rest
    | Some nbr' => nbr' :: omap aged rest
    end.
Proof. reflexivity. Qed.

(** After a round the neighbour list of an interface is what [aged] leaves
    of it. *)
Lemma age_nbrs_list (num changed : Z) (nbrs : list mospf_nbr_t) :
  snd (age_nbrs num changed nbrs) = omap aged nbrs.
Proof.
  revert num changed. induction nbrs as [| nbr rest IH]; intros num changed;
    [reflexivity |].
  rewrite age_nbrs_cons, omap_aged_cons. destruct (aged nbr).
  - cbn [snd]. rewrite IH. reflexivity.
  - apply IH.
Qed.

Lemma age_nbrs_num (nbrs : list mospf_nbr_t) (num changed m : Z) :
  num = to_int (Z.of_nat (length nbrs) + m) ->
  fst (fst (age_nbrs num changed nbrs))
  = to_int (Z.of_nat (length (omap aged nbrs)) + m).
Proof.
  revert num changed m. induction nbrs as [| nbr rest IH];
    intros num changed m Hnum.
  - simpl. exact Hnum.
  - rewrite age_nbrs_cons, omap_aged_cons. destruct (aged nbr).
    + cbn [fst]. rewrite (IH num changed (m + 1)).
      * f_equal. simpl length. lia.
      * rewrite Hnum. f_equal. simpl length. lia.
    + apply IH. rewrite Hnum.
      replace (to_int (Z.of_nat (length (nbr :: rest)) + m) - 1)
        with (to_int (Z.of_nat (length (nbr :: rest)) + m) + (- 1)) by lia.
      rewrite to_int_idem_add. f_equal. simpl length. lia.
Qed.

Lemma omap_aged_length (nbrs : list mospf_nbr_t) :
  (length (omap aged nbrs) <= length nbrs)%nat.
Proof.
  induction nbrs as [| nbr rest IH]; [reflexivity |].
  rewrite omap_aged_cons. destruct (aged nbr); simpl length; lia.
Qed.

Lemma age_nbrs_changed (nbrs : list mospf_nbr_t) (num changed : Z) :
  snd (fst (age_nbrs num changed nbrs))
  = if (length (omap aged nbrs) <? length nbrs)%nat then 1 else changed.
Proof.
  revert num changed. induction nbrs as [| nbr rest IH]; intros num changed;
    [reflexivity |].
  pose proof (omap_aged_length rest) as Hle.
  rewrite age_nbrs_cons, omap_aged_cons. destruct (aged nbr).
  - cbn [fst snd]. rewrite IH. reflexivity.
  - rewrite IH.
    destruct (Nat.ltb_spec (length (omap aged rest)) (length rest));
      destruct (Nat.ltb_spec (length (omap aged rest)) (length (nbr :: rest)));
      try reflexivity; simpl length in *; lia.
Qed.

Lemma omap_aged_ids (nbrs : list mospf_nbr_t) :
  NoDup (map nbr_id nbrs) -> NoDup (map nbr_id (omap aged nbrs)).
Proof.
  induction nbrs as [| nbr rest IH]; intros Hnd; [constructor |].
  simpl map in Hnd. apply NoDup_cons in Hnd. destruct Hnd as [Hnotin Hnd].
  rewrite omap_aged_cons. destruct (aged nbr) as [nbr' |] eqn:Hnbr;
    [| apply IH, Hnd].
  assert (Hid' : nbr_id nbr' = nbr_id nbr).
  { unfold aged in Hnbr. destruct (alive (age_nbr nbr) =? 0); [discriminate |].
    injection Hnbr as <-. reflexivity. }
  simpl map. apply NoDup_cons. split; [| apply IH, Hnd].
  rewrite Hid'. intros Hin. apply Hnotin.
  apply list_elem_of_In in Hin. apply list_elem_of_In.
  apply in_map_iff in Hin. destruct Hin as (n & Hid & Hn).
  apply list_elem_of_In, list_elem_of_omap in Hn. destruct Hn as (n0 & Hn0 & Haged).
  unfold aged in Haged. destruct (alive (age_nbr n0) =? 0); [discriminate |].
  injection Haged as <-. apply in_map_iff. exists n0.
  split; [exact Hid | apply list_elem_of_In, Hn0].
Qed.

Lemma age_ifaces_lookup (ifaces : list iface_info_t) (changed : Z) (k : nat)
    (iface : iface_info_t) :
  ifaces !! k = Some iface ->
  exists changed0,
    snd (age_ifaces changed ifaces) !! k
    = Some (set_nbrs iface
              (fst (fst (age_nbrs (num_nbr iface) changed0 (nbr_list iface))))
              (omap aged (nbr_list iface))).
Proof.
  revert changed k. induction ifaces as [| i0 rest IH]; intros changed k Hk;
    [discriminate |].
  simpl. pose proof (age_nbrs_list (num_nbr i0) changed (nbr_list i0)) as Hl.
  destruct (age_nbrs (num_nbr i0) changed (nbr_list i0)) as [[num ch1] nbrs] eqn:Ha.
  simpl in Hl. subst nbrs.
  destruct k as [| k]; simpl in Hk.
  - injection Hk as ->. exists changed.
    destruct (age_ifaces ch1 rest) as [ch2 rest']. simpl. rewrite Ha. reflexivity.
  - destruct (IH ch1 k Hk) as [changed0 Hrest]. exists changed0.
    destruct (age_ifaces ch1 rest) as [ch2 rest']. simpl in *. exact Hrest.
Qed.

Lemma age_ifaces_wf (ifaces : list iface_info_t) (changed : Z) :
  Forall iface_wf ifaces -> Forall iface_wf (snd (age_ifaces changed ifaces)).
Proof.
  revert changed. induction ifaces as [| i0 rest IH]; intros changed Hwf;
    [constructor |].
  apply Forall_cons in Hwf. destruct Hwf as [[Hnum Hnd] Hrest].
  simpl.
  pose proof (age_nbrs_list (num_nbr i0) changed (nbr_list i0)) as Hl.
  pose proof (age_nbrs_num (nbr_list i0) (num_nbr i0) changed 0) as Hn.
  destruct (age_nbrs (num_nbr i0) changed (nbr_list i0)) as [[num ch1] nbrs].
  simpl in Hl, Hn. subst nbrs.
  specialize (IH ch1 Hrest).
  destruct (age_ifaces ch1 rest) as [ch2 rest']. simpl in *.
  constructor; [| exact IH]. split; simpl.
  - rewrite Hn, Z.add_0_r; [reflexivity |]. rewrite Z.add_0_r. exact Hnum.
  - apply omap_aged_ids, Hnd.
Qed.

Lemma handle_mospf_hello_wf (s : mospf_state) (k : nat) (packet : hello_packet) :
  Forall iface_wf (iface_list (mospf_instance s)) ->
  Forall iface_wf (iface_list (mospf_instance (handle_mospf_hello s k packet))).
Proof.
  intros Hwf.
  destruct (iface_list (mospf_instance s) !! k) as [iface |] eqn:Hk.
  2: { unfold handle_mospf_hello. rewrite Hk. exact Hwf. }
  assert (Hiface : iface_wf iface).
  { revert Hk. apply Forall_lookup. exact Hwf. }
  destruct Hiface as [Hnum Hnd].
  destruct (refresh_nbr (ntohl (mospf_rid (hello_hdr packet))) (nbr_list iface))
    as [nbrs' |] eqn:Hr.
  - rewrite (handle_hello_known s k packet iface nbrs' Hk Hr). cbn.
    apply Forall_insert; [exact Hwf |].
    destruct (refresh_nbr_ids _ _ _ Hr) as [Hids Hlen].
    split; cbn; [rewrite Hlen; exact Hnum | rewrite Hids; exact Hnd].
  - rewrite (handle_hello_new s k packet iface Hk Hr). cbn.
    apply Forall_insert; [exact Hwf |]. split; cbn.
    + rewrite Hnum, to_int_idem_add, length_app. f_equal. simpl. lia.
    + rewrite map_app. simpl. apply NoDup_app. split; [exact Hnd |]. split.
      * intros x Hx Hin. apply list_elem_of_In in Hx.
        apply list_elem_of_In in Hin. destruct Hin as [<- | []].
        apply (refresh_nbr_None _ _ Hr Hx).
      * apply NoDup_singleton.
Qed.

(** X10.  From a state in which every interface's [num_nbr] is the length
    of its neighbour list and no interface lists a router twice, no
    sequence of Hellos and ageing rounds leads out of such states; and
    while an interface has fewer than 2^31 neighbours, [num_nbr] is their
    exact number. *)
Theorem nbr_tables_stay_well_formed (s : mospf_state) (inputs : list nbr_input) :
  Forall iface_wf (iface_list (mospf_instance s)) ->
  Forall (fun iface =>
            iface_wf iface /\
            (Z.of_nat (length (nbr_list iface)) < 2 ^ 31 ->
             num_nbr iface = Z.of_nat (length (nbr_list iface))))
         (iface_list (mospf_instance (nbr_steps s inputs))).
Proof.
  intros Hwf.
  assert (Hall : Forall iface_wf (iface_list (mospf_instance (nbr_steps s inputs)))).
  { unfold nbr_steps. revert s Hwf.
    induction inputs as [| input rest IH]; intros s Hwf; [exact Hwf |].
    simpl. apply IH. destruct input as [k packet |]; simpl.
    - apply handle_mospf_hello_wf, Hwf.
    - unfold checking_nbr_round.
      pose proof (age_ifaces_wf (iface_list (mospf_instance s))
                    (mospf_nbr_changed s) Hwf) as Ha.
      destruct (age_ifaces (mospf_nbr_changed s) (iface_list (mospf_instance s))).
      exact Ha. }
  eapply Forall_impl; [exact Hall |].
  intros iface [Hnum Hnd]. split; [split; assumption |].
  intros Hlt. rewrite Hnum. apply to_int_small. lia.
Qed.

Lemma omap_aged_removed (nbrs : list mospf_nbr_t) (nbr : mospf_nbr_t) :
  In nbr nbrs -> aged nbr = None ->
  (length (omap aged nbrs) < length nbrs)%nat.
Proof.
  induction nbrs as [| n0 rest IH]; intros Hin Hnone; [destruct Hin |].
  pose proof (omap_aged_length rest) as Hle.
  rewrite omap_aged_cons. destruct Hin as [-> | Hin].
  - rewrite Hnone. simpl length. lia.
  - specialize (IH Hin Hnone). destruct (aged n0); simpl length; lia.
Qed.

Lemma age_ifaces_changed (ifaces : list iface_info_t) (changed : Z) :
  (changed = 1 \/
   exists k iface, ifaces !! k = Some iface /\
     (length (omap aged (nbr_list iface)) < length (nbr_list iface))%nat) ->
  fst (age_ifaces changed ifaces) = 1.
Proof.
  revert changed. induction ifaces as [| i0 rest IH]; intros changed Hc.
  - destruct Hc as [Hc | (k & iface & Hk & _)]; [exact Hc | discriminate].
  - simpl.
    pose proof (age_nbrs_changed (nbr_list i0) (num_nbr i0) changed) as Hch.
    destruct (age_nbrs (num_nbr i0) changed (nbr_list i0)) as [[num ch1] nbrs].
    simpl in Hch.
    assert (Hrest : ch1 = 1 \/
              exists k iface, rest !! k = Some iface /\
                (length (omap aged (nbr_list iface)) < length (nbr_list iface))%nat).
    { destruct Hc as [Hc | (k & iface & Hk & Hlt)].
      - left. rewrite Hch, Hc. destruct (_ <? _)%nat; reflexivity.
      - destruct k as [| k]; simpl in Hk.
        + injection Hk as ->. left. rewrite Hch.
          apply Nat.ltb_lt in Hlt. rewrite Hlt. reflexivity.
        + right. exists k, iface. auto. }
    specialize (IH ch1 Hrest).
    destruct (age_ifaces ch1 rest) as [ch2 rest']. exact IH.
Qed.

(** One round of the ageing thread, seen from interface [k]. *)
Lemma checking_nbr_round_iface (s : mospf_state) (k : nat) (iface : iface_info_t) :
  iface_list (mospf_instance s) !! k = Some iface ->
  exists iface',
    iface_list (mospf_instance (checking_nbr_round s)) !! k = Some iface' /\
    nbr_list iface' = omap aged (nbr_list iface).
Proof.
  intros Hk. unfold checking_nbr_round.
  destruct (age_ifaces_lookup _ (mospf_nbr_changed s) k iface Hk) as [ch0 Hl].
  destruct (age_ifaces (mospf_nbr_changed s) (iface_list (mospf_instance s)))
    as [changed ifaces]. simpl in *.
  eexists. split; [exact Hl | reflexivity].
Qed.

Lemma checking_nbr_round_changed (s : mospf_state) :
  (mospf_nbr_changed s = 1 \/
   exists k iface, iface_list (mospf_instance s) !! k = Some iface /\
     (length (omap aged (nbr_list iface)) < length (nbr_list iface))%nat) ->
  mospf_nbr_changed (checking_nbr_round s) = 1.
Proof.
  intros Hc. unfold checking_nbr_round.
  pose proof (age_ifaces_changed _ _ Hc) as Ha.
  destruct (age_ifaces (mospf_nbr_changed s) (iface_list (mospf_instance s))).
  exact Ha.
Qed.

Lemma nbr_steps_snoc (s : mospf_state) (inputs : list nbr_input)
    (input : nbr_input) :
  nbr_steps s (inputs ++ [input]) = nbr_step (nbr_steps s inputs) input.
Proof. unfold nbr_steps. rewrite fold_left_app. reflexivity. Qed.

(** X11.  A Hello keeps its sender alive for MOSPF_NEIGHBOR_TIMEOUT
    seconds and no longer: [n] ageing rounds after the Hello the neighbour
    is still listed on the interface, with [alive] down by [n], as long as
    [n] is below the timeout; from the round that makes [n] equal to the
    timeout on it is gone and [nbr_changed] is set. *)
Theorem hello_then_ageing (s : mospf_state) (k : nat) (iface : iface_info_t)
    (packet : hello_packet) (n : nat) :
  let rid := ntohl (mospf_rid (hello_hdr packet)) in
  let s_n := nbr_steps (handle_mospf_hello s k packet) (repeat SecondPassed n) in
  iface_list (mospf_instance s) !! k = Some iface ->
  NoDup (map nbr_id (nbr_list iface)) ->
  0 < MOSPF_NEIGHBOR_TIMEOUT < 2 ^ ALIVE_WIDTH ->
  exists iface_n,
    iface_list (mospf_instance s_n) !! k = Some iface_n /\
    (Z.of_nat n < MOSPF_NEIGHBOR_TIMEOUT ->
       exists nbr, In nbr (nbr_list iface_n) /\ nbr_id nbr = rid /\
                   alive nbr = MOSPF_NEIGHBOR_TIMEOUT - Z.of_nat n) /\
    (MOSPF_NEIGHBOR_TIMEOUT <= Z.of_nat n ->
       ~ has_nbr rid iface_n /\ mospf_nbr_changed s_n = 1).
Proof.
  intros rid s_n Hk Hnd Ht.
  assert (Hinv : exists iface_n,
            iface_list (mospf_instance s_n) !! k = Some iface_n /\
            NoDup (map nbr_id (nbr_list iface_n)) /\
            (Z.of_nat n < MOSPF_NEIGHBOR_TIMEOUT ->
               exists nbr, In nbr (nbr_list iface_n) /\ nbr_id nbr = rid /\
                           alive nbr = MOSPF_NEIGHBOR_TIMEOUT - Z.of_nat n) /\
            (MOSPF_NEIGHBOR_TIMEOUT <= Z.of_nat n ->
               ~ has_nbr rid iface_n /\ mospf_nbr_changed s_n = 1)).
  2: { destruct Hinv as (iface_n & Hl & _ & Hrest). eauto. }
  subst s_n. induction n as [| n IH].
  - (* right after the Hello *)
    simpl repeat. unfold nbr_steps. simpl fold_left.
    pose proof (lookup_lt_Some _ _ _ Hk) as Hlt.
    destruct (refresh_nbr rid (nbr_list iface)) as [nbrs' |] eqn:Hr.
    + rewrite (handle_hello_known s k packet iface nbrs' Hk Hr).
      eexists. split; [cbn; apply list_lookup_insert_eq, Hlt |]. cbn.
      destruct (refresh_nbr_ids _ _ _ Hr) as [Hids _].
      split; [rewrite Hids; exact Hnd |]. split; [| lia].
      intros _. destruct (refresh_nbr_Some _ _ _ Hr) as (pos & nbr & Hpos & Hid & _ & ->).
      exists (set_alive nbr MOSPF_NEIGHBOR_TIMEOUT).
      split; [| split; [exact Hid | simpl; lia]].
      apply list_elem_of_In, list_elem_of_lookup. exists pos.
      apply list_lookup_insert_eq. apply (lookup_lt_Some _ _ _ Hpos).
    + rewrite (handle_hello_new s k packet iface Hk Hr).
      eexists. split; [cbn; apply list_lookup_insert_eq, Hlt |]. cbn.
      split.
      { rewrite map_app. simpl. apply NoDup_app. split; [exact Hnd |]. split.
        - intros x Hx Hin. apply list_elem_of_In in Hx.
          apply list_elem_of_In in Hin. destruct Hin as [<- | []].
          apply (refresh_nbr_None _ _ Hr Hx).
        - apply NoDup_singleton. }
      split; [| lia]. intros _. eexists. split.
      * apply in_or_app. right. left. reflexivity.
      * split; [reflexivity | simpl; lia].
  - (* one more round *)
    destruct IH as (iface_n & Hl & Hndn & Hlive & Hgone).
    assert (Hrep : repeat SecondPassed (S n) = repeat SecondPassed n ++ [SecondPassed])
      by (rewrite <- repeat_cons; reflexivity).
    rewrite Hrep, nbr_steps_snoc. simpl nbr_step.
    set (s_n := nbr_steps (handle_mospf_hello s k packet) (repeat SecondPassed n)) in *.
    destruct (checking_nbr_round_iface s_n k iface_n Hl) as (iface' & Hl' & Hlist).
    exists iface'. split; [exact Hl' |]. rewrite Hlist.
    split; [apply omap_aged_ids, Hndn |]. split.
    + intros Hlt.
      destruct Hlive as (nbr & Hin & Hid & Halive); [lia |].
      exists (age_nbr nbr).
      assert (Hage : alive (age_nbr nbr) = MOSPF_NEIGHBOR_TIMEOUT - Z.of_nat (S n)).
      { simpl. rewrite Halive. rewrite Z.mod_small by lia. lia. }
      split; [| split; [exact Hid | exact Hage]].
      apply list_elem_of_In, list_elem_of_omap. exists nbr.
      split; [apply list_elem_of_In, Hin |].
      unfold aged. rewrite Hage.
      destruct (Z.eqb_spec (MOSPF_NEIGHBOR_TIMEOUT - Z.of_nat (S n)) 0);
        [lia | reflexivity].
    + intros Hge.
      destruct (Z.lt_ge_cases (Z.of_nat n) MOSPF_NEIGHBOR_TIMEOUT) as [Hlt | Hge'].
      * (* the round in which the neighbour expires *)
        destruct Hlive as (nbr & Hin & Hid & Halive); [exact Hlt |].
        assert (Hnone : aged nbr = None).
        { unfold aged. simpl. rewrite Halive.
          replace (MOSPF_NEIGHBOR_TIMEOUT - Z.of_nat n - 1) with 0 by lia.
          rewrite Z.mod_0_l by lia. reflexivity. }
        split.
        -- intros (n' & Hin' & Hid'). rewrite Hlist in Hin'.
           apply list_elem_of_In, list_elem_of_omap in Hin'.
           destruct Hin' as (n0 & Hn0 & Haged).
           assert (Hid0 : nbr_id n0 = rid).
           { unfold aged in Haged. destruct (alive (age_nbr n0) =? 0);
               [discriminate |]. injection Haged as <-. exact Hid'. }
           assert (n0 = nbr); [| congruence].
           apply list_elem_of_lookup in Hn0. destruct Hn0 as [a Ha].
           apply list_elem_of_In, list_elem_of_lookup in Hin.
           destruct Hin as [b Hb].
           assert (a = b).
           { apply (NoDup_lookup (map nbr_id (nbr_list iface_n)) a b rid Hndn).
             - change (map nbr_id) with (fmap (M := list) nbr_id).
               rewrite list_lookup_fmap, Ha. simpl. congruence.
             - change (map nbr_id) with (fmap (M := list) nbr_id).
               rewrite list_lookup_fmap, Hb. simpl. congruence. }
           congruence.
        -- apply checking_nbr_round_changed. right. exists k, iface_n.
           split; [exact Hl |]. apply (omap_aged_removed _ nbr Hin Hnone).
      * (* it was gone before *)
        destruct (Hgone Hge') as [Habs Hch]. split.
        -- intros (n' & Hin' & Hid'). apply Habs. rewrite Hlist in Hin'.
           apply list_elem_of_In, list_elem_of_omap in Hin'.
           destruct Hin' as (n0 & Hn0 & Haged).
           exists n0. split; [apply list_elem_of_In, Hn0 |].
           unfold aged in Haged. destruct (alive (age_nbr n0) =? 0);
             [discriminate |]. injection Haged as <-. exact Hid'.
        -- apply checking_nbr_round_changed. left. exact Hch.
Qed.

End NbrInvariant.

Section LsdbProofs.
Context `{EtherEnv} `{MospfEnv}.

(** ** The link-state database *)

Lemma find_db_insert (rid : Z) (db : list mospf_db_entry_t) (pos : nat)
    (e' : mospf_db_entry_t) :
  find_db rid db = Some pos -> db_rid e' = rid ->
  find_db rid (<[pos := e']> db) = Some pos /\
  map db_rid (<[pos := e']> db) = map db_rid db.
Proof.
  revert pos. induction db as [| e rest IH]; intros pos Hf Hid; simpl in Hf.
  - discriminate.
  - destruct (Z.eqb_spec (db_rid e) rid) as [Heq | Hne].
    + injection Hf as <-. simpl. rewrite Hid, Z.eqb_refl, Heq. auto.
    + destruct (find_db rid rest) as [n |] eqn:Hrest; [| discriminate].
      injection Hf as <-. destruct (IH n eq_refl Hid) as [Hf' Hm].
      simpl. destruct (Z.eqb_spec (db_rid e) rid); [contradiction |].
      rewrite Hf', Hm. auto.
Qed.

Lemma find_db_None_notin (rid : Z) (db : list mospf_db_entry_t) :
  find_db rid db = None -> ~ In rid (map db_rid db).
Proof.
  intros Hnone Hin. apply in_map_iff in Hin. destruct Hin as (e & Hid & He).
  apply (proj1 (find_db_None rid db) Hnone e He Hid).
Qed.

(** What [handle_mospf_lsu] does, in one equation: [db0] is the LSDB after
    the lookup (with the fresh entry when there was none), [pos] the place
    of the entry of the sender and [e] that entry. *)
Lemma handle_mospf_lsu_unfold (s : mospf_state) (k : nat) (packet : lsu_packet)
    (fresh_nadv : Z) (fresh_array : list mospf_lsa) :
  let rid := ntohl (mospf_rid (lsu_hdr packet)) in
  let seq := ntohs (lsu_seq (lsu_body packet)) in
  let nadv := to_int (ntohl (lsu_nadv (lsu_body packet))) in
  let inserted := {| db_rid := rid; db_seq := 0; db_nadv := fresh_nadv;
                     db_array := fresh_array |} in
  let db0 := match find_db rid (mospf_db s) with
             | Some _ => mospf_db s
             | None => mospf_db s ++ [inserted]
             end in
  let e' := {| db_rid := rid; db_seq := seq; db_nadv := nadv;
               db_array := map lsa_to_host
                             (lsa_cells (Z.to_nat nadv) (lsu_lsas packet)) |} in
  exists pos e,
    find_db rid db0 = Some pos /\ db0 !! pos = Some e /\ db_rid e = rid /\
    db_seq e = stored_seq s rid /\
    handle_mospf_lsu s k packet fresh_nadv fresh_array =
      if db_seq e <? seq
      then (set_db s (<[pos := e']> db0),
            clones nadv (age_packet packet) (ether_shost (lsu_eth packet))
                   (flood_targets k 0 (iface_list (mospf_instance s))))
      else (set_db s db0, []).
Proof.
  intros rid seq nadv inserted db0 e'.
  unfold handle_mospf_lsu, stored_seq. fold rid inserted seq nadv.
  subst db0. destruct (find_db rid (mospf_db s)) as [pos |] eqn:Hf.
  - destruct (find_db_Some _ _ _ Hf) as (e & He & Hid & _).
    exists pos, e. rewrite He. simpl.
    split; [exact Hf |]. split; [reflexivity |]. split; [exact Hid |].
    split; [reflexivity |].
    destruct (db_seq e <? seq); [| reflexivity].
    rewrite Hid. f_equal.
    rewrite <- (with_shost_same (age_packet packet)) at 1.
    rewrite flood_ifaces_clones. reflexivity.
  - exists (length (mospf_db s)), inserted.
    assert (Hl : (mospf_db s ++ [inserted]) !! length (mospf_db s) = Some inserted).
    { rewrite lookup_app_r, Nat.sub_diag by lia. reflexivity. }
    rewrite Hl.
    split; [apply find_db_app_new; [exact Hf | reflexivity] |].
    split; [reflexivity |]. split; [reflexivity |]. split; [reflexivity |].
    destruct (db_seq inserted <? seq); [| reflexivity].
    f_equal.
    rewrite <- (with_shost_same (age_packet packet)) at 1.
    rewrite flood_ifaces_clones. reflexivity.
Qed.

Lemma update_self_db_rids (rid seq nadv : Z) (array : list mospf_lsa)
    (db db' : list mospf_db_entry_t) :
  update_self_db rid seq nadv array db = Some db' ->
  map db_rid db' = map db_rid db.
Proof.
  revert db'. induction db as [| e rest IH]; intros db' Hu; simpl in Hu.
  - discriminate.
  - destruct (db_rid e =? rid).
    + injection Hu as <-. reflexivity.
    + destruct (update_self_db rid seq nadv array rest) as [rest' |];
        [| discriminate].
      injection Hu as <-. simpl. rewrite (IH _ eq_refl). reflexivity.
Qed.

(** X12.  "At most one LSDB entry for a router" is kept by both writers of
    the LSDB: the LSU handler, whatever packet arrives, and the LSU
    emitter. *)
Theorem lsdb_keeps_one_entry_per_router (s : mospf_state) (k : nat)
    (packet : lsu_packet) (fresh_nadv : Z) (fresh_array : list mospf_lsa)
    (fresh : lsu_packet) (rand : Z) :
  db_wf (mospf_db s) ->
  db_wf (mospf_db (fst (handle_mospf_lsu s k packet fresh_nadv fresh_array))) /\
  db_wf (mospf_db (fst (emit_lsu s fresh rand))).
Proof.
  unfold db_wf. intros Hwf. split.
  - destruct (handle_mospf_lsu_unfold s k packet fresh_nadv fresh_array)
      as (pos & e & Hpos & He & Hid & _ & ->).
    set (rid := ntohl (mospf_rid (lsu_hdr packet))) in *.
    assert (Hwf0 : NoDup (map db_rid
              match find_db rid (mospf_db s) with
              | Some _ => mospf_db s
              | None => mospf_db s ++ [{| db_rid := rid; db_seq := 0;
                                          db_nadv := fresh_nadv;
                                          db_array := fresh_array |}]
              end)).
    { destruct (find_db rid (mospf_db s)) eqn:Hf; [exact Hwf |].
      rewrite map_app. simpl. apply NoDup_app. split; [exact Hwf |]. split.
      - intros x Hx Hin. apply list_elem_of_In in Hx, Hin.
        destruct Hin as [<- | []]. apply (find_db_None_notin _ _ Hf Hx).
      - apply NoDup_singleton. }
    destruct (db_seq e <? _); simpl; [| exact Hwf0].
    match goal with
    | |- NoDup (map db_rid (<[pos := ?e']> ?db)) =>
        rewrite (proj2 (find_db_insert rid db pos e' Hpos eq_refl))
    end.
    exact Hwf0.
  - unfold emit_lsu. simpl. unfold upsert_self_db.
    destruct (update_self_db _ _ _ _ (mospf_db s)) as [db' |] eqn:Hu.
    + rewrite (update_self_db_rids _ _ _ _ _ _ Hu). exact Hwf.
    + rewrite map_app. simpl. apply NoDup_app. split; [exact Hwf |]. split.
      * intros x Hx Hin. apply list_elem_of_In in Hx, Hin.
        destruct Hin as [<- | []].
        apply (find_db_None_notin _ _ (update_self_db_None _ _ _ _ _ Hu) Hx).
      * apply NoDup_singleton.
Qed.

(** X13.  An LSU is handled once: when the same packet arrives again, on
    whatever interface, it is dropped, nothing is sent and the state stays
    as the first call left it. *)
Theorem lsu_replay_is_dropped (s : mospf_state) (k k' : nat)
    (packet : lsu_packet) (fresh_nadv fresh_nadv' : Z)
    (fresh_array fresh_array' : list mospf_lsa) :
  let s1 := fst (handle_mospf_lsu s k packet fresh_nadv fresh_array) in
  handle_mospf_lsu s1 k' packet fresh_nadv' fresh_array' = (s1, []).
Proof.
  intros s1.
  destruct (handle_mospf_lsu_unfold s k packet fresh_nadv fresh_array)
    as (pos & e & Hpos & He & Hid & _ & Heq).
  set (rid := ntohl (mospf_rid (lsu_hdr packet))) in *.
  set (seq := ntohs (lsu_seq (lsu_body packet))) in *.
  assert (Hs1 : exists db1 e1, s1 = set_db s db1 /\ find_db rid db1 = Some pos /\
                  db1 !! pos = Some e1 /\ seq <= db_seq e1).
  { subst s1. rewrite Heq. destruct (Z.ltb_spec (db_seq e) seq) as [Hlt | Hge].
    - eexists. eexists. split; [reflexivity |].
      split; [apply find_db_insert; [exact Hpos | reflexivity] |].
      split; [apply list_lookup_insert_eq, (lookup_lt_Some _ _ _ He) |].
      simpl. lia.
    - eexists. exists e. split; [reflexivity |]. auto. }
  destruct Hs1 as (db1 & e1 & -> & Hf1 & He1 & Hle).
  unfold handle_mospf_lsu. fold rid seq. cbn [mospf_db set_db].
  rewrite Hf1, He1.
  destruct (Z.ltb_spec (db_seq e1) seq); [lia | reflexivity].
Qed.

(** X14.  The LSU handler never removes an LSDB entry, never moves one,
    never lowers a sequence number, and touches no entry but the one of
    the router the packet names. *)
Theorem lsu_handler_only_advances (s : mospf_state) (k : nat)
    (packet : lsu_packet) (fresh_nadv : Z) (fresh_array : list mospf_lsa)
    (j : nat) (e_old : mospf_db_entry_t) :
  let s' := fst (handle_mospf_lsu s k packet fresh_nadv fresh_array) in
  mospf_db s !! j = Some e_old ->
  exists e_new,
    mospf_db s' !! j = Some e_new /\
    db_rid e_new = db_rid e_old /\
    db_seq e_old <= db_seq e_new /\
    (db_rid e_old <> ntohl (mospf_rid (lsu_hdr packet)) -> e_new = e_old).
Proof.
  intros s' Hj.
  destruct (handle_mospf_lsu_unfold s k packet fresh_nadv fresh_array)
    as (pos & e & Hpos & He & Hid & _ & Heq).
  set (rid := ntohl (mospf_rid (lsu_hdr packet))) in *.
  set (seq := ntohs (lsu_seq (lsu_body packet))) in *.
  set (db0 := match find_db rid (mospf_db s) with
              | Some _ => mospf_db s
              | None => mospf_db s ++ _
              end) in *.
  assert (Hj0 : db0 !! j = Some e_old).
  { subst db0. destruct (find_db rid (mospf_db s)); [exact Hj |].
    apply lookup_app_l_Some, Hj. }
  subst s'. rewrite Heq.
  destruct (Z.ltb_spec (db_seq e) seq) as [Hlt | Hge]; cbn [fst mospf_db set_db].
  - destruct (Nat.eq_dec j pos) as [-> | Hne].
    + rewrite He in Hj0. injection Hj0 as <-.
      eexists. split; [apply list_lookup_insert_eq, (lookup_lt_Some _ _ _ He) |].
      simpl. split; [auto |]. split; [lia |]. intros Hne. contradiction.
    + exists e_old. split; [rewrite list_lookup_insert_ne by auto; exact Hj0 |].
      split; [reflexivity |]. split; [lia | reflexivity].
  - exists e_old. split; [exact Hj0 |].
    split; [reflexivity |]. split; [lia | reflexivity].
Qed.

End LsdbProofs.

Section FloodProofs.
Context `{EtherEnv} `{MospfEnv}.

(** ** Flooding *)







End FloodProofs.

Section EmitProofs.
Context `{EtherEnv} `{MospfEnv}.

(** ** The LSU emitter, and an LSU on its way from one router to the next *)

Lemma iface_lsas_length (iface : iface_info_t) :
  iface_counted iface ->
  (if num_nbr iface =? 0 then 1 else num_nbr iface)
  = Z.of_nat (length (iface_lsas iface)).
Proof.
  unfold iface_counted, iface_lsas. intros ->.
  destruct (nbr_list iface) as [| nbr rest]; [reflexivity |].
  rewrite length_map.
  destruct (Z.eqb_spec (Z.of_nat (length (nbr :: rest))) 0) as [Hz | _];
    [simpl in Hz; lia | reflexivity].
Qed.

Lemma count_nadv_from (ifaces : list iface_info_t) (acc : Z) :
  Forall iface_counted ifaces ->
  0 <= acc -> acc + Z.of_nat (length (build_lsa_list ifaces)) < 2 ^ 31 ->
  fold_left
    (fun nadv iface =>
       to_int (nadv + (if num_nbr iface =? 0 then 1 else num_nbr iface)))
    ifaces acc
  = acc + Z.of_nat (length (build_lsa_list ifaces)).
Proof.
  unfold build_lsa_list.
  revert acc. induction ifaces as [| iface rest IH]; intros acc Hc Hacc Hlt.
  - simpl. lia.
  - apply Forall_cons in Hc. destruct Hc as [Hi Hrest].
    cbn [fold_left flat_map] in *. rewrite length_app, Nat2Z.inj_add in *.
    rewrite (iface_lsas_length iface Hi).
    rewrite to_int_small by lia. rewrite IH by (auto; lia). lia.
Qed.

(** With the counters right, the number of LSAs the emitter announces is
    the number it wrote. *)
Lemma count_nadv_counted (ifaces : list iface_info_t) :
  Forall iface_counted ifaces ->
  Z.of_nat (length (build_lsa_list ifaces)) < 2 ^ 31 ->
  count_nadv ifaces = Z.of_nat (length (build_lsa_list ifaces)).
Proof.
  intros Hc Hlt. unfold count_nadv. rewrite count_nadv_from; auto; lia.
Qed.

Lemma emit_ifaces_In (n : nat) (nadv : Z) (packet : lsu_packet)
    (ifaces : list iface_info_t) (c : lsu_sent) :
  In c (emit_ifaces n nadv packet ifaces) <->
  exists j iface nbr,
    ifaces !! j = Some iface /\ In nbr (nbr_list iface) /\
    c = emit_nbr (n + j) iface nadv packet nbr.
Proof.
  revert n. induction ifaces as [| iface0 rest IH]; intros n; simpl.
  - split; [intros [] | intros (j & iface & nbr & Hl & _); discriminate].
  - rewrite in_app_iff, IH, in_map_iff. split.
    + intros [(nbr & <- & Hn) | (j & iface & nbr & Hl & Hn & ->)].
      * exists 0%nat, iface0, nbr. rewrite Nat.add_0_r. auto.
      * exists (S j), iface, nbr. rewrite Nat.add_succ_r. auto.
    + intros (j & iface & nbr & Hl & Hn & ->). destruct j as [| j].
      * left. injection Hl as ->. exists nbr. rewrite Nat.add_0_r. auto.
      * right. exists j, iface, nbr. rewrite Nat.add_succ_r. auto.
Qed.

Lemma emit_ifaces_length (n : nat) (nadv : Z) (packet : lsu_packet)
    (ifaces : list iface_info_t) :
  length (emit_ifaces n nadv packet ifaces) = total_nbrs ifaces.
Proof.
  unfold total_nbrs. revert n. induction ifaces as [| iface rest IH];
    intros n; simpl; [reflexivity |].
  rewrite !length_app, length_map, IH. reflexivity.
Qed.

Lemma land_u32 (a b : Z) : u32_ok a -> u32_ok b -> u32_ok (Z.land a b).
Proof.
  unfold u32_ok. intros Ha Hb. split.
  - apply Z.land_nonneg. lia.
  - destruct (Z.eq_dec a 0) as [-> | Hne]; [rewrite Z.land_0_l; lia |].
    assert (Hlog : Z.log2 (Z.land a b) <= Z.log2 a).
    { etransitivity; [apply Z.log2_land; lia |]. apply Z.le_min_l. }
    destruct (Z.eq_dec (Z.land a b) 0) as [-> | Hne']; [lia |].
    assert (Hpos : 0 < Z.land a b).
    { pose proof (proj2 (Z.land_nonneg a b) (or_introl (proj1 Ha))). lia. }
    apply Z.log2_lt_pow2; [exact Hpos |].
    assert (Hla : Z.log2 a < 32) by (apply Z.log2_lt_pow2; lia). lia.
Qed.

Lemma build_lsa_list_in_range (ifaces : list iface_info_t) :
  Forall iface_in_range ifaces -> Forall lsa_in_range (build_lsa_list ifaces).
Proof.
  unfold build_lsa_list. induction 1 as [| iface rest Hi _ IH]; simpl.
  - constructor.
  - apply Forall_app. split; [| exact IH].
    destruct Hi as (Hip & Hmask & Hn). unfold iface_lsas.
    destruct (nbr_list iface) as [| nbr nbrs] eqn:Hlist.
    + constructor; [| constructor]. unfold lsa_in_range. simpl.
      split; [apply land_u32; assumption |].
      split; [exact Hmask | unfold u32_ok; lia].
    + apply Forall_forall. intros lsa Hl.
      apply list_elem_of_In, in_map_iff in Hl. destruct Hl as (x & <- & Hx).
      apply list_elem_of_In in Hx.
      destruct (proj1 (Forall_forall _ _) Hn x Hx) as (Hid & Hxip & Hxmask).
      unfold lsa_in_range, nbr_lsa. simpl.
      split; [apply land_u32; assumption | auto].
Qed.

(** The LSAs survive the way over the wire. *)
Lemma lsa_round_trip (lsas : list mospf_lsa) :
  Forall lsa_in_range lsas -> map lsa_to_host (map lsa_to_net lsas) = lsas.
Proof.
  induction 1 as [| lsa rest (Hs & Hm & Hr) _ IH]; simpl; [reflexivity |].
  rewrite IH. f_equal. destruct lsa as [subnet mask rid].
  unfold lsa_to_host, lsa_to_net, ntohl, htonl. simpl in *.
  rewrite !bswap32_involutive by assumption. reflexivity.
Qed.

(** What a receiver reads from a packet of the emitter. *)
Lemma emitted_packet_decodes (s : mospf_state) (fresh : lsu_packet) (rand : Z)
    (c : lsu_sent) :
  let inst := mospf_instance s in
  let lsas := build_lsa_list (iface_list inst) in
  Forall iface_counted (iface_list inst) ->
  Z.of_nat (length lsas) < 2 ^ 31 ->
  u32_ok (router_id inst) ->
  In c (snd (emit_lsu s fresh rand)) ->
  ntohl (mospf_rid (lsu_hdr (sent_packet c))) = router_id inst /\
  ntohs (lsu_seq (lsu_body (sent_packet c))) = to_u16 (sequence_num inst + 1) /\
  to_int (ntohl (lsu_nadv (lsu_body (sent_packet c)))) = Z.of_nat (length lsas) /\
  lsu_lsas (sent_packet c) = map lsa_to_net lsas.
Proof.
  intros inst lsas Hc Hlt Hrid Hin.
  unfold emit_lsu in Hin. cbn [snd] in Hin. fold inst lsas in Hin.
  rewrite (count_nadv_counted _ Hc Hlt) in Hin. fold lsas in Hin.
  apply emit_ifaces_In in Hin. destruct Hin as (j & iface & nbr & _ & _ & ->).
  cbn [emit_nbr sent_packet lsu_hdr lsu_body lsu_lsas build_lsu].
  assert (Hlen : 0 <= Z.of_nat (length lsas) < 2 ^ 32) by lia.
  split; [| split; [| split]].
  - destruct (lsu_hdr fresh). cbn. unfold ntohl, htonl.
    apply bswap32_involutive. exact Hrid.
  - cbn. unfold ntohs, htons. apply bswap16_involutive.
    unfold to_u16. apply Z.mod_pos_bound. lia.
  - cbn. unfold ntohl, htonl, to_u32.
    rewrite Z.mod_small by exact Hlen.
    rewrite bswap32_involutive by exact Hlen. apply to_int_small. lia.
  - rewrite Nat2Z.id, lsa_cells_all. reflexivity.
Qed.

(** X16.  One round of the LSU emitter on a router whose neighbour
    counters are right: the packet announces as many LSAs as it carries,
    one for every neighbour and a stub for every interface without one;
    a copy goes to every neighbour of every interface, with the MAC and
    the address of that interface as source, the address of the neighbour
    as destination and both TTLs fresh; and the local LSDB entry lists the
    same LSAs. *)
Theorem emit_lsu_advertises_every_link (s : mospf_state) (fresh : lsu_packet)
    (rand : Z) :
  let inst := mospf_instance s in
  let ifaces := iface_list inst in
  let lsas := build_lsa_list ifaces in
  let s' := fst (emit_lsu s fresh rand) in
  let sent := snd (emit_lsu s fresh rand) in
  Forall iface_counted ifaces ->
  Z.of_nat (length lsas) < 2 ^ 31 ->
  u32_ok (router_id inst) ->
  (length lsas = total_nbrs ifaces
                 + length (filter (fun iface => nbr_list iface = []) ifaces))%nat /\
  Forall (fun c =>
      to_int (ntohl (lsu_nadv (lsu_body (sent_packet c))))
        = Z.of_nat (length (lsu_lsas (sent_packet c))) /\
      lsu_lsas (sent_packet c) = map lsa_to_net lsas /\
      ntohl (mospf_rid (lsu_hdr (sent_packet c))) = router_id inst /\
      ip_ttl (lsu_ip (sent_packet c)) = DEFAULT_TTL /\
      lsu_ttl (lsu_body (sent_packet c)) = MOSPF_MAX_LSU_TTL /\
      exists iface nbr,
        ifaces !! sent_iface c = Some iface /\ In nbr (nbr_list iface) /\
        sent_dst_ip c = nbr_ip nbr /\
        ether_shost (lsu_eth (sent_packet c)) = iface_mac iface /\
        ip_saddr (lsu_ip (sent_packet c)) = htonl (iface_ip iface) /\
        ip_daddr (lsu_ip (sent_packet c)) = htonl (nbr_ip nbr))
    sent /\
  (forall n iface nbr,
      ifaces !! n = Some iface -> In nbr (nbr_list iface) ->
      exists c, In c sent /\ sent_iface c = n /\ sent_dst_ip c = nbr_ip nbr) /\
  length sent = total_nbrs ifaces /\
  self_entry s' = Some {| db_rid := router_id inst;
                          db_seq := sequence_num inst;
                          db_nadv := Z.of_nat (length lsas);
                          db_array := lsas |}.
Proof.
  intros inst ifaces lsas s' sent Hc Hlt Hrid.
  split; [| split; [| split; [| split]]].
  - subst lsas. unfold build_lsa_list, total_nbrs. clear.
    induction ifaces as [| iface rest IH]; [reflexivity |].
    cbn [flat_map]. rewrite filter_cons, !length_app, IH. unfold iface_lsas.
    destruct (decide (nbr_list iface = [])) as [Hnil | Hne].
    + rewrite Hnil. simpl. lia.
    + destruct (nbr_list iface) as [| nbr nbrs]; [contradiction |].
      rewrite length_map. lia.
  - apply Forall_forall. intros c Hin. apply list_elem_of_In in Hin.
    destruct (emitted_packet_decodes s fresh rand c Hc Hlt Hrid Hin)
      as (Hr & _ & Hn & Hl).
    fold inst ifaces lsas in Hr, Hn, Hl.
    split; [rewrite Hn, Hl, length_map; reflexivity |].
    split; [exact Hl |]. split; [exact Hr |].
    subst sent. unfold emit_lsu in Hin. cbn [snd] in Hin.
    apply emit_ifaces_In in Hin. destruct Hin as (j & iface & nbr & Hj & Hnbr & ->).
    cbn. split; [reflexivity |]. split; [reflexivity |].
    exists iface, nbr. auto 10.
  - intros n iface nbr Hl Hn. eexists. split.
    + subst sent. unfold emit_lsu. cbn [snd]. apply emit_ifaces_In.
      exists n, iface, nbr. split; [exact Hl |]. split; [exact Hn | reflexivity].
    + split; reflexivity.
  - subst sent. unfold emit_lsu. cbn [snd]. apply emit_ifaces_length.
  - subst s'. unfold self_entry, emit_lsu. cbn [fst mospf_instance mospf_db
      set_sequence_num router_id].
    fold inst ifaces lsas. rewrite (count_nadv_counted _ Hc Hlt). fold lsas.
    destruct (upsert_self_db_entry (router_id inst) (sequence_num inst)
                (Z.of_nat (length lsas)) lsas (mospf_db s)) as (pos & Hf & Hl).
    destruct inst. cbn in *. rewrite Hf. exact Hl.
Qed.

(** The entry the LSU handler leaves for the sender of a packet with a
    newer sequence number. *)
Lemma handle_mospf_lsu_stores (s : mospf_state) (k : nat) (packet : lsu_packet)
    (fresh_nadv : Z) (fresh_array : list mospf_lsa) :
  let rid := ntohl (mospf_rid (lsu_hdr packet)) in
  let seq := ntohs (lsu_seq (lsu_body packet)) in
  let nadv := to_int (ntohl (lsu_nadv (lsu_body packet))) in
  stored_seq s rid < seq ->
  db_entry_of rid
    (mospf_db (fst (handle_mospf_lsu s k packet fresh_nadv fresh_array)))
  = Some {| db_rid := rid; db_seq := seq; db_nadv := nadv;
            db_array := map lsa_to_host
                          (lsa_cells (Z.to_nat nadv) (lsu_lsas packet)) |}.
Proof.
  intros rid seq nadv Hgate.
  destruct (handle_mospf_lsu_unfold s k packet fresh_nadv fresh_array)
    as (pos & e & Hpos & He & _ & Hseq & ->).
  fold rid seq nadv in Hpos, He, Hseq |- *.
  rewrite Hseq. destruct (Z.ltb_spec (stored_seq s rid) seq); [| lia].
  cbn [fst mospf_db set_db]. unfold db_entry_of.
  match goal with
  | |- context [find_db rid (<[pos := ?e']> ?db)] =>
      rewrite (proj1 (find_db_insert rid db pos e' Hpos eq_refl))
  end.
  simpl. apply list_lookup_insert_eq, (lookup_lt_Some _ _ _ He).
Qed.

(** X17.  An LSU from router A to router B: when B handles any of the
    packets of a round of A's emitter and has not seen that sequence
    number from A, B's LSDB entry for A holds exactly the links A
    advertised (one LSA for every neighbour of A, a stub for every
    interface without one), in host byte order, with A's new sequence
    number. *)
Theorem lsu_round_trip (sA sB : mospf_state) (fresh : lsu_packet) (rand : Z)
    (c : lsu_sent) (k : nat) (fresh_nadv : Z) (fresh_array : list mospf_lsa) :
  let instA := mospf_instance sA in
  let lsas := build_lsa_list (iface_list instA) in
  let sA' := fst (emit_lsu sA fresh rand) in
  let sB' := fst (handle_mospf_lsu sB k (sent_packet c) fresh_nadv fresh_array) in
  Forall iface_counted (iface_list instA) ->
  Forall iface_in_range (iface_list instA) ->
  Z.of_nat (length lsas) < 2 ^ 31 ->
  u32_ok (router_id instA) ->
  In c (snd (emit_lsu sA fresh rand)) ->
  stored_seq sB (router_id instA) < sequence_num (mospf_instance sA') ->
  db_entry_of (router_id instA) (mospf_db sB')
  = Some {| db_rid := router_id instA;
            db_seq := sequence_num (mospf_instance sA');
            db_nadv := Z.of_nat (length lsas);
            db_array := lsas |}.
Proof.
  intros instA lsas sA' sB' Hc Hr Hlt Hrid Hin Hgate.
  destruct (emitted_packet_decodes sA fresh rand c Hc Hlt Hrid Hin)
    as (Hid & Hseq & Hn & Hl).
  fold instA lsas in Hid, Hseq, Hn, Hl.
  assert (HsA' : sequence_num (mospf_instance sA') = to_u16 (sequence_num instA + 1))
    by reflexivity.
  rewrite HsA' in *.
  pose proof (handle_mospf_lsu_stores sB k (sent_packet c) fresh_nadv fresh_array)
    as Hst.
  cbv zeta in Hst. rewrite Hid, Hseq, Hn, Hl in Hst.
  subst sB'. rewrite (Hst Hgate). f_equal. f_equal.
  rewrite Nat2Z.id, <- (length_map lsa_to_net), lsa_cells_all.
  apply lsa_round_trip, build_lsa_list_in_range, Hr.
Qed.

End EmitProofs.

Section HelloProofs.
Context `{EtherEnv} `{MospfEnv} `{HelloEnv}.

(** ** A Hello on its way from one router to the next *)

Lemma has_nbr_refresh (rid : Z) (iface : iface_info_t) :
  ~ has_nbr rid iface -> refresh_nbr rid (nbr_list iface) = None.
Proof.
  unfold has_nbr. intros Hno.
  induction (nbr_list iface) as [| nbr rest IH]; simpl; [reflexivity |].
  destruct (Z.eqb_spec (nbr_id nbr) rid) as [Heq | Hne].
  - exfalso. apply Hno. exists nbr. simpl. auto.
  - rewrite IH; [reflexivity |].
    intros (x & Hx & Hid). apply Hno. exists x. simpl. auto.
Qed.

(** X18.  A Hello from router A to router B: in a round of A's Hello
    thread one packet goes out on every interface, to the multicast
    addresses 01:00:5E:00:00:05 and 224.0.0.5, with the MAC and the address
    of that interface as source; when B receives the one of A's interface
    [n] on an interface where it does not know A yet, it appends a
    neighbour with A's router id, the address and the mask of A's
    interface and a full [alive], counts it and sets [nbr_changed]. *)
Theorem hello_round_trip (sA sB : mospf_state) (fresh : hello_packet)
    (n : nat) (ifaceA : iface_info_t) (k : nat) (ifaceB : iface_info_t) :
  let instA := mospf_instance sA in
  let sent := sending_mospf_hello_round sA fresh in
  iface_list instA !! n = Some ifaceA ->
  u32_ok (router_id instA) ->
  u32_ok (iface_ip ifaceA) -> u32_ok (iface_mask ifaceA) ->
  iface_list (mospf_instance sB) !! k = Some ifaceB ->
  ~ has_nbr (router_id instA) ifaceB ->
  length sent = length (iface_list instA) /\
  exists h,
    sent !! n = Some h /\ hsent_iface h = n /\
    ether_dhost (hello_eth (hsent_packet h)) = [0x01; 0x00; 0x5E; 0x00; 0x00; 0x05] /\
    ether_shost (hello_eth (hsent_packet h)) = iface_mac ifaceA /\
    ip_daddr (hello_ip (hsent_packet h)) = htonl 0xE0000005 /\
    ip_saddr (hello_ip (hsent_packet h)) = htonl (iface_ip ifaceA) /\
    let sB' := handle_mospf_hello sB k (hsent_packet h) in
    iface_list (mospf_instance sB') !! k
    = Some (set_nbrs ifaceB (to_int (num_nbr ifaceB + 1))
              (nbr_list ifaceB ++
               [{| nbr_id := router_id instA;
                   nbr_ip := iface_ip ifaceA;
                   nbr_mask := iface_mask ifaceA;
                   alive := MOSPF_NEIGHBOR_TIMEOUT |}])) /\
    mospf_nbr_changed sB' = 1 /\
    (forall j, j <> k ->
       iface_list (mospf_instance sB') !! j = iface_list (mospf_instance sB) !! j).
Proof.
  intros instA sent Hn Hrid Hip Hmask Hk Hno. subst sent.
  unfold sending_mospf_hello_round. fold instA.
  split; [apply length_imap |].
  eexists. split; [rewrite list_lookup_imap, Hn; reflexivity |].
  cbn [hello_for hsent_iface hsent_packet hello_eth hello_ip hello_template
       set_shost ether_dhost ether_shost].
  split; [reflexivity |]. split; [reflexivity |]. split; [reflexivity |].
  split; [reflexivity |]. split; [reflexivity |].
  set (packet := {| hello_eth := _ |}).
  assert (Hr : ntohl (mospf_rid (hello_hdr packet)) = router_id instA).
  { subst packet. cbn. unfold ntohl, htonl. apply bswap32_involutive, Hrid. }
  assert (Hs : ntohl (ip_saddr (hello_ip packet)) = iface_ip ifaceA).
  { subst packet. cbn. unfold ntohl, htonl. apply bswap32_involutive, Hip. }
  assert (Hm : ntohl (hello_mask (hello_body packet)) = iface_mask ifaceA).
  { subst packet. cbn. unfold ntohl, htonl. apply bswap32_involutive, Hmask. }
  clearbody packet.
  rewrite (handle_hello_new sB k packet ifaceB Hk)
    by (rewrite Hr; apply has_nbr_refresh, Hno).
  rewrite Hr, Hs, Hm. cbn. split; [| split; [reflexivity |]].
  - apply list_lookup_insert_eq, (lookup_lt_Some _ _ _ Hk).
  - intros j Hj. apply list_lookup_insert_ne. auto.
Qed.

End HelloProofs.

Section LookupProofs.

(** ** [gw_to_iface] and [subnet_to_iface] *)

Lemma find_index_Some {A : Type} (f : A -> bool) (l : list A) (n : nat) :
  find_index f l = Some n <->
  (exists x, l !! n = Some x /\ f x = true) /\
  (forall j y, (j < n)%nat -> l !! j = Some y -> f y = false).
Proof.
  revert n. induction l as [| a rest IH]; intros n; simpl.
  - split; [discriminate | intros [(x & Hx & _) _]; discriminate].
  - destruct (f a) eqn:Hfa.
    + split.
      * intros [= <-]. split; [exists a; auto |]. intros j y Hj; lia.
      * intros [(x & Hx & Hfx) Hbefore]. destruct n as [| n]; [reflexivity |].
        specialize (Hbefore 0%nat a (Nat.lt_0_succ n) eq_refl). congruence.
    + destruct (find_index f rest) as [m |] eqn:Hrest.
      * split.
        -- intros [= <-]. destruct (proj1 (IH m) eq_refl) as [Hx Hbefore].
           split; [exact Hx |]. intros [| j] y Hj Hy.
           ++ injection Hy as <-. exact Hfa.
           ++ apply (Hbefore j y); [lia | exact Hy].
        -- intros [(x & Hx & Hfx) Hbefore]. destruct n as [| n].
           ++ injection Hx as <-. congruence.
           ++ f_equal. assert (Hn : Some m = Some n); [| congruence].
              apply IH. split; [exists x; auto |].
              intros j y Hj Hy. apply (Hbefore (S j) y); [lia | exact Hy].
      * split; [discriminate |].
        intros [(x & Hx & Hfx) Hbefore]. destruct n as [| n].
        -- injection Hx as <-. congruence.
        -- assert (Hn : None = Some n); [| discriminate].
           apply IH. split; [exists x; auto |].
           intros j y Hj Hy. apply (Hbefore (S j) y); [lia | exact Hy].
Qed.

Lemma find_index_None {A : Type} (f : A -> bool) (l : list A) :
  find_index f l = None <-> forall x, In x l -> f x = false.
Proof.
  induction l as [| a rest IH]; simpl.
  - split; [intros _ x [] | reflexivity].
  - destruct (f a) eqn:Hfa.
    + split; [discriminate |]. intros Hall.
      specialize (Hall a (or_introl eq_refl)). congruence.
    + destruct (find_index f rest) as [m |].
      * split; [discriminate |]. intros Hall.
        assert (Hn : Some m = None); [| discriminate].
        apply IH. intros x Hx. apply Hall. auto.
      * split; [| reflexivity]. intros _ x [<- | Hx]; [exact Hfa |].
        apply (proj1 IH eq_refl x Hx).
Qed.

Lemma has_nbr_existsb (gw : Z) (iface : iface_info_t) :
  existsb (fun nbr => nbr_id nbr =? gw) (nbr_list iface) = true <-> has_nbr gw iface.
Proof.
  unfold has_nbr. rewrite existsb_exists.
  split; intros (nbr & Hin & Hid); exists nbr; (split; [exact Hin | lia]).
Qed.

Lemma not_has_nbr_existsb (gw : Z) (iface : iface_info_t) :
  existsb (fun nbr => nbr_id nbr =? gw) (nbr_list iface) = false <->
  ~ has_nbr gw iface.
Proof.
  rewrite <- has_nbr_existsb.
  destruct (existsb _ _); split; congruence.
Qed.

(** X19.  The two lookups of the routing pass.  [gw_to_iface] returns the
    first interface that has a neighbour with the given router id, and
    NULL exactly when no interface has one; [subnet_to_iface] returns the
    first interface whose own network is the given subnet, and NULL
    exactly when there is none. *)
Theorem iface_lookups_find_first (ifaces : list iface_info_t) (key : Z) :
  match gw_to_iface ifaces key with
  | Some n =>
      (exists iface, ifaces !! n = Some iface /\ has_nbr key iface) /\
      (forall j iface, (j < n)%nat -> ifaces !! j = Some iface ->
                       ~ has_nbr key iface)
  | None => forall iface, In iface ifaces -> ~ has_nbr key iface
  end /\
  match subnet_to_iface ifaces key with
  | Some n =>
      (exists iface, ifaces !! n = Some iface /\
                     Z.land (iface_ip iface) (iface_mask iface) = key) /\
      (forall j iface, (j < n)%nat -> ifaces !! j = Some iface ->
                       Z.land (iface_ip iface) (iface_mask iface) <> key)
  | None => forall iface, In iface ifaces ->
                          Z.land (iface_ip iface) (iface_mask iface) <> key
  end.
Proof.
  split.
  - unfold gw_to_iface.
    destruct (find_index _ ifaces) as [n |] eqn:Hf.
    + apply find_index_Some in Hf. destruct Hf as [(x & Hx & Hfx) Hbefore].
      split; [exists x; split; [exact Hx | apply has_nbr_existsb, Hfx] |].
      intros j iface Hj Hl. apply not_has_nbr_existsb, (Hbefore j iface Hj Hl).
    + intros iface Hin. apply not_has_nbr_existsb.
      apply (proj1 (find_index_None _ _) Hf iface Hin).
  - unfold subnet_to_iface.
    destruct (find_index _ ifaces) as [n |] eqn:Hf.
    + apply find_index_Some in Hf. destruct Hf as [(x & Hx & Hfx) Hbefore].
      split; [exists x; split; [exact Hx | lia] |].
      intros j iface Hj Hl. specialize (Hbefore j iface Hj Hl).
      simpl in Hbefore. lia.
    + intros iface Hin.
      pose proof (proj1 (find_index_None _ _) Hf iface Hin) as Hn.
      simpl in Hn. lia.
Qed.

End LookupProofs.

Section RoutingProofs.
Context `{EtherEnv} `{MospfEnv}.

(** ** The routing pass: the graph *)

Lemma graph_writes_from_iff (all db : list mospf_db_entry_t) (k0 k j : nat) :
  In (k, j) (graph_writes_from all k0 db) <->
  (k0 <= k)%nat /\
  exists e lsa, db !! (k - k0)%nat = Some e /\ In lsa (entry_lsas e) /\
                j = db_index (lsa_rid lsa) all.
Proof.
  revert k0. induction db as [| e0 rest IH]; intros k0; simpl.
  - split; [intros [] | intros (_ & e & lsa & He & _); discriminate].
  - rewrite in_app_iff, in_map_iff, IH. split.
    + intros [(lsa & Heq & Hl) | (Hle & e & lsa & He & Hl & Hj)].
      * injection Heq as <- <-. split; [lia |].
        exists e0, lsa. rewrite Nat.sub_diag. auto.
      * split; [lia |]. exists e, lsa.
        replace (k - k0)%nat with (S (k - S k0)) by lia. auto.
    + intros (Hle & e & lsa & He & Hl & Hj).
      destruct (Nat.eq_dec k k0) as [-> | Hne].
      * left. rewrite Nat.sub_diag in He. injection He as ->.
        exists lsa. rewrite Hj. auto.
      * right. split; [lia |]. exists e, lsa.
        replace (k - k0)%nat with (S (k - S k0)) in He by lia. auto.
Qed.

Lemma db_index_lookup (db : list mospf_db_entry_t) (j : nat) (e : mospf_db_entry_t) :
  db_wf db -> db !! j = Some e -> db_index (db_rid e) db = j.
Proof.
  unfold db_wf. revert j. induction db as [| e0 rest IH]; intros j Hwf Hj.
  - discriminate.
  - simpl in Hwf. apply NoDup_cons in Hwf. destruct Hwf as [Hnotin Hwf].
    simpl. destruct j as [| j].
    + injection Hj as ->. rewrite Z.eqb_refl. reflexivity.
    + simpl in Hj. destruct (Z.eqb_spec (db_rid e) (db_rid e0)) as [Heq | Hne].
      * exfalso. apply Hnotin. rewrite <- Heq.
        apply list_elem_of_In, in_map, list_elem_of_In.
        apply (list_elem_of_lookup_2 _ _ _ Hj).
      * f_equal. apply IH; assumption.
Qed.

Lemma db_index_rid (rid : Z) (db : list mospf_db_entry_t) (e : mospf_db_entry_t) :
  db !! db_index rid db = Some e -> db_rid e = rid.
Proof.
  induction db as [| e0 rest IH]; simpl; [discriminate |].
  destruct (Z.eqb_spec rid (db_rid e0)) as [Heq | Hne].
  - intros [= <-]. auto.
  - exact IH.
Qed.

Lemma graph_stores_in_bounds (rnum : nat) (writes : list (nat * nat))
    (graph : list Z) :
  length graph = (rnum * rnum)%nat ->
  Forall (fun kj => (fst kj < rnum)%nat /\ (snd kj < rnum)%nat) writes ->
  exists graph',
    graph_stores rnum graph writes = Done graph' /\
    length graph' = (rnum * rnum)%nat /\
    forall i j, (i < rnum)%nat -> (j < rnum)%nat ->
      graph_get rnum graph' i j
      = if writes_cell writes i j then 1 else graph_get rnum graph i j.
Proof.
  revert graph. induction writes as [| [k c] rest IH]; intros graph Hlen Hall.
  - exists graph. simpl. auto.
  - apply Forall_cons in Hall. destruct Hall as [[Hk Hc] Hrest].
    simpl in Hk, Hc. cbn [graph_stores]. unfold graph_store. cbn [fst snd].
    assert (Hcell : (k * rnum + c < rnum * rnum)%nat) by nia.
    destruct (Nat.ltb_spec (k * rnum + c) (rnum * rnum)); [| lia].
    cbn [obind].
    destruct (IH (<[(k * rnum + c)%nat := 1]> graph)) as (graph' & Hg & Hlen' & Hget).
    { rewrite length_insert. exact Hlen. }
    { exact Hrest. }
    exists graph'. split; [exact Hg |]. split; [exact Hlen' |].
    intros i j Hi Hj. rewrite (Hget i j Hi Hj). unfold writes_cell.
    cbn [existsb fst snd]. fold (writes_cell rest i j).
    destruct (writes_cell rest i j); [rewrite orb_true_r; reflexivity |].
    rewrite orb_false_r. unfold graph_get.
    destruct (Nat.eqb_spec k i) as [-> | Hki];
      [destruct (Nat.eqb_spec c j) as [-> | Hcj] |]; cbn [andb].
    + rewrite list_lookup_insert_eq by lia. reflexivity.
    + rewrite list_lookup_insert_ne by lia. reflexivity.
    + rewrite list_lookup_insert_ne by nia. reflexivity.
Qed.

(** X20.  With one LSDB entry for a router, every entry's array holding
    the [nadv] cells the loop reads (so that no read leaves an array) and
    every LSA naming a router that has an entry, the graph loop stays
    inside the graph and leaves the adjacency matrix of the LSDB: cell
    (k, j) is 1 exactly when entry k has an LSA for the router of
    entry j. *)
Theorem init_graph_is_adjacency (db : list mospf_db_entry_t) :
  db_wf db -> Forall array_holds db -> lsas_matched db ->
  exists graph,
    init_graph db = Done graph /\
    length graph = (length db * length db)%nat /\
    forall k j ek ej, db !! k = Some ek -> db !! j = Some ej ->
      graph_get (length db) graph k j
      = if existsb (fun lsa => lsa_rid lsa =? db_rid ej) (entry_lsas ek)
        then 1 else 0.
Proof.
  intros Hwf _ Hmatched. unfold init_graph.
  destruct (graph_stores_in_bounds (length db) (graph_writes db)
              (replicate (length db * length db) 0))
    as (graph & Hg & Hlen & Hget).
  { apply length_replicate. }
  { apply Forall_forall. intros [k j] Hin. apply list_elem_of_In in Hin.
    apply graph_writes_from_iff in Hin.
    destruct Hin as (_ & e & lsa & He & Hl & ->). rewrite Nat.sub_0_r in He.
    cbn [fst snd]. split; [apply (lookup_lt_Some _ _ _ He) |].
    apply db_index_matched.
    specialize (Hmatched e lsa (proj1 (list_elem_of_In _ _)
                                  (list_elem_of_lookup_2 _ _ _ He)) Hl).
    apply in_map_iff in Hmatched. destruct Hmatched as (e' & Hid & He').
    exists e'. auto. }
  exists graph. split; [exact Hg |]. split; [exact Hlen |].
  intros k j ek ej Hk Hj.
  rewrite (Hget k j (lookup_lt_Some _ _ _ Hk) (lookup_lt_Some _ _ _ Hj)).
  assert (Hzero : graph_get (length db) (replicate (length db * length db) 0) k j = 0).
  { unfold graph_get.
    destruct (replicate (length db * length db) 0 !! (k * length db + j)%nat)
      as [z |] eqn:Hz; [| reflexivity].
    apply lookup_replicate in Hz. destruct Hz as [-> _]. reflexivity. }
  rewrite Hzero.
  assert (Hiff : writes_cell (graph_writes db) k j = true <->
                 existsb (fun lsa => lsa_rid lsa =? db_rid ej) (entry_lsas ek) = true).
  { unfold writes_cell. rewrite !existsb_exists. split.
    - intros ([k' j'] & Hin & Heq). cbn [fst snd] in Heq.
      apply andb_true_iff in Heq. destruct Heq as [Hk' Hj'].
      apply Nat.eqb_eq in Hk', Hj'. subst k' j'.
      apply graph_writes_from_iff in Hin.
      destruct Hin as (_ & e & lsa & He & Hl & Hidx). rewrite Nat.sub_0_r in He.
      rewrite Hk in He. injection He as <-.
      exists lsa. split; [exact Hl |]. apply Z.eqb_eq.
      rewrite Hidx in Hj. symmetry. apply (db_index_rid _ _ _ Hj).
    - intros (lsa & Hl & Hid). apply Z.eqb_eq in Hid.
      exists (k, j). split.
      + apply graph_writes_from_iff. split; [lia |].
        exists ek, lsa. rewrite Nat.sub_0_r. split; [exact Hk |].
        split; [exact Hl |]. rewrite Hid. symmetry.
        apply db_index_lookup; assumption.
      + cbn [fst snd]. rewrite !Nat.eqb_refl. reflexivity. }
  destruct (writes_cell (graph_writes db) k j);
    destruct (existsb _ (entry_lsas ek)); try reflexivity.
  - destruct Hiff as [Hiff _]. specialize (Hiff eq_refl). discriminate.
  - destruct Hiff as [_ Hiff]. specialize (Hiff eq_refl). discriminate.
Qed.

End RoutingProofs.

Section TransferProofs.
Context `{EtherEnv} `{MospfEnv}.

(** ** The routing pass: the rows *)







(** The SPF loop keeps the number of entries. *)
Lemma relax_length (rnum : nat) (graph : list Z) (min_j : nat)
    (dist : list dist_entry) (j : nat) :
  length (relax rnum graph min_j dist j) = length dist.
Proof.
  unfold relax. destruct (dist !! min_j); [| reflexivity].
  destruct (dist !! j); [| reflexivity].
  destruct (_ && _); [apply length_insert | reflexivity].
Qed.

Lemma relax_fold_length (rnum : nat) (graph : list Z) (min_j : nat)
    (js : list nat) (dist : list dist_entry) :
  length (fold_left (relax rnum graph min_j) js dist) = length dist.
Proof.
  revert dist. induction js as [| j rest IH]; intros dist; simpl;
    [reflexivity | rewrite IH; apply relax_length].
Qed.

Lemma dijkstra_length (rnum : nat) (graph : list Z) (dist : list dist_entry) :
  length (dijkstra rnum graph dist) = length dist.
Proof.
  unfold dijkstra. induction (rnum - 1)%nat as [| n IH]; simpl; [reflexivity |].
  unfold dijkstra_round at 1. rewrite relax_fold_length, length_alter. exact IH.
Qed.

Lemma gw_to_iface_none (ifaces : list iface_info_t) (gw : Z) :
  (forall iface, In iface ifaces -> ~ has_nbr gw iface) ->
  gw_to_iface ifaces gw = None.
Proof.
  intros Hno. unfold gw_to_iface. apply find_index_None.
  intros iface Hin. apply not_has_nbr_existsb, Hno, Hin.
Qed.

Lemma transfer_lsas_done (ifaces : list iface_info_t) (d : dist_entry)
    (lsas : list mospf_lsa) (rt : list rt_entry_t) :
  (forall iface, In iface ifaces -> ~ has_nbr 0 iface) ->
  exists rt', transfer_lsas ifaces d rt lsas = Done rt'.
Proof.
  intros Hno. revert rt. induction lsas as [| lsa rest IH]; intros rt; simpl.
  - eauto.
  - assert (H1 : exists rt1, transfer_lsa ifaces d rt lsa = Done rt1).
    { unfold transfer_lsa.
      destruct (update_route ifaces d (lsa_subnet lsa) rt); [eauto |].
      unfold insert_route.
      destruct (gw_to_iface ifaces (dist_gw d)) as [n0 |] eqn:Hgw.
      - unfold route_iface.
        destruct (Z.eqb_spec (dist_gw d) 0) as [Hz | Hnz].
        + rewrite Hz, (gw_to_iface_none ifaces 0 Hno) in Hgw. discriminate.
        + rewrite Hgw. unfold gw_to_iface in Hgw. apply find_index_Some in Hgw.
          destruct Hgw as [(iface & -> & _) _]. eauto.
      - destruct (negb (dist_gw d =? 0)); eauto. }
    destruct H1 as (rt1 & ->). simpl. apply IH.
Qed.

Lemma transfer_done (ifaces : list iface_info_t) (dist : list dist_entry)
    (db : list mospf_db_entry_t) (j : nat) (rt : list rt_entry_t) :
  (forall iface, In iface ifaces -> ~ has_nbr 0 iface) ->
  (j + length db <= length dist)%nat ->
  exists rt', transfer ifaces dist j rt db = Done rt'.
Proof.
  intros Hno. revert j rt. induction db as [| e rest IH]; intros j rt Hlen; simpl.
  - eauto.
  - simpl in Hlen. destruct (lookup_lt_is_Some_2 dist j) as [d ->]; [lia |].
    destruct (transfer_lsas_done ifaces d (entry_lsas e) rt Hno) as (rt1 & ->).
    simpl. apply IH. lia.
Qed.

(** X22.  [generate_rt] runs through without a store out of bounds and
    without a NULL interface being dereferenced when every entry's array
    holds the [nadv] cells the loops read (so that no read leaves an
    array), every LSA of the LSDB names a router that has an entry and no
    neighbour has the router id 0 (the value a gateway field takes for "no
    gateway"). *)
Theorem generate_rt_completes (s : mospf_state) :
  Forall array_holds (mospf_db s) ->
  lsas_matched (mospf_db s) ->
  (forall iface, In iface (iface_list (mospf_instance s)) -> ~ has_nbr 0 iface) ->
  exists rt, generate_rt s = Done rt.
Proof.
  intros _ Hmatched Hno. unfold generate_rt.
  destruct (find_self_db _ (mospf_db s)) as [self_db |]; [| eauto].
  destruct (graph_stores_in_bounds (length (mospf_db s)) (graph_writes (mospf_db s))
              (replicate (length (mospf_db s) * length (mospf_db s)) 0))
    as (graph & Hg & _ & _).
  { apply length_replicate. }
  { apply Forall_forall. intros [k j] Hin. apply list_elem_of_In in Hin.
    apply graph_writes_from_iff in Hin.
    destruct Hin as (_ & e & lsa & He & Hl & ->). rewrite Nat.sub_0_r in He.
    cbn [fst snd]. split; [apply (lookup_lt_Some _ _ _ He) |].
    apply db_index_matched.
    specialize (Hmatched e lsa (proj1 (list_elem_of_In _ _)
                                  (list_elem_of_lookup_2 _ _ _ He)) Hl).
    apply in_map_iff in Hmatched. destruct Hmatched as (e' & Hid & He').
    exists e'. auto. }
  unfold init_graph. rewrite Hg. simpl.
  apply transfer_done; [exact Hno |].
  rewrite dijkstra_length, length_map. lia.
Qed.

End TransferProofs.

Section SpfProofs.
Context `{EtherEnv} `{MospfEnv}.

(** ** The routing pass: the SPF loop *)

Lemma to_u32_to_int (d : Z) : to_u32 (to_int d) = to_u32 d.
Proof.
  unfold to_u32, to_int. rewrite (Z.mod_eq (d + 2 ^ 31)) by lia.
  replace (d + 2 ^ 31 - 2 ^ 32 * ((d + 2 ^ 31) / 2 ^ 32) - 2 ^ 31)
    with (d + - ((d + 2 ^ 31) / 2 ^ 32) * 2 ^ 32) by lia.
  apply Z.mod_add. lia.
Qed.

Lemma to_u32_idem (d : Z) : to_u32 (to_u32 d) = to_u32 d.
Proof. unfold to_u32. apply Z.mod_mod. lia. Qed.

(** What one relaxation step does to the entry at [i]. *)
Lemma relax_entry (rnum : nat) (graph : list Z) (min_j : nat)
    (dist : list dist_entry) (j i : nat) (d : dist_entry) :
  dist !! i = Some d ->
  exists d',
    relax rnum graph min_j dist j !! i = Some d' /\
    dist_rid d' = dist_rid d /\ dist_visited d' = dist_visited d /\
    to_u32 (dist_dist d') <= to_u32 (dist_dist d) /\
    (dist_visited d <> 0 -> d' = d).
Proof.
  intros Hi.
  assert (Hsame : exists d', dist !! i = Some d' /\
            dist_rid d' = dist_rid d /\ dist_visited d' = dist_visited d /\
            to_u32 (dist_dist d') <= to_u32 (dist_dist d) /\
            (dist_visited d <> 0 -> d' = d)).
  { exists d. split; [exact Hi |]. repeat split; auto; lia. }
  unfold relax. destruct (dist !! min_j) as [dm |]; [| exact Hsame].
  destruct (dist !! j) as [dj |] eqn:Hj; [| exact Hsame].
  destruct (negb (graph_get rnum graph min_j j =? 0)) ; cbn [andb];
    [| exact Hsame].
  destruct (Z.eqb_spec (dist_visited dj) 0) as [Hv | Hv]; cbn [andb];
    [| exact Hsame].
  destruct (Z.ltb_spec (to_u32 (graph_get rnum graph min_j j + dist_dist dm))
                       (to_u32 (dist_dist dj))) as [Hlt | Hge];
    [| exact Hsame].
  destruct (Nat.eq_dec i j) as [-> | Hne].
  - rewrite Hi in Hj. injection Hj as <-.
    eexists. split; [apply list_lookup_insert_eq, (lookup_lt_Some _ _ _ Hi) |].
    cbn [dist_rid dist_visited dist_dist].
    split; [reflexivity |]. split; [reflexivity |].
    split; [| intros Hnz; contradiction].
    rewrite to_u32_to_int, to_u32_idem. lia.
  - rewrite list_lookup_insert_ne by auto. exact Hsame.
Qed.

Lemma relax_fold_entry (rnum : nat) (graph : list Z) (min_j : nat)
    (js : list nat) (dist : list dist_entry) (i : nat) (d : dist_entry) :
  dist !! i = Some d ->
  exists d',
    fold_left (relax rnum graph min_j) js dist !! i = Some d' /\
    dist_rid d' = dist_rid d /\ dist_visited d' = dist_visited d /\
    to_u32 (dist_dist d') <= to_u32 (dist_dist d) /\
    (dist_visited d <> 0 -> d' = d).
Proof.
  revert dist d. induction js as [| j rest IH]; intros dist d Hi; simpl.
  - exists d. split; [exact Hi |]. repeat split; auto; lia.
  - destruct (relax_entry rnum graph min_j dist j i d Hi)
      as (d1 & H1 & Hr1 & Hv1 & Hd1 & Hs1).
    destruct (IH _ d1 H1) as (d2 & H2 & Hr2 & Hv2 & Hd2 & Hs2).
    exists d2. split; [exact H2 |].
    split; [congruence |]. split; [congruence |]. split; [lia |].
    intros Hnz. rewrite Hs2, Hs1; auto. congruence.
Qed.

Lemma dijkstra_round_entry (rnum : nat) (graph : list Z)
    (dist : list dist_entry) (i : nat) (d : dist_entry) :
  dist !! i = Some d ->
  exists d',
    dijkstra_round rnum graph dist !! i = Some d' /\
    dist_rid d' = dist_rid d /\
    to_u32 (dist_dist d') <= to_u32 (dist_dist d) /\
    (dist_visited d = 1 -> d' = d).
Proof.
  intros Hi. unfold dijkstra_round.
  assert (Ha : exists d1, alter set_visited (find_min dist) dist !! i = Some d1 /\
                 dist_rid d1 = dist_rid d /\ dist_dist d1 = dist_dist d /\
                 (dist_visited d = 1 -> d1 = d /\ dist_visited d1 <> 0)).
  { destruct (Nat.eq_dec i (find_min dist)) as [<- | Hne].
    - exists (set_visited d). rewrite list_lookup_alter_eq, Hi.
      split; [reflexivity |]. split; [reflexivity |]. split; [reflexivity |].
      intros Hv. destruct d as [r v dd g]. cbn in *. subst v. split; [reflexivity | lia].
    - exists d. rewrite list_lookup_alter_ne by auto.
      split; [exact Hi |]. split; [reflexivity |]. split; [reflexivity |].
      intros Hv. split; [reflexivity | lia]. }
  destruct Ha as (d1 & H1 & Hr1 & Hd1 & Hs1).
  destruct (relax_fold_entry rnum graph (find_min dist) (seq 0 rnum) _ i d1 H1)
    as (d2 & H2 & Hr2 & _ & Hd2 & Hs2).
  exists d2. split; [exact H2 |]. split; [congruence |].
  split; [rewrite <- Hd1; exact Hd2 |].
  intros Hv. destruct (Hs1 Hv) as [<- Hnz]. apply Hs2, Hnz.
Qed.

(** X23.  The SPF loop of [generate_rt] never changes an entry that is
    marked visited, so the entry of the router itself keeps distance 0 and
    gateway 0 whatever the graph holds; it keeps the router id of every
    entry, and it never raises a distance (read as unsigned, as the loop
    compares it). *)
Theorem dijkstra_keeps_settled_entries (rnum : nat) (graph : list Z)
    (dist : list dist_entry) (i : nat) (d : dist_entry) :
  dist !! i = Some d ->
  (exists d',
     dijkstra rnum graph dist !! i = Some d' /\
     dist_rid d' = dist_rid d /\
     to_u32 (dist_dist d') <= to_u32 (dist_dist d) /\
     (dist_visited d = 1 -> d' = d)) /\
  (forall (rid : Z) (self_db : mospf_db_entry_t) (db : list mospf_db_entry_t)
          (e : mospf_db_entry_t),
     db !! i = Some e -> db_rid e = rid ->
     dijkstra rnum graph (map (init_dist_entry rid self_db) db) !! i
     = Some {| dist_rid := rid; dist_visited := 1; dist_dist := 0;
               dist_gw := 0 |}).
Proof.
  assert (Hgen : forall n dist0 d0, dist0 !! i = Some d0 ->
            exists d',
              Nat.iter n (dijkstra_round rnum graph) dist0 !! i = Some d' /\
              dist_rid d' = dist_rid d0 /\
              to_u32 (dist_dist d') <= to_u32 (dist_dist d0) /\
              (dist_visited d0 = 1 -> d' = d0)).
  { induction n as [| n IH]; intros dist0 d0 Hl0; simpl.
    - exists d0. split; [exact Hl0 |]. repeat split; auto; lia.
    - destruct (IH dist0 d0 Hl0) as (d1 & H1 & Hr1 & Hd1 & Hs1).
      destruct (dijkstra_round_entry rnum graph _ i d1 H1)
        as (d2 & H2 & Hr2 & Hd2 & Hs2).
      exists d2. split; [exact H2 |]. split; [congruence |]. split; [lia |].
      intros Hv. specialize (Hs1 Hv). subst d1. apply Hs2, Hv. }
  intros Hi. split; [apply (Hgen _ dist d Hi) |].
  intros rid self_db db e He Hid.
  assert (Hself : map (init_dist_entry rid self_db) db !! i
               = Some {| dist_rid := rid; dist_visited := 1; dist_dist := 0;
                         dist_gw := 0 |}).
  { change (map (init_dist_entry rid self_db) db)
      with (init_dist_entry rid self_db <$> db).
    rewrite list_lookup_fmap, He. cbn. unfold init_dist_entry.
    rewrite Hid, Z.eqb_refl. reflexivity. }
  destruct (Hgen (rnum - 1)%nat _ _ Hself) as (d' & Hd' & _ & _ & Hs).
  unfold dijkstra. rewrite Hd', (Hs eq_refl). reflexivity.
Qed.

(** ** The first round of the LSU emitter *)

Lemma count_nadv_zero (ifaces : list iface_info_t) (acc : Z) :
  Forall (fun iface => num_nbr iface = 0) ifaces ->
  0 <= acc -> acc + Z.of_nat (length ifaces) < 2 ^ 31 ->
  fold_left
    (fun nadv iface =>
       to_int (nadv + (if num_nbr iface =? 0 then 1 else num_nbr iface)))
    ifaces acc
  = acc + Z.of_nat (length ifaces).
Proof.
  revert acc. induction ifaces as [| iface rest IH]; intros acc Hz Hacc Hlt.
  - simpl. lia.
  - apply Forall_cons in Hz. destruct Hz as [Hi Hrest].
    cbn [fold_left length] in *. rewrite Hi. cbn [Z.eqb].
    rewrite to_int_small by lia. rewrite IH by (auto; lia). lia.
Qed.

End SpfProofs.

Section FirstRound.
Context `{EtherEnv} `{MospfEnv}.

Lemma emit_ifaces_no_nbr (n : nat) (nadv : Z) (packet : lsu_packet)
    (ifaces : list iface_info_t) :
  Forall (fun iface => nbr_list iface = []) ifaces ->
  emit_ifaces n nadv packet ifaces = [].
Proof.
  intros Hall. revert n. induction Hall as [| iface rest Hi _ IH]; intros n;
    simpl; [reflexivity |].
  rewrite Hi, IH. reflexivity.
Qed.

(** X24.  The first round of the LSU emitter on a router that has just
    been initialised (neighbour counters 0, no neighbour yet): no packet
    is sent, the LSDB gets the entry of the router itself with one stub
    LSA for every interface, the sequence number becomes 1, and
    [generate_rt] then stores behind the graph: the LSDB has one entry,
    the stub LSAs name router 0, which has none, and the store goes to
    [graph[0][1]] of a 1 x 1 array. *)
Theorem first_round_after_init (first : iface_info_t)
    (others : list iface_info_t) (rt : list rt_entry_t)
    (fresh : lsu_packet) (rand : Z) :
  let s0 := mospf_init first others rt in
  let s1 := fst (emit_lsu s0 fresh rand) in
  Forall (fun iface => num_nbr iface = 0) (first :: others) ->
  iface_ip first <> 0 ->
  Z.of_nat (S (length others)) < 2 ^ 31 ->
  snd (emit_lsu s0 fresh rand) = [] /\
  mospf_db s1 = [{| db_rid := iface_ip first; db_seq := 0;
                    db_nadv := Z.of_nat (S (length others));
                    db_array := map stub_lsa_of (first :: others) |}] /\
  sequence_num (mospf_instance s1) = 1 /\
  sending_mospf_lsu_round s0 fresh rand = ([], Fault OutOfBounds).
Proof.
  intros s0 s1 Hzero Hip Hlen.
  set (ifaces := map (fun iface => set_nbrs iface (num_nbr iface) [])
                     (first :: others)).
  assert (Hnil : Forall (fun iface => nbr_list iface = []) ifaces).
  { subst ifaces. apply Forall_forall. intros x Hx.
    apply list_elem_of_In, in_map_iff in Hx. destruct Hx as (y & <- & _).
    reflexivity. }
  assert (Hsent : snd (emit_lsu s0 fresh rand) = []).
  { unfold emit_lsu. cbn [snd]. apply emit_ifaces_no_nbr. exact Hnil. }
  assert (Hcount : count_nadv ifaces = Z.of_nat (S (length others))).
  { unfold count_nadv. rewrite count_nadv_zero.
    - subst ifaces. rewrite length_map. reflexivity.
    - subst ifaces. apply Forall_forall. intros x Hx.
      apply list_elem_of_In, in_map_iff in Hx. destruct Hx as (y & <- & Hy).
      cbn. apply (proj1 (Forall_forall _ _) Hzero y), list_elem_of_In, Hy.
    - lia.
    - subst ifaces. rewrite length_map. simpl length. lia. }
  assert (Hlsas : build_lsa_list ifaces = map stub_lsa_of (first :: others)).
  { subst ifaces. unfold build_lsa_list. clear.
    induction (first :: others) as [| x rest IH]; [reflexivity |].
    cbn [map flat_map]. rewrite IH. reflexivity. }
  assert (Hdb : mospf_db s1
                = [{| db_rid := iface_ip first; db_seq := 0;
                      db_nadv := Z.of_nat (S (length others));
                      db_array := map stub_lsa_of (first :: others) |}]).
  { subst s1 s0. unfold emit_lsu, mospf_init.
    cbn [fst mospf_db mospf_instance iface_list router_id sequence_num
         init_mospf_db upsert_self_db update_self_db app].
    fold ifaces. rewrite Hcount, Hlsas. reflexivity. }
  assert (Hrid : router_id (mospf_instance s1) = iface_ip first) by reflexivity.
  assert (Hrt : generate_rt s1 = Fault OutOfBounds).
  { unfold generate_rt. rewrite Hdb, Hrid.
    unfold find_self_db. cbn [fold_left db_rid]. rewrite Z.eqb_refl.
    unfold init_graph, graph_writes. cbn [length graph_writes_from].
    unfold entry_lsas. cbn [db_nadv db_array].
    rewrite Nat2Z.id.
    replace (S (length others))
      with (length (map stub_lsa_of (first :: others)))
      by (rewrite length_map; reflexivity).
    rewrite lsa_cells_all.
    cbn [map app db_index lsa_rid stub_lsa_of db_rid].
    destruct (Z.eqb_spec 0 (iface_ip first)) as [Heq | _]; [congruence |].
    reflexivity. }
  split; [exact Hsent |]. split; [exact Hdb |]. split; [reflexivity |].
  unfold sending_mospf_lsu_round.
  rewrite (surjective_pairing (emit_lsu s0 fresh rand)). fold s1.
  rewrite Hsent, Hrt. reflexivity.
Qed.

End FirstRound.

Section WaitProofs.
Context `{MospfEnv}.

(** ** The wait before a round of the LSU emitter *)

Lemma lsu_wait_sleeps (changed : list Z) (left_interval : Z) :
  0 < left_interval < 2 ^ 31 ->
  (Z.to_nat left_interval <= length changed)%nat ->
  lsu_wait left_interval changed
  = Some (match find_index (fun c => negb (c =? 0)) changed with
          | Some i => Nat.min i (Z.to_nat left_interval - 1)
          | None => (Z.to_nat left_interval - 1)%nat
          end).
Proof.
  revert left_interval. induction changed as [| c rest IH];
    intros left_interval Hleft Hlen.
  - simpl in Hlen. lia.
  - cbn [lsu_wait find_index]. destruct (negb (c =? 0)); [reflexivity |].
    rewrite to_int_small by lia.
    destruct (Z.eqb_spec (left_interval - 1) 0) as [Hone | Hmore].
    + replace (Z.to_nat left_interval - 1)%nat with 0%nat by lia.
      destruct (find_index _ rest); [rewrite Nat.min_0_r |]; reflexivity.
    + rewrite IH by (simpl in Hlen; lia).
      replace (Z.to_nat left_interval - 1)%nat
        with (S (Z.to_nat (left_interval - 1) - 1)) by lia.
      destruct (find_index _ rest); reflexivity.
Qed.

(** X25.  How long the LSU emitter waits: a round starts at the first
    check that finds [nbr_changed] set, and without a change after
    [MOSPF_DEFAULT_LSUINT - 1] calls of [sleep (1)], one second less than
    the interval, because the counter is decremented before it is
    tested. *)
Theorem lsu_round_wait_sleeps (changed : list Z) :
  0 < MOSPF_DEFAULT_LSUINT < 2 ^ 31 ->
  (Z.to_nat MOSPF_DEFAULT_LSUINT <= length changed)%nat ->
  lsu_round_wait changed
  = Some (match find_index (fun c => negb (c =? 0)) changed with
          | Some i => Nat.min i (Z.to_nat MOSPF_DEFAULT_LSUINT - 1)
          | None => (Z.to_nat MOSPF_DEFAULT_LSUINT - 1)%nat
          end).
Proof. apply lsu_wait_sleeps. Qed.

End WaitProofs.

(** * The binary prefix tree *)

Lemma land_pow2 (ip c : Z) :
  0 <= c -> Z.land ip (2 ^ c) = if Z.testbit ip c then 2 ^ c else 0.
Proof.
  intros Hc. apply Z.bits_inj'. intros n Hn.
  rewrite Z.land_spec, Z.pow2_bits_eqb by lia.
  destruct (Z.eqb_spec c n) as [-> | Hne].
  - destruct (Z.testbit ip n).
    + rewrite Z.pow2_bits_eqb, Z.eqb_refl by lia. reflexivity.
    + rewrite Z.bits_0. reflexivity.
  - rewrite andb_false_r. destruct (Z.testbit ip c).
    + rewrite Z.pow2_bits_eqb by lia.
      destruct (Z.eqb_spec c n); [contradiction | reflexivity].
    + rewrite Z.bits_0. reflexivity.
Qed.

(** The bit test of the two tree walks: defined for the levels 1 to 32,
    and there it tests the bit of the address at that level. *)
Lemma ip_bit_bit_at (ip start : Z) :
  1 <= start <= 32 ->
  exists j, ip_bit ip start = Some j /\ negb (j =? 0) = bit_at ip start.
Proof.
  intros Hs. unfold ip_bit, bit_at.
  assert (Hc : to_u32 (32 - start) = 32 - start)
    by (unfold to_u32; apply Z.mod_small; lia).
  rewrite Hc. destruct (Z.ltb_spec (32 - start) 32); [| lia].
  eexists. split; [reflexivity |].
  rewrite Z.shiftl_1_l, to_u32_to_int.
  assert (Hpow : 0 < 2 ^ (32 - start) < 2 ^ 32).
  { split; [apply Z.pow_pos_nonneg; lia |].
    apply Z.pow_lt_mono_r; lia. }
  assert (Hu : to_u32 (2 ^ (32 - start)) = 2 ^ (32 - start))
    by (unfold to_u32; apply Z.mod_small; lia).
  rewrite Hu, land_pow2 by lia.
  destruct (Z.testbit ip (32 - start)).
  - assert (Hnz : to_int (2 ^ (32 - start)) <> 0).
    { intros Hz. pose proof (to_u32_to_int (2 ^ (32 - start))) as Ht.
      rewrite Hz, Hu in Ht. unfold to_u32 in Ht.
      rewrite Z.mod_0_l in Ht by lia. lia. }
    destruct (Z.eqb_spec (to_int (2 ^ (32 - start))) 0); [contradiction |].
    reflexivity.
  - reflexivity.
Qed.

Lemma son_or_new_not_null (son : btn) : son_or_new son <> NULL.
Proof. destruct son; discriminate. Qed.

Lemma ip_path_step (ip mask start : Z) :
  start <= mask ->
  ip_path ip start (Z.to_nat (mask + 1 - start))
  = bit_at ip start :: ip_path ip (start + 1) (Z.to_nat (mask + 1 - (start + 1))).
Proof.
  intros Hle.
  replace (Z.to_nat (mask + 1 - start))
    with (S (Z.to_nat (mask + 1 - (start + 1)))) by lia.
  reflexivity.
Qed.

Lemma ip_path_done (ip mask start : Z) :
  mask < start -> ip_path ip start (Z.to_nat (mask + 1 - start)) = [].
Proof.
  intros Hlt. replace (Z.to_nat (mask + 1 - start)) with 0%nat by lia.
  reflexivity.
Qed.

(** [bt_add_node] follows the bits of the address down to level [mask]. *)
Lemma bt_add_node_fuel_path (fuel : nat) (root : btn) (ip mask start : Z) :
  root <> NULL -> 1 <= start -> mask <= 32 ->
  (Z.to_nat (mask + 1 - start) <= fuel)%nat ->
  bt_add_node_fuel fuel root ip mask start
  = Some (insert_path (ip_path ip start (Z.to_nat (mask + 1 - start)))
                      root ip mask).
Proof.
  revert root start. induction fuel as [| fuel IH];
    intros root start Hroot Hstart Hmask Hfuel;
    (destruct root as [| son0 son1 m p k]; [contradiction |]).
  - cbn [bt_add_node_fuel].
    destruct (Z.leb_spec start mask); [lia |].
    rewrite ip_path_done by lia. reflexivity.
  - cbn [bt_add_node_fuel].
    destruct (Z.leb_spec start mask) as [Hle | Hgt].
    + destruct (ip_bit_bit_at ip start) as (j & -> & Hj); [lia |].
      rewrite Hj, ip_path_step by lia.
      assert (Hu : to_u32 (start + 1) = start + 1)
        by (unfold to_u32; apply Z.mod_small; lia).
      rewrite Hu. cbn [insert_path].
      destruct (bit_at ip start);
        rewrite IH by (auto using son_or_new_not_null; lia); reflexivity.
    + rewrite ip_path_done by lia. reflexivity.
Qed.

Lemma deepest_NULL (path : list bool) : deepest path NULL = None.
Proof. destruct path; reflexivity. Qed.

(** [bt_match] follows the bits of the address as far as the tree goes,
    down to level [mask] at most. *)
Lemma bt_match_path (root : btn) (ip mask start : Z) (last : btn) :
  root <> NULL -> 1 <= start -> mask <= 32 ->
  bt_match root ip mask start last
  = Some (final_matched (ip_path ip start (Z.to_nat (mask + 1 - start))) root,
          default last
                  (deepest (ip_path ip start (Z.to_nat (mask + 1 - start))) root)).
Proof.
  revert start last. induction root as [| son0 IH0 son1 IH1 m p k];
    intros start last Hroot Hstart Hmask; [contradiction |].
  cbn [bt_match].
  destruct (Z.leb_spec start mask) as [Hle | Hgt].
  - destruct (ip_bit_bit_at ip start) as (j & -> & Hj); [lia |].
    rewrite Hj, ip_path_step by lia.
    assert (Hu : to_u32 (start + 1) = start + 1)
      by (unfold to_u32; apply Z.mod_small; lia).
    rewrite Hu. cbn [final_matched deepest].
    destruct (bit_at ip start).
    + destruct son1 as [| s0 s1 m1 p1 k1].
      * rewrite deepest_NULL. destruct (negb (m =? 0)); reflexivity.
      * rewrite IH1 by (try discriminate; lia). f_equal. f_equal.
        destruct (deepest _ (Node s0 s1 m1 p1 k1)); [reflexivity |].
        destruct (negb (m =? 0)); reflexivity.
    + destruct son0 as [| s0 s1 m1 p1 k1].
      * rewrite deepest_NULL. destruct (negb (m =? 0)); reflexivity.
      * rewrite IH0 by (try discriminate; lia). f_equal. f_equal.
        destruct (deepest _ (Node s0 s1 m1 p1 k1)); [reflexivity |].
        destruct (negb (m =? 0)); reflexivity.
  - rewrite ip_path_done by lia. cbn [final_matched deepest].
    destruct (negb (m =? 0)); reflexivity.
Qed.

Lemma insert_path_not_null (path : list bool) (root : btn) (ip mask : Z) :
  root <> NULL -> insert_path path root ip mask <> NULL.
Proof.
  destruct root; [contradiction |]. intros _.
  destruct path as [| [] rest]; discriminate.
Qed.

(** The node at the end of the path of a prefix after its insertion. *)
Lemma insert_then_walk (path : list bool) (root : btn) (ip mask : Z) :
  root <> NULL ->
  final_matched path (insert_path path root ip mask) = 1 /\
  exists son0 son1,
    deepest path (insert_path path root ip mask) = Some (Node son0 son1 1 ip mask).
Proof.
  revert root. induction path as [| b rest IH]; intros root Hroot;
    (destruct root as [| son0 son1 m p k]; [contradiction |]).
  - cbn. eauto.
  - cbn [insert_path].
    destruct b; cbn [final_matched deepest].
    + destruct (IH (son_or_new son1) (son_or_new_not_null son1))
        as (Hf & s0 & s1 & Hd).
      pose proof (insert_path_not_null rest (son_or_new son1) ip mask
                    (son_or_new_not_null son1)) as Hnn.
      destruct (insert_path rest (son_or_new son1) ip mask) as [| a b c d e];
        [contradiction |].
      rewrite Hd, Hf. eauto.
    + destruct (IH (son_or_new son0) (son_or_new_not_null son0))
        as (Hf & s0 & s1 & Hd).
      pose proof (insert_path_not_null rest (son_or_new son0) ip mask
                    (son_or_new_not_null son0)) as Hnn.
      destruct (insert_path rest (son_or_new son0) ip mask) as [| a b c d e];
        [contradiction |].
      rewrite Hd, Hf. eauto.
Qed.

(** X26.  Insert, then look up, with [1 << 31] read as INT_MIN (see
    [ip_bit]): [bt_add_node] builds a tree for every prefix of length 0 to
    32 on every tree, with no NULL pointer dereferenced and no shift count
    above 31, and a [bt_match] for the same address and length on the tree
    it leaves returns 1 with [last_matched] at a node that holds that
    address and that length, whatever else the tree holds. *)
Theorem bt_add_then_match (root : btn) (ip mask : Z) (last : btn) :
  root <> NULL -> 0 <= mask <= 32 ->
  exists root',
    bt_add_node root ip mask 1 = Some root' /\
    exists son0 son1,
      bt_match root' ip mask 1 last = Some (1, Node son0 son1 1 ip mask).
Proof.
  intros Hroot Hmask. unfold bt_add_node.
  rewrite bt_add_node_fuel_path by (auto; lia).
  eexists. split; [reflexivity |].
  rewrite bt_match_path by (auto using insert_path_not_null; lia).
  destruct (insert_then_walk (ip_path ip 1 (Z.to_nat (mask + 1 - 1))) root ip mask
              Hroot) as (Hf & s0 & s1 & Hd).
  rewrite Hf, Hd. exists s0, s1. reflexivity.
Qed.

(** ** Longest prefix match *)

Lemma built_insert (path : list bool) (d : Z) (root : btn) (ip mask : Z) :
  built d root -> root <> NULL ->
  mask = d + Z.of_nat (length path) -> mask <= 32 ->
  built d (insert_path path root ip mask).
Proof.
  revert d root. induction path as [| b rest IH]; intros d root Hb Hroot Hm H32;
    (destruct root as [| son0 son1 m p k]; [contradiction |]);
    destruct Hb as (Hd & Hf & Hb0 & Hb1).
  - cbn in *. split; [exact Hd |]. split; [right; lia |]. auto.
  - cbn [length] in Hm.
    assert (Hnew : forall son, built (d + 1) son -> built (d + 1) (son_or_new son)).
    { intros [| a b' c e f] Hs; [| exact Hs].
      cbn. split; [lia |]. split; [left; lia |]. auto. }
    cbn [insert_path]. destruct b; cbn [built];
      (split; [exact Hd |]); (split; [exact Hf |]).
    + split; [exact Hb0 |].
      apply IH; auto using son_or_new_not_null. lia.
    + split; [| exact Hb1].
      apply IH; auto using son_or_new_not_null. lia.
Qed.

Lemma deepest_built (q : list bool) (d : Z) (root n : btn) :
  built d root -> deepest q root = Some n ->
  exists son0 son1 p k, n = Node son0 son1 1 p k /\ d <= k.
Proof.
  revert d root. induction q as [| b rest IH]; intros d root Hb Hd;
    (destruct root as [| son0 son1 m p k]; [discriminate |]);
    destruct Hb as (Hr & Hf & Hb0 & Hb1); cbn [deepest] in Hd.
  - destruct (Z.eqb_spec m 0); [discriminate |]. injection Hd as <-.
    destruct Hf as [[Hm _] | [-> ->]]; [contradiction |].
    exists son0, son1, p, d. split; [reflexivity | lia].
  - destruct (deepest rest (if b then son1 else son0)) as [n' |] eqn:Hson.
    + injection Hd as <-.
      destruct (IH (d + 1) (if b then son1 else son0)
                   ltac:(destruct b; assumption) Hson)
        as (s0 & s1 & p' & k' & -> & Hk).
      exists s0, s1, p', k'. split; [reflexivity | lia].
    + destruct (Z.eqb_spec m 0); [discriminate |]. injection Hd as <-.
      destruct Hf as [[Hm _] | [-> ->]]; [contradiction |].
      exists son0, son1, p, d. split; [reflexivity | lia].
Qed.

Lemma found_None (q : list bool) (root : btn) :
  found (deepest q root) = None -> deepest q root = None.
Proof.
  revert root. induction q as [| b rest IH]; intros root;
    (destruct root as [| son0 son1 m p k]; [reflexivity |]); cbn [deepest].
  - destruct (negb (m =? 0)); [discriminate | reflexivity].
  - destruct (deepest rest (if b then son1 else son0)) as [n |] eqn:Hson.
    + intros Hf. rewrite (IH _ ltac:(rewrite Hson; exact Hf)) in Hson.
      discriminate.
    + destruct (negb (m =? 0)); [discriminate | reflexivity].
Qed.

Lemma deepest_is_node (q : list bool) (root n : btn) :
  deepest q root = Some n -> n <> NULL.
Proof.
  revert root. induction q as [| b rest IH]; intros root;
    (destruct root as [| son0 son1 m p k]; [discriminate |]); cbn [deepest].
  - destruct (negb (m =? 0)); [| discriminate]. intros [= <-]. discriminate.
  - destruct (deepest rest (if b then son1 else son0)) as [n' |] eqn:Hson.
    + intros [= <-]. apply (IH _ Hson).
    + destruct (negb (m =? 0)); [| discriminate]. intros [= <-]. discriminate.
Qed.

Lemma found_cons (b : bool) (rest : list bool) (son0 son1 : btn) (m p k : Z) :
  found (deepest (b :: rest) (Node son0 son1 m p k))
  = match found (deepest rest (if b then son1 else son0)) with
    | Some x => Some x
    | None => if negb (m =? 0) then Some (p, k) else None
    end.
Proof.
  cbn [deepest].
  destruct (deepest rest (if b then son1 else son0)) as [n |] eqn:Hson.
  - cbn [found]. pose proof (deepest_is_node _ _ _ Hson) as Hn.
    destruct n; [contradiction | reflexivity].
  - cbn [found]. destruct (negb (m =? 0)); reflexivity.
Qed.

Lemma found_nil (son0 son1 : btn) (m p k : Z) :
  found (deepest [] (Node son0 son1 m p k))
  = if negb (m =? 0) then Some (p, k) else None.
Proof. cbn. destruct (negb (m =? 0)); reflexivity. Qed.

Lemma found_son_or_new (q : list bool) (son : btn) :
  found (deepest q (son_or_new son)) = found (deepest q son).
Proof.
  destruct son as [| a b c d e]; [| reflexivity].
  rewrite deepest_NULL. unfold son_or_new, btn_init.
  destruct q as [| c rest]; [reflexivity |].
  rewrite found_cons. destruct c; rewrite deepest_NULL; reflexivity.
Qed.

Lemma found_built (q : list bool) (d : Z) (root : btn) (x : Z * Z) :
  built d root -> found (deepest q root) = Some x -> d <= snd x.
Proof.
  intros Hb Hf. destruct (deepest q root) as [n |] eqn:Hd; [| discriminate].
  destruct (deepest_built q d root n Hb Hd) as (s0 & s1 & p & k & -> & Hk).
  cbn in Hf. injection Hf as <-. exact Hk.
Qed.

(** What an insertion does to a lookup: the new prefix wins when it leads
    the bits looked up and what was found before is not longer. *)
Lemma found_insert (path : list bool) (d : Z) (root : btn) (q : list bool)
    (ip mask : Z) :
  built d root -> root <> NULL -> mask = d + Z.of_nat (length path) ->
  mask <= 32 ->
  found (deepest q (insert_path path root ip mask))
  = if is_prefix path q
       && match found (deepest q root) with
          | None => true
          | Some b => snd b <=? mask
          end
    then Some (ip, mask) else found (deepest q root).
Proof.
  revert d root q. induction path as [| b rest IH];
    intros d root q Hb Hroot Hm H32;
    (destruct root as [| son0 son1 m p k]; [contradiction |]).
  - cbn [insert_path is_prefix length] in *. rewrite andb_true_l.
    destruct Hb as (Hd & Hf & Hb0 & Hb1).
    destruct q as [| c q'].
    + rewrite !found_nil. change (negb (1 =? 0)) with true. cbv iota.
      destruct Hf as [[-> ->] | [-> ->]]; cbn [negb Z.eqb snd].
      * reflexivity.
      * destruct (Z.leb_spec d mask); [reflexivity | lia].
    + rewrite !found_cons. change (negb (1 =? 0)) with true. cbv iota.
      destruct (found (deepest q' (if c then son1 else son0))) as [x |] eqn:Hx.
      * assert (Hk : d + 1 <= snd x).
        { apply (found_built q' (d + 1) (if c then son1 else son0));
            [destruct c; assumption | exact Hx]. }
        destruct (Z.leb_spec (snd x) mask); [lia | reflexivity].
      * destruct Hf as [[-> ->] | [-> ->]]; cbn [negb Z.eqb snd].
        -- reflexivity.
        -- destruct (Z.leb_spec d mask); [reflexivity | lia].
  - destruct Hb as (Hd & Hf & Hb0 & Hb1). cbn [length] in Hm.
    assert (Hnew : forall son, built (d + 1) son -> built (d + 1) (son_or_new son)).
    { intros [| a b' c e f] Hs; [| exact Hs].
      cbn. split; [lia |]. split; [left; lia |]. auto. }
    assert (Hhere : match (if negb (m =? 0) then Some (p, k) else None) with
                    | None => true
                    | Some x => snd x <=? mask
                    end = true).
    { destruct Hf as [[-> ->] | [-> ->]]; cbn [negb Z.eqb snd]; [reflexivity |].
      apply Z.leb_le. lia. }
    destruct q as [| c q'].
    + cbn [is_prefix]. rewrite andb_false_l.
      cbn [insert_path]. destruct b; rewrite !found_nil; reflexivity.
    + cbn [is_prefix insert_path].
      destruct b, c; cbn [Bool.eqb]; rewrite ?andb_false_l, ?andb_true_l;
        rewrite !found_cons; cbv iota.
      * rewrite (IH (d + 1) (son_or_new son1) q')
          by (auto using son_or_new_not_null; lia).
        rewrite found_son_or_new.
        destruct (is_prefix rest q'); cbn [andb]; [| reflexivity].
        destruct (found (deepest q' son1)) as [x |].
        -- destruct (snd x <=? mask); reflexivity.
        -- rewrite Hhere. reflexivity.
      * reflexivity.
      * reflexivity.
      * rewrite (IH (d + 1) (son_or_new son0) q')
          by (auto using son_or_new_not_null; lia).
        rewrite found_son_or_new.
        destruct (is_prefix rest q'); cbn [andb]; [| reflexivity].
        destruct (found (deepest q' son0)) as [x |].
        -- destruct (snd x <=? mask); reflexivity.
        -- rewrite Hhere. reflexivity.
Qed.

Lemma ip_path_length (ip start : Z) (n : nat) : length (ip_path ip start n) = n.
Proof.
  revert start. induction n as [| n IH]; intros start; simpl;
    [reflexivity | rewrite IH; reflexivity].
Qed.

Lemma insert_path_matched (path : list bool) (root : btn) (ip mask : Z) :
  path <> [] -> matched_of (insert_path path root ip mask) = matched_of root.
Proof.
  intros Hp. destruct root as [| son0 son1 m p k]; [destruct path; reflexivity |].
  destruct path as [| [] rest]; [contradiction | reflexivity | reflexivity].
Qed.

(** The tree after the loop that builds it. *)
Lemma bt_add_all_found (entries : list (Z * Z)) (root : btn) :
  built 0 root -> root <> NULL ->
  Forall (fun e => 0 <= snd e <= 32) entries ->
  exists root',
    bt_add_all root entries = Some root' /\ built 0 root' /\ root' <> NULL /\
    (forall q, found (deepest q root')
               = fold_left (lpm_step q) entries (found (deepest q root))) /\
    (Forall (fun e => 1 <= snd e) entries -> matched_of root' = matched_of root).
Proof.
  intros Hb Hroot Hall. revert root Hb Hroot.
  induction Hall as [| [ip mask] rest Hm _ IH]; intros root Hb Hroot.
  - exists root. cbn. auto.
  - cbn [snd] in Hm. cbn [bt_add_all]. unfold bt_add_node.
    rewrite bt_add_node_fuel_path by (auto; lia).
    replace (mask + 1 - 1) with mask by lia.
    set (root1 := insert_path (ip_path ip 1 (Z.to_nat mask)) root ip mask).
    assert (Hlen : mask = 0 + Z.of_nat (length (ip_path ip 1 (Z.to_nat mask))))
      by (rewrite ip_path_length; lia).
    destruct (IH root1) as (root' & Hadd & Hb' & Hroot' & Hfound & Hmatched).
    { apply built_insert; auto. lia. }
    { apply insert_path_not_null, Hroot. }
    exists root'. split; [exact Hadd |]. split; [exact Hb' |].
    split; [exact Hroot' |]. split.
    + intros q. rewrite Hfound. cbn [fold_left]. f_equal.
      subst root1. rewrite (found_insert _ 0 root q ip mask Hb Hroot Hlen)
        by lia.
      reflexivity.
    + intros Hpos. apply Forall_cons in Hpos. destruct Hpos as [Hp Hrest].
      cbn [snd] in Hp. rewrite (Hmatched Hrest). subst root1.
      apply insert_path_matched.
      replace (Z.to_nat mask) with (S (Z.to_nat (mask - 1))) by lia.
      discriminate.
Qed.

Lemma lpm_fold_spec (q : list bool) (entries : list (Z * Z))
    (best : option (Z * Z)) :
  match best with
  | None => True
  | Some b => is_prefix (entry_path b) q = true
  end ->
  match fold_left (lpm_step q) entries best with
  | None =>
      best = None /\
      forall e, In e entries -> is_prefix (entry_path e) q = false
  | Some r =>
      (best = Some r \/ In r entries) /\
      is_prefix (entry_path r) q = true /\
      (forall e, In e entries -> is_prefix (entry_path e) q = true ->
                 snd e <= snd r) /\
      (forall b, best = Some b -> snd b <= snd r)
  end.
Proof.
  revert best. induction entries as [| e rest IH]; intros best Hbest.
  - cbn. destruct best as [b |].
    + split; [auto |]. split; [exact Hbest |].
      split; [intros e [] |]. intros b' [= <-]. lia.
    + split; [reflexivity | intros e []].
  - cbn [fold_left].
    assert (Hstep : match lpm_step q best e with
                    | None => True
                    | Some b => is_prefix (entry_path b) q = true
                    end).
    { unfold lpm_step. destruct (is_prefix (entry_path e) q) eqn:He;
        cbn [andb]; [| exact Hbest].
      destruct best as [b |]; [destruct (snd b <=? snd e) |];
        try exact He; exact Hbest. }
    specialize (IH (lpm_step q best e) Hstep).
    destruct (fold_left (lpm_step q) rest (lpm_step q best e)) as [r |].
    + destruct IH as (Hin & Hpre & Hmax & Hb).
      assert (Hcases : (lpm_step q best e = best /\
                        (is_prefix (entry_path e) q = true ->
                         exists b, best = Some b /\ snd e < snd b)) \/
                       (lpm_step q best e = Some e /\
                        is_prefix (entry_path e) q = true /\
                        forall b, best = Some b -> snd b <= snd e)).
      { unfold lpm_step. destruct (is_prefix (entry_path e) q) eqn:He;
          cbn [andb]; [| left; split; [reflexivity | discriminate]].
        destruct best as [b |].
        - destruct (Z.leb_spec (snd b) (snd e)).
          + right. split; [reflexivity |]. split; [reflexivity |].
            intros b' [= <-]. lia.
          + left. split; [reflexivity |]. intros _. exists b. auto.
        - right. split; [reflexivity |]. split; [reflexivity |].
          intros b' Hb'. discriminate. }
      destruct Hcases as [[Heq Hlose] | (Heq & He & Hwin)]; rewrite Heq in *.
      * split; [destruct Hin as [Hin | Hin]; [left; exact Hin | right; right; exact Hin] |].
        split; [exact Hpre |]. split; [| exact Hb].
        intros e' [<- | He'] Hp; [| apply (Hmax e' He' Hp)].
        destruct (Hlose Hp) as (b & Hbb & Hlt). specialize (Hb b Hbb). lia.
      * split; [destruct Hin as [Hin | Hin];
                [right; left; congruence | right; right; exact Hin] |].
        split; [exact Hpre |]. split.
        -- intros e' [<- | He'] Hp; [apply (Hb e eq_refl) | apply (Hmax e' He' Hp)].
        -- intros b Hbb. specialize (Hwin b Hbb). specialize (Hb e eq_refl). lia.
    + destruct IH as [Hnone Hall].
      unfold lpm_step in Hnone.
      destruct (is_prefix (entry_path e) q) eqn:He; cbn [andb] in Hnone.
      * destruct best as [b |]; [destruct (snd b <=? snd e) |]; discriminate.
      * split; [exact Hnone |]. intros e' [<- | He']; [exact He | apply (Hall e' He')].
Qed.

Lemma final_matched_deepest (q : list bool) (root : btn) :
  final_matched q root <> 0 -> deepest q root <> None.
Proof.
  revert root. induction q as [| b rest IH]; intros root;
    (destruct root as [| son0 son1 m p k]; [cbn; congruence |]).
  - cbn. destruct (Z.eqb_spec m 0); cbn; congruence.
  - cbn [final_matched deepest].
    destruct (if b then son1 else son0) as [| a b' c e f] eqn:Hson.
    + rewrite deepest_NULL. destruct (Z.eqb_spec m 0); cbn; congruence.
    + intros Hf. specialize (IH _ Hf).
      destruct (deepest rest (Node a b' c e f)); congruence.
Qed.

Lemma entry_of_default (o : option btn) : entry_of (default NULL o) = found o.
Proof. destruct o; reflexivity. Qed.

(** X27.  Longest prefix match.  The loop of [basic_prefix_match] builds
    a tree from every list of prefixes of length 0 to 32, and a lookup in
    it for an address and a length leaves [last_matched] at the longest
    prefix of the list that leads the first [mask] bits of the address - of
    two equal prefixes at the one inserted later - and at NULL when there
    is none.  The value returned is not 0 only when a prefix was
    found. *)
Theorem bt_match_longest_prefix (entries : list (Z * Z)) (ip mask : Z) :
  Forall (fun e => 0 <= snd e <= 32) entries ->
  0 <= mask <= 32 ->
  let q := ip_path ip 1 (Z.to_nat mask) in
  exists root ret last,
    bt_build entries = Some root /\
    basic_match root ip mask = Some (ret, last) /\
    entry_of last = lpm entries q /\
    (ret <> 0 -> last <> NULL) /\
    match entry_of last with
    | None => forall e, In e entries -> is_prefix (entry_path e) q = false
    | Some r =>
        In r entries /\ is_prefix (entry_path r) q = true /\
        forall e, In e entries -> is_prefix (entry_path e) q = true ->
                  snd e <= snd r
    end.
Proof.
  intros Hall Hmask q. unfold bt_build, basic_match.
  destruct (bt_add_all_found entries (btn_init NULL NULL 0))
    as (root & Hadd & Hb & Hroot & Hfound & _).
  { cbn. split; [lia |]. split; [left; auto | auto]. }
  { discriminate. }
  { exact Hall. }
  exists root. rewrite bt_match_path by (auto; lia).
  replace (mask + 1 - 1) with mask by lia. fold q.
  eexists. eexists. split; [exact Hadd |]. split; [reflexivity |].
  assert (Hlpm : entry_of (default NULL (deepest q root)) = lpm entries q).
  { rewrite entry_of_default, Hfound.
    change (btn_init NULL NULL 0) with (son_or_new NULL).
    rewrite found_son_or_new, deepest_NULL. reflexivity. }
  split; [exact Hlpm |]. split.
  - intros Hret. apply final_matched_deepest in Hret.
    destruct (deepest q root) as [n |] eqn:Hd; [| contradiction].
    apply (deepest_is_node _ _ _ Hd).
  - rewrite Hlpm. unfold lpm.
    pose proof (lpm_fold_spec q entries None I) as Hspec.
    destruct (fold_left (lpm_step q) entries None) as [r |].
    + destruct Hspec as ([Hin | Hin] & Hpre & Hmax & _); [discriminate |]. auto.
    + destruct Hspec as [_ Hnone]. exact Hnone.
Qed.

(** ** Leaf pushing *)

Lemma height_built (d : Z) (root : btn) :
  built d root -> (height root <= Z.to_nat (33 - d))%nat.
Proof.
  revert d. induction root as [| son0 IH0 son1 IH1 m p k]; intros d Hb.
  - cbn. lia.
  - destruct Hb as (Hd & _ & Hb0 & Hb1). cbn [height].
    specialize (IH0 _ Hb0). specialize (IH1 _ Hb1). lia.
Qed.

Lemma deepest_leaf (q : list bool) (m p k : Z) :
  deepest q (Node NULL NULL m p k)
  = if negb (m =? 0) then Some (Node NULL NULL m p k) else None.
Proof.
  destruct q as [| b rest]; [reflexivity |]. cbn [deepest].
  destruct b; rewrite deepest_NULL; reflexivity.
Qed.

Lemma final_matched_leaf (q : list bool) (m p k : Z) :
  final_matched q (Node NULL NULL m p k) = m.
Proof. destruct q as [| [] rest]; reflexivity. Qed.

Lemma deepest_son_or_new (q : list bool) (son : btn) :
  deepest q (son_or_new son) = deepest q son.
Proof.
  destruct son as [| a b c d e]; [| reflexivity].
  rewrite deepest_NULL. unfold son_or_new, btn_init. apply deepest_leaf.
Qed.

Lemma default_deepest_cons (last : btn) (b : bool) (rest : list bool)
    (son0 son1 : btn) (m p k : Z) :
  default last (deepest (b :: rest) (Node son0 son1 m p k))
  = default (if negb (m =? 0) then Node son0 son1 m p k else last)
            (deepest rest (if b then son1 else son0)).
Proof.
  cbn [deepest]. destruct (deepest rest (if b then son1 else son0));
    [reflexivity |]. destruct (negb (m =? 0)); reflexivity.
Qed.

Lemma final_matched_cons (b : bool) (rest : list bool) (son0 son1 : btn)
    (m p k : Z) :
  (if b then son1 else son0) <> NULL ->
  final_matched (b :: rest) (Node son0 son1 m p k)
  = final_matched rest (if b then son1 else son0).
Proof.
  intros Hson. cbn [final_matched].
  destruct (if b then son1 else son0); [contradiction | reflexivity].
Qed.

Lemma height_son_or_new (son : btn) :
  height (son_or_new son) = Nat.max 1 (height son).
Proof. destruct son; cbn; lia. Qed.

(** What [leaf_pushing] does to a tree as [bt_add_node] builds it, when
    the prefix pushed into it is none or one from above. *)
Lemma leaf_pushing_fuel_spec (fuel : nat) (root : btn) (d p m : Z) :
  root <> NULL -> (height root <= fuel)%nat -> built d root ->
  (matched_of root <> 0 -> 1 <= d) -> 0 <= m -> (m = 0 \/ m < d) ->
  exists root',
    leaf_pushing_fuel fuel root p m = Some root' /\ root' <> NULL /\
    full root' /\
    forall q lastA lastB,
      (height root <= S (length q))%nat ->
      entry_of lastA = (if 0 <? m then Some (p, m) else None) ->
      entry_of lastB = (if 0 <? m then Some (p, m) else None) ->
      entry_of (default lastB (deepest q root'))
      = entry_of (default lastA (deepest q root)) /\
      final_matched q root'
      = match entry_of (default lastA (deepest q root)) with
        | Some _ => 1
        | None => 0
        end.
Proof.
  revert root d p m. induction fuel as [| fuel IH];
    intros root d p m Hroot Hfuel Hb Hdeep Hm0 Hm;
    (destruct root as [| son0 son1 m0 p0 k0]; [contradiction |]);
    [cbn in Hfuel; lia |].
  destruct Hb as (Hd & Hf & Hb0 & Hb1). cbn [matched_of] in Hdeep.
  cbn [leaf_pushing_fuel].
  assert (Htriple : exists mm pp kk,
            (if k0 <? m then (1, p, m) else (m0, p0, k0)) = (mm, pp, kk) /\
            mm = (if 0 <? kk then 1 else 0) /\ 0 <= kk /\ (kk = 0 \/ kk < d + 1) /\
            ((0 <? kk) = false -> (0 <? m) = false) /\
            (forall s0 s1 lastA,
               entry_of lastA = (if 0 <? m then Some (p, m) else None) ->
               entry_of (if negb (m0 =? 0) then Node s0 s1 m0 p0 k0 else lastA)
               = if 0 <? kk then Some (pp, kk) else None)).
  { destruct Hf as [[-> ->] | [-> ->]].
    - destruct (Z.ltb_spec 0 m) as [Hpos | Hzero].
      + exists 1, p, m. split; [reflexivity |].
        destruct (Z.ltb_spec 0 m); [| lia].
        split; [reflexivity |]. split; [lia |]. split; [lia |].
        split; [discriminate |]. intros s0 s1 lastA HA. exact HA.
      + exists 0, p0, 0. split; [reflexivity |]. cbn.
        split; [reflexivity |]. split; [lia |]. split; [lia |].
        split; [reflexivity |]. intros s0 s1 lastA HA. exact HA.
    - specialize (Hdeep ltac:(lia)).
      destruct (Z.ltb_spec d m); [lia |].
      exists 1, p0, d. split; [reflexivity |].
      destruct (Z.ltb_spec 0 d); [| lia].
      split; [reflexivity |]. split; [lia |]. split; [lia |].
      split; [discriminate |]. intros s0 s1 lastA _. reflexivity. }
  destruct Htriple as (mm & pp & kk & -> & Hmm & Hkk0 & Hkk & Hnone & Hhere).
  assert (HhereB : forall s0 s1 lastB,
            entry_of lastB = (if 0 <? m then Some (p, m) else None) ->
            entry_of (if negb (mm =? 0) then Node s0 s1 mm pp kk else lastB)
            = if 0 <? kk then Some (pp, kk) else None).
  { intros s0 s1 lastB HB. rewrite Hmm.
    destruct (0 <? kk) eqn:Hk; cbn [negb Z.eqb]; [reflexivity |].
    rewrite HB, (Hnone eq_refl). reflexivity. }
  destruct (leaf (Node son0 son1 m0 p0 k0)) eqn:Hleaf.
  - assert (Hsons : son0 = NULL /\ son1 = NULL).
    { cbn in Hleaf. destruct son0; [| discriminate].
      destruct son1; [auto | discriminate]. }
    destruct Hsons as [-> ->].
    eexists. split; [reflexivity |]. split; [discriminate |].
    split; [cbn; tauto |].
    intros q lastA lastB _ HA HB.
    rewrite !deepest_leaf, final_matched_leaf.
    assert (HeA : entry_of (default lastA
                    (if negb (m0 =? 0) then Some (Node NULL NULL m0 p0 k0) else None))
                  = if 0 <? kk then Some (pp, kk) else None).
    { rewrite <- (Hhere NULL NULL lastA HA). destruct (negb (m0 =? 0)); reflexivity. }
    assert (HeB : entry_of (default lastB
                    (if negb (mm =? 0) then Some (Node NULL NULL mm pp kk) else None))
                  = if 0 <? kk then Some (pp, kk) else None).
    { rewrite <- (HhereB NULL NULL lastB HB). destruct (negb (mm =? 0)); reflexivity. }
    rewrite HeA, HeB. split; [reflexivity |].
    rewrite Hmm. destruct (0 <? kk); reflexivity.
  - assert (Hnonleaf : son0 <> NULL \/ son1 <> NULL).
    { cbn in Hleaf. destruct son0; [| left; discriminate].
      destruct son1; [discriminate | right; discriminate]. }
    cbn [height] in Hfuel.
    assert (Hh : (1 <= Nat.max (height son0) (height son1))%nat).
    { destruct Hnonleaf as [Hn | Hn]; [destruct son0 | destruct son1];
        try contradiction; cbn; lia. }
    assert (Hd1 : d + 1 <= 32).
    { destruct Hnonleaf as [Hn | Hn]; [destruct son0 | destruct son1];
        try contradiction; [destruct Hb0 as [? _] | destruct Hb1 as [? _]]; lia. }
    assert (Hnew : forall son, built (d + 1) son -> built (d + 1) (son_or_new son)).
    { intros [| a b' c e f] Hs; [| exact Hs].
      cbn. split; [lia |]. split; [left; lia |]. auto. }
    assert (Hnewm : forall son, matched_of (son_or_new son) <> 0 -> 1 <= d + 1)
      by (intros; lia).
    destruct (IH (son_or_new son0) (d + 1) pp kk)
      as (son0' & Hp0 & Hn0 & Hfull0 & Hq0);
      [apply son_or_new_not_null | rewrite height_son_or_new; lia
       | apply Hnew, Hb0 | apply Hnewm | exact Hkk0 | exact Hkk |].
    destruct (IH (son_or_new son1) (d + 1) pp kk)
      as (son1' & Hp1 & Hn1 & Hfull1 & Hq1);
      [apply son_or_new_not_null | rewrite height_son_or_new; lia
       | apply Hnew, Hb1 | apply Hnewm | exact Hkk0 | exact Hkk |].
    rewrite Hp0, Hp1.
    eexists. split; [reflexivity |]. split; [discriminate |].
    split; [cbn; tauto |].
    intros q lastA lastB Hq HA HB. cbn [height] in Hq.
    destruct q as [| b q']; [cbn in Hq; lia |]. cbn [length] in Hq.
    rewrite !default_deepest_cons.
    rewrite final_matched_cons by (destruct b; assumption).
    destruct b.
    + rewrite <- (deepest_son_or_new q' son1).
      apply Hq1.
      * rewrite height_son_or_new. lia.
      * apply Hhere, HA.
      * apply HhereB, HB.
    + rewrite <- (deepest_son_or_new q' son0).
      apply Hq0.
      * rewrite height_son_or_new. lia.
      * apply Hhere, HA.
      * apply HhereB, HB.
Qed.

(** X28.  Leaf pushing keeps the answers and makes them readable at the
    leaves.  For a tree built from prefixes of length 1 to 32,
    [leaf_pushing (root, 0, 0)] returns a tree in which every node is a
    leaf or has both sons, and a lookup of a full address in it ends at a
    node that holds the prefix the lookup in the tree before found, and
    returns 1 exactly when there is such a prefix.  A prefix of length 0
    is left out: the comparison [mask > root->mask] is strict and a node
    without prefix has mask 0, so it is never pushed. *)
Theorem leaf_pushing_keeps_answers (entries : list (Z * Z)) (ip : Z) :
  Forall (fun e => 1 <= snd e <= 32) entries ->
  exists root root' ret last ret' last',
    bt_build entries = Some root /\
    leaf_pushing root 0 0 = Some root' /\
    full root' /\
    basic_match root ip 32 = Some (ret, last) /\
    basic_match root' ip 32 = Some (ret', last') /\
    entry_of last' = entry_of last /\
    entry_of last = lpm entries (ip_path ip 1 32) /\
    ret' = match entry_of last with
           | Some _ => 1
           | None => 0
           end.
Proof.
  intros Hall. unfold bt_build, basic_match, leaf_pushing.
  destruct (bt_add_all_found entries (btn_init NULL NULL 0))
    as (root & Hadd & Hb & Hroot & Hfound & Hmatched).
  { cbn. split; [lia |]. split; [left; auto | auto]. }
  { discriminate. }
  { eapply Forall_impl; [exact Hall |]. cbn. intros e He. lia. }
  assert (Hm : matched_of root = 0).
  { rewrite Hmatched; [reflexivity |].
    eapply Forall_impl; [exact Hall |]. cbn. intros e He. lia. }
  destruct (leaf_pushing_fuel_spec (height root) root 0 0 0)
    as (root' & Hpush & Hroot' & Hfull & Hq);
    [exact Hroot | lia | exact Hb | intros Hnz; contradiction | lia | lia |].
  exists root, root'.
  rewrite !bt_match_path by (auto; lia).
  change (Z.to_nat (32 + 1 - 1)) with 32%nat.
  eexists. eexists. eexists. eexists.
  split; [exact Hadd |]. split; [exact Hpush |]. split; [exact Hfull |].
  split; [reflexivity |]. split; [reflexivity |].
  destruct (Hq (ip_path ip 1 32) NULL NULL) as [He Hr].
  { rewrite ip_path_length. pose proof (height_built 0 root Hb). lia. }
  { reflexivity. }
  { reflexivity. }
  split; [exact He |]. split; [| exact Hr].
  rewrite entry_of_default, Hfound.
  change (btn_init NULL NULL 0) with (son_or_new NULL).
  rewrite found_son_or_new, deepest_NULL. reflexivity.
Qed.

(** * The theorems at concrete inputs *)

#[local] Existing Instances lab_ether_env lab_stp_env lab_mospf_env.

Lemma sample_world_inv : stp_world_inv sample_world.
Proof.
  split; [left; reflexivity |]. split; [right; split; reflexivity |].
  apply (bool_decide_unpack _). vm_compute. exact I.
Defined.

Lemma rooted_world_inv : stp_world_inv rooted_world.
Proof.
  split; [right; eexists; reflexivity |]. split; [left; reflexivity |].
  apply (bool_decide_unpack _). vm_compute. exact I.
Defined.

(** A worse BPDU on port 0 of [sample_world] sends nothing and leaves the
    port designated by the bridge; an equal one floods. *)
Lemma stp_handle_config_worse_or_equal_witness :
  snd (stp_handle_config_packet sample_world 0 worse_bpdu) = [] /\
  floods (w_stp sample_world)
    (sends (snd (stp_handle_config_packet
                   sample_world 0 equal_bpdu))).
Proof.
  split.
  - destruct (stp_handle_config_worse_or_equal
                sample_world _ 0 sample_port worse_bpdu _
                (proj1 sample_world_inv) eq_refl (surjective_pairing _))
      as [Hworse _].
    assert (Hprio : 0 < get_port_priority (config_to_host worse_bpdu) sample_port)
      by (vm_compute; reflexivity).
    exact (proj1 (Hworse Hprio)).
  - destruct (stp_handle_config_worse_or_equal
                sample_world _ 0 sample_port equal_bpdu _
                (proj1 sample_world_inv) eq_refl (surjective_pairing _))
      as [_ Hequal].
    assert (Hprio : get_port_priority (config_to_host equal_bpdu) sample_port = 0)
      by (vm_compute; reflexivity).
    exact (proj1 (proj2 (Hequal Hprio))).
Defined.

(** A better BPDU on port 0 of [sample_world], which has no root port,
    makes port 0 the root port; in [rooted_world] a BPDU that is better
    than port 1 but not better than the root port changes port 1 only. *)
Lemma stp_handle_config_better_witness :
  stp_root_port (w_stp (fst (stp_handle_config_packet
                               sample_world 0 better_bpdu))) = Some 0%nat /\
  stp_designated_root (w_stp (fst (stp_handle_config_packet sample_world 0 better_bpdu)))
    = 0x8000000000000001 /\
  stp_root_port (w_stp (fst (stp_handle_config_packet
                               rooted_world 1 second_bpdu))) = Some 0%nat /\
  snd (stp_handle_config_packet rooted_world 1 second_bpdu)
    = [].
Proof.
  assert (Hprio1 : get_port_priority (config_to_host better_bpdu) sample_port < 0)
    by (vm_compute; reflexivity).
  destruct (stp_handle_config_better
              sample_world _ 0 sample_port better_bpdu _
              sample_world_inv eq_refl Hprio1 (surjective_pairing _))
    as (_ & _ & _ & _ & Helect).
  assert (Hprio2 : get_port_priority (config_to_host second_bpdu) rooted_port1 < 0)
    by (vm_compute; reflexivity).
  destruct (stp_handle_config_better
              rooted_world _ 1 rooted_port1 second_bpdu _
              rooted_world_inv eq_refl Hprio2 (surjective_pairing _))
    as (_ & _ & _ & Hkeep & _).
  destruct Helect as (Hrp & Hroot & _).
  { intros (r & rp & Hr & _). discriminate Hr. }
  destruct Hkeep as (Hrp' & _ & _ & _ & _ & _ & Hout).
  { exists 0%nat. eexists. split; [reflexivity |]. split; [reflexivity |].
    vm_compute. discriminate. }
  split; [exact Hrp |]. split; [exact Hroot |]. split; [exact Hrp' | exact Hout].
Defined.

(** Four BPDUs, the third and the fourth better than the port they arrive
    on: the timer is stopped once, by the third. *)
Lemma hello_timer_stopped_once_witness :
  timer_stops (snd (stp_run sample_world
                      [(0%nat, equal_bpdu); (1%nat, worse_bpdu);
                       (0%nat, better_bpdu); (1%nat, best_bpdu)])) = 1%nat /\
  timer_stops (snd (stp_handle_config_packet
                      (fst (stp_run sample_world
                              [(0%nat, equal_bpdu); (1%nat, worse_bpdu)]))
                      0 better_bpdu)) = 1%nat /\
  timer_stops (snd (stp_handle_config_packet
                      (fst (stp_run sample_world
                              [(0%nat, equal_bpdu); (1%nat, worse_bpdu);
                               (0%nat, better_bpdu)]))
                      1 best_bpdu)) = 0%nat.
Proof.
  destruct (hello_timer_stopped_once sample_world
              [(0%nat, equal_bpdu); (1%nat, worse_bpdu);
               (0%nat, better_bpdu); (1%nat, best_bpdu)] eq_refl)
    as (Hstep & Htotal & _).
  split; [rewrite Htotal; vm_compute; reflexivity |]. split.
  - rewrite (Hstep [(0%nat, equal_bpdu); (1%nat, worse_bpdu)] 0%nat better_bpdu
               [(1%nat, best_bpdu)] eq_refl).
    vm_compute. reflexivity.
  - rewrite (Hstep [(0%nat, equal_bpdu); (1%nat, worse_bpdu); (0%nat, better_bpdu)]
               1%nat best_bpdu [] eq_refl).
    vm_compute. reflexivity.
Defined.


(** A router whose LSDB holds only another router's entry: the table is
    emptied. *)
Lemma generate_rt_no_self_witness :
  mospf_rtable sample_router_no_self = [sample_route] /\
  generate_rt sample_router_no_self = Done [].
Proof.
  split; [reflexivity |].
  apply (generate_rt_no_self sample_router_no_self).
  intros e [<- | []]. vm_compute. discriminate.
Defined.

(** A Hello of the known neighbour 10.0.1.2 with another source address
    and mask: only [alive] of that neighbour changes. *)
Lemma handle_mospf_hello_known_witness :
  iface_list (mospf_instance (handle_mospf_hello sample_router 0
                                sample_hello))
    = [{| iface_ip := 0x0A000101; iface_mask := mask24;
          iface_mac := [0; 0; 0; 0; 1; 1]; num_nbr := 1;
          nbr_list := [{| nbr_id := 0x0A000102; nbr_ip := 0x0A000102;
                          nbr_mask := mask24; alive := 15 |}] |};
       sample_iface1] /\
  mospf_nbr_changed (handle_mospf_hello sample_router 0 sample_hello)
    = mospf_nbr_changed sample_router /\
  mospf_db (handle_mospf_hello sample_router 0 sample_hello)
    = mospf_db sample_router /\
  mospf_rtable (handle_mospf_hello sample_router 0 sample_hello)
    = mospf_rtable sample_router.
Proof.
  assert (Hin : In sample_nbr0 (nbr_list sample_iface0)) by (left; reflexivity).
  assert (Hid : nbr_id sample_nbr0 = ntohl (mospf_rid (hello_hdr sample_hello)))
    by (vm_compute; reflexivity).
  destruct (handle_mospf_hello_known sample_router 0 sample_iface0
              sample_hello sample_nbr0 eq_refl Hin Hid)
    as (pos & nbr & _ & _ & _ & _ & _ & _ & _ & _ & _ & Hchanged & Hdb & Hrt).
  split; [vm_compute; reflexivity |].
  split; [exact Hchanged |]. split; [exact Hdb | exact Hrt].
Defined.

(** * The further properties at concrete inputs *)

#[local] Existing Instance lab_hello_env.

Ltac by_computation := apply (bool_decide_unpack _); vm_compute; exact I.

Lemma mac_b_ok : mac_ok mac_b.
Proof. split; [reflexivity |]. repeat constructor; simpl; lia. Defined.

Lemma mac_a_ok : mac_ok mac_a.
Proof. split; [reflexivity |]. repeat constructor; simpl; lia. Defined.

(** [sample_world] after a better BPDU on port 0 and a hello timeout:
    port 0 is the root port and the only port with the role ROOT. *)
Lemma stp_reachable_roles_witness :
  exists rp,
    stp_ports (w_stp (fst (stp_steps (stp_init mac_b [mac_c])
                             [Receive 0 better_bpdu; HelloTimeout]))) !! 0%nat
    = Some rp /\
    stp_port_state (w_stp (fst (stp_steps (stp_init mac_b [mac_c])
                                  [Receive 0 better_bpdu; HelloTimeout]))) rp
    = ROOT.
Proof.
  pose proof (stp_reachable_roles mac_b [mac_c]
                [Receive 0 better_bpdu; HelloTimeout]
                ltac:(simpl; lia)) as Hroles.
  cbv zeta in Hroles.
  assert (Hrp : stp_root_port
                  (w_stp (fst (stp_steps (stp_init mac_b [mac_c])
                                 [Receive 0 better_bpdu; HelloTimeout])))
                = Some 0%nat) by (vm_compute; reflexivity).
  rewrite Hrp in Hroles. destruct Hroles as (rp & Hl & Hall).
  exists rp. split; [exact Hl |]. apply (Hall 0%nat rp Hl). reflexivity.
Defined.

(** The better BPDU a second time on port 0 of [sample_world]: no timer
    stop. *)
Lemma better_bpdu_again_witness :
  timer_stops
    (snd (stp_handle_config_packet
            (fst (stp_handle_config_packet sample_world 0 better_bpdu))
            0 better_bpdu)) = 0%nat.
Proof.
  assert (Hprio : get_port_priority (config_to_host better_bpdu) sample_port < 0)
    by (vm_compute; reflexivity).
  destruct (better_bpdu_again sample_world 0 sample_port better_bpdu eq_refl Hprio)
    as [Heq Hstops].
  cbv zeta in Heq, Hstops. rewrite Heq. exact Hstops.
Defined.

(** The bridge with MAC 00:00:00:00:00:02 and priority 32768. *)
Lemma stp_init_switch_id_witness :
  stp_switch_id (w_stp (stp_init mac_b [mac_c])) = 32768 * 2 ^ 48 + 2 /\
  (stp_switch_id (w_stp (stp_init mac_b [mac_c]))
   = stp_switch_id (w_stp (stp_init mac_a [])) -> mac_b = mac_a).
Proof.
  destruct (stp_init_switch_id mac_b mac_a [mac_c] [] mac_b_ok mac_a_ok
              ltac:(by_computation)) as (Hid & _ & Hinj).
  cbv zeta in Hid, Hinj. split; [exact Hid | exact Hinj].
Defined.

(** The BPDU port 0 of [sample_world] sends, read back. *)
Lemma build_config_round_trip_witness :
  config_root_id (config_to_host (build_config (w_stp sample_world) sample_port))
  = 0x8000000000000002 /\
  config_port_id (config_to_host (build_config (w_stp sample_world) sample_port))
  = 0x8001.
Proof.
  assert (Hrange : stp_in_range (w_stp sample_world))
    by (unfold stp_in_range; by_computation).
  destruct (build_config_round_trip (w_stp sample_world) sample_port Hrange
              ltac:(simpl; lia)) as (Hroot & _ & _ & Hpid).
  split; [exact Hroot | exact Hpid].
Defined.

(** A BPDU of bridge A on port 0 of bridge B: B gives way. *)
Lemma smaller_bridge_id_wins_witness :
  stp_root_port
    (w_stp (fst (stp_handle_config_packet (stp_init mac_b [mac_c]) 0
                   (build_config (w_stp (stp_init mac_a [])) sample_port_a))))
  = Some 0%nat /\
  stp_root_path_cost
    (w_stp (fst (stp_handle_config_packet (stp_init mac_b [mac_c]) 0
                   (build_config (w_stp (stp_init mac_a [])) sample_port_a))))
  = 1.
Proof.
  destruct (smaller_bridge_id_wins mac_a mac_b [] [mac_c] 0 0
              sample_port_a sample_port mac_a_ok mac_b_ok
              ltac:(by_computation) ltac:(vm_compute; reflexivity)
              eq_refl eq_refl) as [Hwin _].
  destruct (Hwin ltac:(vm_compute; reflexivity)) as (Hrp & _ & Hcost & _).
  split; [exact Hrp | exact Hcost].
Defined.

(** A BPDU one below [sample_port] in root and bridge id. *)
Lemma get_port_priority_orders_close_fields_witness :
  close_fields close_bpdu sample_port /\
  (get_port_priority close_bpdu sample_port ?= 0) = Lt.
Proof.
  assert (Hclose : close_fields close_bpdu sample_port)
    by (unfold close_fields; simpl; lia).
  split; [exact Hclose |].
  rewrite (get_port_priority_orders_close_fields close_bpdu sample_port Hclose).
  reflexivity.
Defined.

Lemma sample_ifaces_wf : Forall iface_wf (iface_list (mospf_instance sample_router)).
Proof. unfold iface_wf. by_computation. Defined.

(** A Hello, a second, a Hello on the other interface. *)
Lemma nbr_tables_stay_well_formed_witness :
  Forall iface_wf
    (iface_list (mospf_instance
                   (nbr_steps sample_router
                      [GotHello 0 sample_hello; SecondPassed;
                       GotHello 1 sample_hello]))).
Proof.
  eapply Forall_impl;
    [exact (nbr_tables_stay_well_formed sample_router
              [GotHello 0 sample_hello; SecondPassed; GotHello 1 sample_hello]
              sample_ifaces_wf) |].
  intros iface [Hwf _]. exact Hwf.
Defined.

(** Fifteen seconds after its last Hello the neighbour is gone. *)
Lemma hello_then_ageing_witness :
  mospf_nbr_changed
    (nbr_steps (handle_mospf_hello sample_router 0 sample_hello)
               (repeat SecondPassed 15)) = 1.
Proof.
  destruct (hello_then_ageing sample_router 0 sample_iface0 sample_hello 15
              eq_refl ltac:(by_computation) ltac:(by_computation))
    as (iface_n & _ & _ & Hgone).
  exact (proj2 (Hgone ltac:(by_computation))).
Defined.

(** The LSDB of [sample_router_seq5] after an LSU and after a round of the
    emitter. *)
Lemma lsdb_keeps_one_entry_per_router_witness :
  db_wf (mospf_db (fst (handle_mospf_lsu sample_router_seq5 0 (sample_lsu 6) 0 []))) /\
  db_wf (mospf_db (fst (emit_lsu sample_router_seq5 zero_packet 0))).
Proof.
  apply (lsdb_keeps_one_entry_per_router sample_router_seq5 0 (sample_lsu 6) 0 []
           zero_packet 0).
  unfold db_wf. by_computation.
Defined.

(** The entry with sequence number 5 after an LSU with 6. *)
Lemma lsu_handler_only_advances_witness :
  exists e_new,
    mospf_db (fst (handle_mospf_lsu sample_router_seq5 0 (sample_lsu 6) 0 []))
      !! 0%nat = Some e_new /\
    5 <= db_seq e_new.
Proof.
  destruct (lsu_handler_only_advances sample_router_seq5 0 (sample_lsu 6) 0 []
              0 {| db_rid := 0x0A000102; db_seq := 5; db_nadv := 0;
                   db_array := [] |} eq_refl)
    as (e_new & Hl & _ & Hseq & _).
  exists e_new. split; [exact Hl | exact Hseq].
Defined.


Lemma sample_ifaces_counted :
  Forall iface_counted (iface_list (mospf_instance sample_router)).
Proof. unfold iface_counted. by_computation. Defined.

(** A round of the emitter of [sample_router]: two packets, and two LSAs
    in the local entry. *)
Lemma emit_lsu_advertises_every_link_witness :
  length (snd (emit_lsu sample_router zero_packet 0)) = 2%nat /\
  self_entry (fst (emit_lsu sample_router zero_packet 0))
  = Some {| db_rid := 0x0A000101; db_seq := 0; db_nadv := 2;
            db_array := build_lsa_list [sample_iface0; sample_iface1] |}.
Proof.
  destruct (emit_lsu_advertises_every_link sample_router zero_packet 0
              sample_ifaces_counted ltac:(vm_compute; reflexivity)
              ltac:(unfold u32_ok; by_computation))
    as (_ & _ & _ & Hlen & Hself).
  split; [exact Hlen | exact Hself].
Defined.

(** Router B handles the first packet of that round. *)
Lemma lsu_round_trip_witness :
  db_entry_of 0x0A000101
    (mospf_db (fst (handle_mospf_lsu sample_router_b 0
                      (sent_packet sample_emitted) 0 [])))
  = Some {| db_rid := 0x0A000101; db_seq := 1; db_nadv := 2;
            db_array := build_lsa_list [sample_iface0; sample_iface1] |}.
Proof.
  apply (lsu_round_trip sample_router sample_router_b zero_packet 0
           sample_emitted 0 0 [] sample_ifaces_counted).
  - unfold iface_in_range, nbr_in_range, u32_ok. by_computation.
  - vm_compute. reflexivity.
  - unfold u32_ok. by_computation.
  - left. reflexivity.
  - vm_compute. reflexivity.
Defined.

Lemma sample_iface_b_new : ~ has_nbr 0x0A000101 sample_iface_b.
Proof. intros (nbr & [] & _). Defined.

(** Router B hears the Hello of interface 0 of [sample_router]. *)
Lemma hello_round_trip_witness :
  length (sending_mospf_hello_round sample_router zero_hello) = 2%nat /\
  exists h,
    sending_mospf_hello_round sample_router zero_hello !! 0%nat = Some h /\
    iface_list (mospf_instance
                  (handle_mospf_hello sample_router_b 0 (hsent_packet h)))
    = [{| iface_ip := 0x0A000102; iface_mask := mask24;
          iface_mac := [0; 0; 0; 0; 1; 2]; num_nbr := 1;
          nbr_list := [{| nbr_id := 0x0A000101; nbr_ip := 0x0A000101;
                          nbr_mask := mask24; alive := 15 |}] |}].
Proof.
  destruct (hello_round_trip sample_router sample_router_b zero_hello
              0 sample_iface0 0 sample_iface_b eq_refl
              ltac:(unfold u32_ok; by_computation)
              ltac:(unfold u32_ok; by_computation)
              ltac:(unfold u32_ok; by_computation)
              eq_refl sample_iface_b_new)
    as (Hlen & h & Hh & _ & _ & _ & _ & _ & Hiface & _).
  split; [exact Hlen |]. exists h. split; [exact Hh |].
  cbv zeta in Hiface.
  assert (Hone : length (iface_list (mospf_instance
                   (handle_mospf_hello sample_router_b 0 (hsent_packet h))))
                 = 1%nat).
  { injection Hh as <-. reflexivity. }
  destruct (iface_list (mospf_instance
              (handle_mospf_hello sample_router_b 0 (hsent_packet h))))
    as [| x [| y rest]]; try discriminate.
  injection Hiface as ->. reflexivity.
Defined.

Lemma linked_db_matched : lsas_matched linked_db.
Proof.
  intros e lsa [<- | [<- | []]] [<- | []]; vm_compute; tauto.
Defined.

Lemma linked_db_held : Forall array_holds linked_db.
Proof. repeat constructor; unfold array_holds; simpl; lia. Defined.

(** The graph of two routers that advertise each other. *)
Lemma init_graph_is_adjacency_witness :
  exists graph,
    init_graph linked_db = Done graph /\
    graph_get 2 graph 0 1 = 1 /\ graph_get 2 graph 0 0 = 0.
Proof.
  destruct (init_graph_is_adjacency linked_db
              ltac:(unfold db_wf; by_computation) linked_db_held
              linked_db_matched)
    as (graph & Hg & _ & Hget).
  exists graph. split; [exact Hg |]. split.
  - exact (Hget 0%nat 1%nat _ _ eq_refl eq_refl).
  - exact (Hget 0%nat 0%nat _ _ eq_refl eq_refl).
Defined.



Lemma generate_rt_completes_witness :
  exists rt, generate_rt sample_router_linked = Done rt.
Proof.
  apply (generate_rt_completes sample_router_linked linked_db_held
           linked_db_matched).
  intros iface Hin (nbr & Hn & Hid).
  destruct Hin as [<- | [<- | []]]; destruct Hn as [<- | []];
    vm_compute in Hid; discriminate.
Defined.

(** The entry of the router itself after the SPF loop on the linked
    LSDB. *)
Lemma dijkstra_keeps_settled_entries_witness :
  dijkstra 2 [0; 1; 1; 0]
    (map (init_dist_entry 0x0A000101
            {| db_rid := 0x0A000101; db_seq := 1; db_nadv := 1;
               db_array := [{| lsa_subnet := 0x0A000100; lsa_mask := mask24;
                               lsa_rid := 0x0A000102 |}] |})
         linked_db) !! 0%nat
  = Some {| dist_rid := 0x0A000101; dist_visited := 1; dist_dist := 0;
            dist_gw := 0 |}.
Proof.
  destruct (dijkstra_keeps_settled_entries 2 [0; 1; 1; 0]
              (map (init_dist_entry 0x0A000101
                      {| db_rid := 0x0A000101; db_seq := 1; db_nadv := 1;
                         db_array := [{| lsa_subnet := 0x0A000100;
                                         lsa_mask := mask24;
                                         lsa_rid := 0x0A000102 |}] |})
                   linked_db)
              0
              {| dist_rid := 0x0A000101; dist_visited := 1; dist_dist := 0;
                 dist_gw := 0 |} eq_refl) as [(d' & Hd' & _ & _ & Hsame) _].
  rewrite Hd', (Hsame eq_refl). reflexivity.
Defined.

(** The first round of a router with two interfaces. *)
Lemma first_round_after_init_witness :
  sending_mospf_lsu_round (mospf_init bare_iface0 [bare_iface1] []) zero_packet 0
  = ([], Fault OutOfBounds).
Proof.
  destruct (first_round_after_init bare_iface0 [bare_iface1] [] zero_packet 0
              ltac:(by_computation) ltac:(vm_compute; discriminate)
              ltac:(vm_compute; reflexivity))
    as (_ & _ & _ & Hround).
  exact Hround.
Defined.

(** Thirty checks without a change: 29 sleeps; a change at the third
    check: 2 sleeps. *)
Lemma lsu_round_wait_sleeps_witness :
  lsu_round_wait (repeat 0 30) = Some 29%nat /\
  lsu_round_wait ([0; 0; 1] ++ repeat 0 27) = Some 2%nat.
Proof.
  split.
  - rewrite (lsu_round_wait_sleeps (repeat 0 30) ltac:(by_computation)
               ltac:(vm_compute; lia)).
    reflexivity.
  - rewrite (lsu_round_wait_sleeps ([0; 0; 1] ++ repeat 0 27)
               ltac:(by_computation) ltac:(vm_compute; lia)).
    reflexivity.
Defined.

(** 192.168.0.0/16 into the empty tree. *)
Lemma bt_add_then_match_witness :
  exists root',
    bt_add_node (btn_init NULL NULL 0) 0xC0A80000 16 1 = Some root' /\
    exists son0 son1,
      bt_match root' 0xC0A80000 16 1 NULL
      = Some (1, Node son0 son1 1 0xC0A80000 16).
Proof.
  apply (bt_add_then_match (btn_init NULL NULL 0) 0xC0A80000 16 NULL);
    [discriminate | lia].
Defined.

Lemma sample_table_masks : Forall (fun e => 1 <= snd e <= 32) sample_table.
Proof. repeat constructor; simpl; lia. Defined.

(** 10.1.2.3 in the sample table: 10.1.0.0/16. *)
Lemma bt_match_longest_prefix_witness :
  exists root ret last,
    bt_build sample_table = Some root /\
    basic_match root 0x0A010203 32 = Some (ret, last) /\
    entry_of last = Some (0x0A010000, 16).
Proof.
  destruct (bt_match_longest_prefix sample_table 0x0A010203 32
              ltac:(repeat constructor; simpl; lia) ltac:(lia))
    as (root & ret & last & Hb & Hm & Hlpm & _).
  exists root, ret, last. split; [exact Hb |]. split; [exact Hm |].
  rewrite Hlpm. vm_compute. reflexivity.
Defined.

(** The same lookup after leaf pushing. *)
Lemma leaf_pushing_keeps_answers_witness :
  exists root root' ret' last',
    bt_build sample_table = Some root /\
    leaf_pushing root 0 0 = Some root' /\
    basic_match root' 0x0A010203 32 = Some (ret', last') /\
    entry_of last' = Some (0x0A010000, 16) /\ ret' = 1.
Proof.
  destruct (leaf_pushing_keeps_answers sample_table 0x0A010203 sample_table_masks)
    as (root & root' & ret & last & ret' & last' & Hb & Hp & _ & _ & Hm' & He
        & Hlpm & Hret).
  exists root, root', ret', last'.
  split; [exact Hb |]. split; [exact Hp |]. split; [exact Hm' |].
  assert (Hl : lpm sample_table (ip_path 0x0A010203 1 32)
               = Some (0x0A010000, 16)) by (vm_compute; reflexivity).
  rewrite Hl in Hlpm. rewrite Hlpm in He, Hret. split; [exact He | exact Hret].
Defined.

(** The frame port 0 of [sample_world] sends at a hello timeout. *)
Lemma stp_sends_own_config_only_witness :
  own_config_frame (w_stp sample_world) 0
                   (config_bpdu (w_stp sample_world) 0 sample_port).
Proof.
  apply (stp_sends_own_config_only sample_world [HelloTimeout] 0).
  vm_compute. left. reflexivity.
Defined.
